(** * Order fulfilment saga of the Orders service

    A shallow embedding of the order-fulfilment code of the Orders
    service and of the two remote services it talks to:

    - [validators]        services/orders/app/validators.py
    - [inventory_client]  services/orders/app/clients/inventory_client.py
    - [users_client]      services/orders/app/clients/users_client.py
    - [crud]              services/orders/app/crud.py
    - [main]              services/orders/app/main.py (create_order, update_order,
                          delete_order, get_order, list_orders, get_order_timeline)

    Modelling decisions.

    - Python [int] is [Z]; [str] is [string]; a [Decimal] is the rational
      [Qc] it denotes.  The arithmetic of the decimal module rounds every
      result to the 28 significant digits of the default context
      ([decimal.round_prec]); the exponent limits of the context are not
      modelled.
    - The functions are modelled as Python calls them: what pydantic
      refuses before a function is entered, and what FastAPI makes of the
      value a function returns, are outside the model.
    - Every coroutine is awaited at once by its caller, so [async]/[await]
      is plain sequencing.  Effects are a state-and-exception monad [M]
      over a [World]: the rows of the Inventory service, the ids known to
      the Users service, the two tables of the Orders service, and a
      schedule of [Fault]s, one consumed by each HTTP request.
    - An HTTP request either gets the reply of a healthy service, or fails
      in transport ([Unreachable], a timeout or connection error, raised by
      httpx as a subclass of httpx.HTTPError), or gets an error status
      ([ServerError], any 4xx/5xx reply).  The bearer token is forwarded
      with every request; whether the remote service accepts it is part
      of the fault schedule: a token it rejects (the Inventory service
      wants an administrator for PUT) is a [ServerError] at that request.
      A 200 reply is well formed, as the response models of the services
      guarantee, so the clients raise nothing but httpx.HTTPError.
    - [calls] is a ghost log: [reduce_inventory] and [restore_inventory]
      append their arguments to it on entry.  It lets the theorems speak
      about which reservations and releases were issued, and in which
      order.  Calls to [logger] are not modelled.
    - The store of the Orders service is the two tables of models.py.
      A flush checks the columns as PostgreSQL does: an [Integer] holds 32
      bits, [Numeric(10, 2)] rounds to two decimals and refuses what then
      needs more than ten digits, a NOT NULL column refuses null; what is
      refused raises [DBAPIError] and leaves the table as it was.  The
      connection itself does not fail.  Timestamps and the
      auto-incremented event id are left out.
    - The driver refuses a string with a NUL character, in a query as in
      a row.  The store here does not look into strings: the theorems
      that conclude that a request is written assume strings without NUL
      ([text_ok]), and those about the answer to an id assume it of the
      id.
    - The status of a create request is a string; a request that sets it
      to null, which the NOT NULL column refuses, is not modelled.
    - An entry of the JSONB column [Order.items] is a JSON object.  The
      endpoints store the three keys of a line item; import_orders_csv
      stores the objects of its file unchecked, so a key may be missing
      ([StoredItem]).  Values of another JSON type under these keys are
      not modelled. *)

From Stdlib Require Import QArith Qabs Qround Qcanon Qcabs.
From stdpp Require Import base decidable option list gmap strings pretty numbers.

Open Scope string_scope.
Open Scope list_scope.
Open Scope Z_scope.

(** ** Python helpers *)

(** The double-quote character, built from its code point. *)
Definition dquote : string := String (Ascii.ascii_of_nat 34) EmptyString.

(** [needle in haystack] on strings. *)
Fixpoint str_contains (needle haystack : string) : bool :=
  if String.prefix needle haystack then true
  else match haystack with
       | EmptyString => false
       | String _ rest => str_contains needle rest
       end.

(** How an f-string renders an [Optional[str]]. *)
Definition str_optional (s : option string) : string :=
  match s with
  | Some s => s
  | None => "None"
  end.

(** ** Decimal arithmetic

    Python's [decimal] at its default context: [prec=28],
    [rounding=ROUND_HALF_EVEN].  An operation computes the exact result
    and rounds it to 28 significant digits. *)

Module decimal.

(** The number of decimal digits of a positive integer. *)
Fixpoint digits_fuel (fuel : nat) (n : Z) : Z :=
  match fuel with
  | O => 0
  | S fuel => if bool_decide (n < 10) then 1 else 1 + digits_fuel fuel (n / 10)
  end.

Definition digits (n : Z) : Z := digits_fuel (S (Z.to_nat (Z.log2 n))) n.

Definition pow10 (e : Z) : Q := Qpower (inject_Z 10) e.

(** The adjusted exponent of a positive rational [x]: the [a] with
    [10^a <= x < 10^(a+1)].  With [dn] and [dd] digits in numerator and
    denominator, [x] lies between [10^(dn-dd-1)] and [10^(dn-dd+1)]. *)
Definition adjusted (x : Q) : Z :=
  let e := digits (Qnum x) - digits (Zpos (Qden x)) in
  if Qle_bool (pow10 e) x then e else e - 1.

(** To the nearest integer, a tie to the even one. *)
Definition round_half_even (y : Q) : Z :=
  let n := Qfloor y in
  match (y - inject_Z n ?= 1 # 2)%Q with
  | Lt => n
  | Gt => n + 1
  | Eq => if Z.even n then n else n + 1
  end.

(** [Decimal._fix]: the value with 28 significant digits. *)
Definition round_prec (x : Qc) : Qc :=
  if bool_decide (x = Q2Qc 0) then Q2Qc 0
  else
    let e := adjusted (Qabs x) - 27 in
    Q2Qc (inject_Z (Z.sgn (Qnum x) * round_half_even (Qabs x / pow10 e)) * pow10 e).

Definition add (x y : Qc) : Qc := round_prec (x + y).
Definition sub (x y : Qc) : Qc := round_prec (x - y).
Definition mul (x y : Qc) : Qc := round_prec (x * y).

End decimal.

(** ** Data model (schemas.py, models.py) *)

(** schemas.OrderItem *)
Record OrderItem := {
  sku : string;
  quantity : Z;
  price : Qc;
}.

(** One entry of the JSONB column [Order.items]: a JSON object, with or
    without the keys ['sku'], ['quantity'] and ['price'].  The price is
    stored as the string of a Decimal and kept here as the Decimal. *)
Record StoredItem := {
  st_sku : option string;
  st_quantity : option Z;
  st_price : option Qc;
}.

(** [{'sku': item.sku, 'quantity': item.quantity, 'price': str(item.price)}] *)
Definition stored_item (item : OrderItem) : StoredItem :=
  {| st_sku := Some (sku item); st_quantity := Some (quantity item);
     st_price := Some (price item) |}.

(** A field of a request that may be left out: unset, set to JSON null,
    or set to a value.  [model_dump(exclude_unset=True)] drops the first
    and keeps the other two. *)
Inductive field (A : Type) :=
  | Unset
  | Null
  | Value (a : A).
Arguments Unset {A}.
Arguments Null {A}.
Arguments Value {A} a.

(** schemas.OrderCreate.  [status] is [Optional[str]] with the default
    "pending"; the null that the schema lets through is left out. *)
Record OrderCreate := {
  oc_id : string;
  oc_user_id : Z;
  oc_total : Qc;
  oc_status : string;
  oc_items : list OrderItem;
}.

(** schemas.OrderUpdate *)
Record OrderUpdate := {
  ou_user_id : field Z;
  ou_total : field Qc;
  ou_status : field string;
  ou_items : field (list OrderItem);
}.

(** models.Order: a row of the table [orders].  [items] is nullable. *)
Record Order := {
  id : string;
  user_id : Z;
  total : Qc;
  status : string;
  items : option (list StoredItem);
}.

(** models.OrderEvent: a row of the table [order_events]. *)
Record OrderEvent := {
  ev_order_id : string;
  ev_event_type : string;
  ev_description : string;
  ev_old_value : option string;
  ev_new_value : option string;
  ev_user_id : option Z;
}.

(** auth.CurrentUser *)
Record CurrentUser := {
  cu_id : Z;
  cu_email : string;
  cu_role : string;
  cu_token : string;
}.

(** A row of the Inventory service (inventory/app/models.py). *)
Record InventoryItem := {
  inv_id : Z;
  inv_sku : string;
  inv_qty : Z;
}.

(** ** validators.py *)

Module validators.

(** The loop over the items of [validate_order_items]. *)
Fixpoint validate_each (items : list OrderItem) : bool * string :=
  match items with
  | [] => (true, "")
  | item :: rest =>
      if bool_decide (quantity item ≤ 0) then
        (false, "Item " +:+ sku item +:+ ": quantity must be positive")
      else if bool_decide (10000 < quantity item) then
        (false, "Item " +:+ sku item +:+ ": quantity exceeds maximum (10000)")
      else if bool_decide (price item < 0)%Qc then
        (false, "Item " +:+ sku item +:+ ": price cannot be negative")
      else if bool_decide (Q2Qc 1000000 < price item)%Qc then
        (false, "Item " +:+ sku item +:+ ": price exceeds maximum (1,000,000)")
      else validate_each rest
  end.

Definition validate_order_items (items : list OrderItem) : bool * string :=
  match items with
  | [] => (false, "Order must contain at least one item")
  | _ =>
      if bool_decide (100 < length items)%nat then
        (false, "Order cannot contain more than 100 items")
      else
        let skus := sku <$> items in
        if bool_decide (length skus ≠ size (list_to_set skus : gset string)) then
          (false, "Order contains duplicate SKUs")
        else validate_each items
  end.

Section total.
(** [str] of a [Decimal], used only inside the mismatch message. *)
Variable str_decimal : Qc → string.

(** [sum(Decimal(str(item.price)) * item.quantity for item in items)]:
    [sum] starts from 0 and adds the products from left to right. *)
Definition calculated_total (items : list OrderItem) : Qc :=
  foldl (λ acc item,
           decimal.add acc (decimal.mul (price item) (Q2Qc (inject_Z (quantity item)))))
        (Q2Qc 0) items.

Definition validate_order_total (items : list OrderItem) (claimed_total : Qc)
  : bool * string :=
  if bool_decide (Q2Qc (1 # 100)
                  < Qcabs (decimal.sub (calculated_total items) claimed_total))%Qc then
    (false, "Order total mismatch: calculated $" +:+ str_decimal (calculated_total items)
            +:+ ", claimed $" +:+ str_decimal claimed_total)
  else (true, "").
End total.

Definition valid_transitions : gmap string (list string) :=
  list_to_map [
    ("pending", ["processing"; "cancelled"]);
    ("processing", ["shipped"; "cancelled"]);
    ("shipped", ["delivered"; "cancelled"]);
    ("delivered", []);
    ("cancelled", ["pending"])
  ].

Definition validate_order_status_transition (old_status new_status : string)
  : bool * string :=
  match valid_transitions !! old_status with
  | None => (false, "Unknown status: " +:+ old_status)
  | Some targets =>
      match valid_transitions !! new_status with
      | None => (false, "Unknown status: " +:+ new_status)
      | Some _ =>
          if bool_decide (old_status = new_status) then (true, "")
          else if bool_decide (new_status ∉ targets) then
            (false, "Invalid status transition: " +:+ old_status +:+ " -> " +:+ new_status)
          else (true, "")
      end
  end.

End validators.

(** ** The world: remote services, local tables, faults *)

(** What happens to one HTTP request. [Unreachable] is a request that
    does not get through: the service does not act on it.  [ServerError]
    stands for any 4xx/5xx reply: the clients only test
    [status_code == 200] and call [raise_for_status]. *)
Inductive Fault :=
  | Healthy
  | Unreachable (msg : string)
  | ServerError (text : string).

(** An entry of the ghost log of inventory operations. *)
Inductive Call :=
  | Reduce (sku : string) (quantity : Z)
  | Restore (sku : string) (quantity : Z).

Record World := {
  inventory : list InventoryItem;
  users : list Z;
  faults : list Fault;
  calls : list Call;
  orders : list Order;
  order_events : list OrderEvent;
}.

Definition set_inventory (inv : list InventoryItem) (w : World) : World :=
  {| inventory := inv; users := users w; faults := faults w; calls := calls w;
     orders := orders w; order_events := order_events w |}.

Definition set_faults (fs : list Fault) (w : World) : World :=
  {| inventory := inventory w; users := users w; faults := fs; calls := calls w;
     orders := orders w; order_events := order_events w |}.

Definition set_calls (cs : list Call) (w : World) : World :=
  {| inventory := inventory w; users := users w; faults := faults w; calls := cs;
     orders := orders w; order_events := order_events w |}.

Definition set_orders (os : list Order) (w : World) : World :=
  {| inventory := inventory w; users := users w; faults := faults w; calls := calls w;
     orders := os; order_events := order_events w |}.

Definition set_order_events (es : list OrderEvent) (w : World) : World :=
  {| inventory := inventory w; users := users w; faults := faults w; calls := calls w;
     orders := orders w; order_events := es |}.

(** ** Exceptions and the monad *)

Inductive exn :=
  | HTTPError (msg : string)                            (* httpx.HTTPError *)
  | HTTPException (status_code : Z) (detail : string)   (* fastapi.HTTPException *)
  | KeyError (key : string)                             (* a dict without the key *)
  | DBAPIError (msg : string).                          (* sqlalchemy.exc.DBAPIError *)

(** [str(e)].  Of the text of a [DBAPIError] only the complaint of the
    store is kept, not the statement and its parameters. *)
Definition exn_str (e : exn) : string :=
  match e with
  | HTTPError msg => msg
  | HTTPException code detail => pretty code +:+ ": " +:+ detail
  | KeyError key => "'" +:+ key +:+ "'"
  | DBAPIError msg => msg
  end.

Inductive result (A : Type) :=
  | Ret (a : A)
  | Raise (e : exn).
Arguments Ret {A} a.
Arguments Raise {A} e.

Definition M (A : Type) : Type := World → result A * World.

#[global] Instance M_ret : MRet M := λ A a w, (Ret a, w).
#[global] Instance M_bind : MBind M := λ A B f m w,
  match m w with
  | (Ret a, w') => f a w'
  | (Raise e, w') => (Raise e, w')
  end.

Definition raise {A} (e : exn) : M A := λ w, (Raise e, w).

(** [try: body / except Exception as e: handler e] *)
Definition try_except {A} (body : M A) (handler : exn → M A) : M A := λ w,
  match body w with
  | (Ret a, w') => (Ret a, w')
  | (Raise e, w') => handler e w'
  end.

(** [try: body / except httpx.HTTPError as e: handler e]; anything else
    propagates. *)
Definition try_except_HTTPError {A} (body : M A) (handler : exn → M A) : M A :=
  try_except body (λ e, match e with
                        | HTTPError _ => handler e
                        | _ => raise e
                        end).

Definition get_world : M World := λ w, (Ret w, w).
Definition modify_world (f : World → World) : M unit := λ w, (Ret tt, f w).

(** A computation that does not touch the world. *)
Definition lift {A} (r : result A) : M A := λ w, (r, w).

(** ** The columns of the store (models.py) *)

Module store.

(** [Column(Integer)]: a 32-bit integer. *)
Definition integer_column (n : Z) : bool :=
  bool_decide (-2147483648 ≤ n ≤ 2147483647).

(** The hundredths of [t], rounded half away from zero as PostgreSQL
    rounds a numeric. *)
Definition hundredths (t : Qc) : Z :=
  Z.sgn (Qnum t) * Qfloor (Qabs t * inject_Z 100 + (1 # 2)).

(** [Column(Numeric(10, 2))]: the value as it is stored, or [None] when
    the rounded value needs more than ten digits. *)
Definition numeric_10_2 (t : Qc) : option Qc :=
  if bool_decide (Z.abs (hundredths t) < 10000000000)
  then Some (Q2Qc (hundredths t # 100))
  else None.

Definition integer_out_of_range : exn := DBAPIError "integer out of range".
Definition numeric_field_overflow : exn := DBAPIError "numeric field overflow".
Definition not_null_violation : exn :=
  DBAPIError "null value violates not-null constraint".

(** The flush of a new row of [orders]: [user_id] is an Integer and
    [total] a Numeric(10, 2); the row that [db.refresh] reads back has the
    total as stored. *)
Definition insert_order (row : Order) : result Order :=
  if negb (integer_column (user_id row)) then Raise integer_out_of_range
  else match numeric_10_2 (total row) with
       | None => Raise numeric_field_overflow
       | Some t => Ret {| id := id row; user_id := user_id row; total := t;
                          status := status row; items := items row |}
       end.

(** The value that an UPDATE leaves in a NOT NULL Integer column. *)
Definition set_integer (old : Z) (new : field Z) : result Z :=
  match new with
  | Unset => Ret old
  | Null => Raise not_null_violation
  | Value n => if integer_column n then Ret n else Raise integer_out_of_range
  end.

(** The same for a NOT NULL Numeric(10, 2) column. *)
Definition set_numeric (old : Qc) (new : field Qc) : result Qc :=
  match new with
  | Unset => Ret old
  | Null => Raise not_null_violation
  | Value t => match numeric_10_2 t with
               | Some t => Ret t
               | None => Raise numeric_field_overflow
               end
  end.

(** The same for a NOT NULL String column. *)
Definition set_string (old : string) (new : field string) : result string :=
  match new with
  | Unset => Ret old
  | Null => Raise not_null_violation
  | Value s => Ret s
  end.

End store.

(** ** The remote services, as the clients see them *)

Record Response := {
  status_code : Z;
  text : string;
}.

Module remote.

(** The fate of the next HTTP request. *)
Definition next_fault : M Fault := λ w,
  match faults w with
  | [] => (Ret Healthy, w)
  | f :: fs => (Ret f, set_faults fs w)
  end.

(** Inventory service, [GET /] with the default [skip=0, limit=100],
    followed by the client's [raise_for_status()] and [json()]. *)
Definition inventory_list : M (list InventoryItem) :=
  f ← next_fault;
  match f with
  | Healthy => w ← get_world; mret (take 100 (inventory w))
  | Unreachable msg => raise (HTTPError msg)
  | ServerError text => raise (HTTPError text)
  end.

(** inventory/app/crud.py, update_inventory_item with only [qty] set:
    the row with that primary key gets the new quantity. *)
Fixpoint update_inventory_item (item_id new_qty : Z) (rows : list InventoryItem)
  : option (list InventoryItem) :=
  match rows with
  | [] => None
  | row :: rest =>
      if bool_decide (inv_id row = item_id) then
        Some ({| inv_id := inv_id row; inv_sku := inv_sku row; inv_qty := new_qty |} :: rest)
      else (row ::.) <$> update_inventory_item item_id new_qty rest
  end.

(** Inventory service, [PUT /{item_id}] with body [{qty: new_qty}]. *)
Definition inventory_put (item_id new_qty : Z) : M Response :=
  f ← next_fault;
  match f with
  | Healthy =>
      w ← get_world;
      match update_inventory_item item_id new_qty (inventory w) with
      | Some rows =>
          modify_world (set_inventory rows);;
          mret {| status_code := 200; text := "" |}
      | None =>
          mret {| status_code := 404;
                  text := "{" +:+ dquote +:+ "detail" +:+ dquote +:+ ":" +:+ dquote
                          +:+ "Inventory item not found" +:+ dquote +:+ "}" |}
      end
  | Unreachable msg => raise (HTTPError msg)
  | ServerError text => mret {| status_code := 500; text := text |}
  end.

(** Users service, [GET /{user_id}]. *)
Definition users_get (user_id : Z) : M Response :=
  f ← next_fault;
  match f with
  | Healthy =>
      w ← get_world;
      if bool_decide (user_id ∈ users w)
      then mret {| status_code := 200; text := "" |}
      else mret {| status_code := 404; text := "" |}
  | Unreachable msg => raise (HTTPError msg)
  | ServerError text => mret {| status_code := 500; text := text |}
  end.

End remote.

(** ** clients/users_client.py *)

Module users_client.

Definition validate_user_exists (user_id : Z) (token : option string) : M bool :=
  try_except_HTTPError
    (response ← remote.users_get user_id;
     mret (bool_decide (status_code response = 200)))
    (λ e, raise e).

End users_client.

(** ** clients/inventory_client.py *)

Module inventory_client.

Definition record_call (c : Call) : M unit :=
  modify_world (λ w, set_calls (calls w ++ [c]) w).

Definition get_all_items (token : option string) : M (list InventoryItem) :=
  try_except_HTTPError remote.inventory_list (λ e, raise e).

Definition get_item_by_sku (sku : string) (token : option string)
  : M (option InventoryItem) :=
  try_except_HTTPError
    (items ← get_all_items token;
     mret (List.find (λ item, bool_decide (inv_sku item = sku)) items))
    (λ e, raise e).

Definition validate_items_exist (skus : list string) (token : option string)
  : M (bool * option string) :=
  try_except_HTTPError
    (items ← get_all_items token;
     let existing_skus : gset string := list_to_set (inv_sku <$> items) in
     match List.find (λ sku, bool_decide (sku ∉ existing_skus)) skus with
     | Some sku => mret (false, Some sku)
     | None => mret (true, None)
     end)
    (λ e, raise e).

Definition check_stock_availability (sku : string) (required_qty : Z)
  (token : option string) : M (bool * Z) :=
  try_except_HTTPError
    (item ← get_item_by_sku sku token;
     match item with
     | None => mret (false, 0)
     | Some item =>
         let current_qty := inv_qty item in
         mret (bool_decide (required_qty ≤ current_qty), current_qty)
     end)
    (λ e, raise e).

Definition reduce_inventory (sku : string) (quantity : Z) (token : option string)
  : M (bool * option string) :=
  record_call (Reduce sku quantity);;
  try_except_HTTPError
    (item ← get_item_by_sku sku token;
     match item with
     | None => mret (false, Some ("SKU '" +:+ sku +:+ "' not found"))
     | Some item =>
         let item_id := inv_id item in
         let current_qty := inv_qty item in
         let new_qty := current_qty - quantity in
         if bool_decide (new_qty < 0) then
           mret (false, Some ("Insufficient inventory for SKU '" +:+ sku
                              +:+ "'. Available: " +:+ pretty current_qty
                              +:+ ", Requested: " +:+ pretty quantity))
         else
           response ← remote.inventory_put item_id new_qty;
           if bool_decide (status_code response = 200) then mret (true, None)
           else mret (false, Some ("Failed to update inventory: " +:+ text response))
     end)
    (λ e, mret (false, Some ("Inventory service error: " +:+ exn_str e))).

Definition restore_inventory (sku : string) (quantity : Z) (token : option string)
  : M (bool * option string) :=
  record_call (Restore sku quantity);;
  try_except_HTTPError
    (item ← get_item_by_sku sku token;
     match item with
     | None => mret (false, Some ("SKU '" +:+ sku +:+ "' not found"))
     | Some item =>
         let item_id := inv_id item in
         let current_qty := inv_qty item in
         let new_qty := current_qty + quantity in
         response ← remote.inventory_put item_id new_qty;
         if bool_decide (status_code response = 200) then mret (true, None)
         else mret (false, Some ("Failed to restore inventory: " +:+ text response))
     end)
    (λ e, mret (false, Some ("Inventory service error: " +:+ exn_str e))).

End inventory_client.

(** ** crud.py *)

(** Truth value of a list: [if xs:]. *)
Definition nonempty {A} (xs : list A) : bool :=
  match xs with
  | [] => false
  | _ => true
  end.

(** The list in a nullable JSONB column, for code that tests its truth
    value before it walks it: null is as false as the empty list. *)
Definition json_list {A} (v : option (list A)) : list A :=
  match v with
  | Some xs => xs
  | None => []
  end.

(** [item.sku if hasattr(item, 'sku') else item['sku']], and the same
    for the quantity: the items are schema objects on the create path and
    dicts of the JSONB column on the update path. *)
Class ItemLike (A : Type) := {
  item_sku : A → result string;
  item_quantity : A → result Z;
}.

#[global] Instance OrderItem_like : ItemLike OrderItem := {|
  item_sku item := Ret (sku item);
  item_quantity item := Ret (quantity item);
|}.

#[global] Instance StoredItem_like : ItemLike StoredItem := {|
  item_sku item :=
    match st_sku item with
    | Some s => Ret s
    | None => Raise (KeyError "sku")
    end;
  item_quantity item :=
    match st_quantity item with
    | Some q => Ret q
    | None => Raise (KeyError "quantity")
    end;
|}.

Module crud.

(** The tuple [(success, error_message, processed_skus)]. *)
Definition ProcessResult : Type := bool * option string * list string.

Definition get_order (order_id : string) : M (option Order) :=
  w ← get_world;
  mret (List.find (λ o, bool_decide (id o = order_id)) (orders w)).

Fixpoint rollback_inventory_deductions {A} `{ItemLike A} (items : list A)
  (processed_skus : list string) (token : option string) : M unit :=
  match items with
  | [] => mret tt
  | item :: rest =>
      sku ← lift (item_sku item);
      (if bool_decide (sku ∈ processed_skus) then
         quantity ← lift (item_quantity item);
         '(success, error_msg) ← inventory_client.restore_inventory sku quantity token;
         mret tt
       else mret tt);;
      rollback_inventory_deductions rest processed_skus token
  end.

Definition action (deduct : bool) : string :=
  if deduct then "deduction" else "restoration".

(** The [for] loop of [process_inventory_for_order] over [remaining],
    with [items] the whole list (the rollback walks all of it).  Next to
    the outcome it hands back the local [processed_skus] as it stands
    when the loop is left, because the [except] clause reads it. *)
Fixpoint process_loop {A} `{ItemLike A} (items remaining : list A) (deduct : bool)
  (token : option string) (processed_skus : list string) (w : World)
  : list string * result ProcessResult * World :=
  match remaining with
  | [] => (processed_skus, Ret (true, None, processed_skus), w)
  | item :: rest =>
      match item_sku item, item_quantity item with
      | Raise e, _ => (processed_skus, Raise e, w)
      | Ret _, Raise e => (processed_skus, Raise e, w)
      | Ret sku, Ret quantity =>
      if deduct then
        match inventory_client.reduce_inventory sku quantity token w with
        | (Ret (success, error_msg), w1) =>
            if success then
              process_loop items rest deduct token (processed_skus ++ [sku]) w1
            else
              match (if nonempty processed_skus
                     then rollback_inventory_deductions items processed_skus token
                     else mret tt) w1 with
              | (Ret _, w2) =>
                  (processed_skus,
                   Ret (false,
                        Some ("Inventory " +:+ action deduct +:+ " failed: "
                              +:+ str_optional error_msg),
                        []),
                   w2)
              | (Raise e, w2) => (processed_skus, Raise e, w2)
              end
        | (Raise e, w1) => (processed_skus, Raise e, w1)
        end
      else
        match inventory_client.restore_inventory sku quantity token w with
        | (Ret (success, error_msg), w1) =>
            if success then
              process_loop items rest deduct token (processed_skus ++ [sku]) w1
            else
              (* Continue with other restorations even if one fails *)
              process_loop items rest deduct token processed_skus w1
        | (Raise e, w1) => (processed_skus, Raise e, w1)
        end
      end
  end.

Definition process_inventory_for_order {A} `{ItemLike A} (items : list A) (deduct : bool)
  (token : option string) : M ProcessResult := λ w,
  match process_loop items items deduct token [] w with
  | (_, Ret r, w') => (Ret r, w')
  | (processed_skus, Raise e, w') =>
      (* except Exception as e *)
      ((if deduct && nonempty processed_skus
        then rollback_inventory_deductions items processed_skus token
        else mret tt);;
       mret (false,
             Some ("Inventory " +:+ action deduct +:+ " error: " +:+ exn_str e),
             [])) w'
  end.

(** The stock loop of [validate_order_data]. *)
Fixpoint check_stock_loop (items : list OrderItem) (token : option string)
  : M (bool * option string) :=
  match items with
  | [] => mret (true, None)
  | item :: rest =>
      '(available, current_stock) ←
        inventory_client.check_stock_availability (sku item) (quantity item) token;
      if negb available then
        mret (false, Some ("Insufficient stock for SKU '" +:+ sku item
                           +:+ "'. Available: " +:+ pretty current_stock
                           +:+ ", Required: " +:+ pretty (quantity item)))
      else check_stock_loop rest token
  end.

Definition validate_order_data (order : OrderCreate) (token : option string)
  : M (bool * option string) :=
  try_except_HTTPError
    (user_exists ← users_client.validate_user_exists (oc_user_id order) token;
     if negb user_exists then
       mret (false, Some ("User with ID " +:+ pretty (oc_user_id order)
                          +:+ " does not exist"))
     else if nonempty (oc_items order) then
       let skus := sku <$> oc_items order in
       '(all_exist, missing_sku) ← inventory_client.validate_items_exist skus token;
       if negb all_exist then
         mret (false, Some ("Inventory item with SKU '" +:+ str_optional missing_sku
                            +:+ "' does not exist"))
       else check_stock_loop (oc_items order) token
     else mret (true, None))
    (λ e, mret (false, Some ("Service communication error: " +:+ exn_str e))).

Definition create_order (order : OrderCreate) : M Order :=
  let items_data := stored_item <$> oc_items order in
  let db_order := {| id := oc_id order; user_id := oc_user_id order;
                     total := oc_total order; status := oc_status order;
                     items := Some items_data |} in
  (* db.add(db_order); db.commit(); db.refresh(db_order) *)
  db_order ← lift (store.insert_order db_order);
  modify_world (λ w, set_orders (orders w ++ [db_order]) w);;
  mret db_order.

(** [setattr] of every field the request has set, and the flush of the
    row at [db.commit()]: the row as [db.refresh] reads it back, or what
    the store raises. *)
Definition apply_update (db_order : Order) (order : OrderUpdate) : result Order :=
  (* Handle items serialization if items are being updated *)
  let items_data :=
    match ou_items order with
    | Unset => items db_order
    | Null => None
    | Value items => Some (stored_item <$> items)
    end in
  match store.set_integer (user_id db_order) (ou_user_id order),
        store.set_numeric (total db_order) (ou_total order),
        store.set_string (status db_order) (ou_status order) with
  | Ret user_id, Ret total, Ret status =>
      Ret {| id := id db_order; user_id := user_id; total := total; status := status;
             items := items_data |}
  | Raise e, _, _ => Raise e
  | _, Raise e, _ => Raise e
  | _, _, Raise e => Raise e
  end.

(** The row that [get_order] finds is the one that is written. *)
Fixpoint replace_row (order_id : string) (new_row : Order) (rows : list Order)
  : list Order :=
  match rows with
  | [] => []
  | row :: rest =>
      if bool_decide (id row = order_id) then new_row :: rest
      else row :: replace_row order_id new_row rest
  end.

Definition update_order (order_id : string) (order : OrderUpdate) : M (option Order) :=
  db_order ← get_order order_id;
  match db_order with
  | None => mret None
  | Some db_order =>
      db_order ← lift (apply_update db_order order);
      modify_world (λ w, set_orders (replace_row order_id db_order (orders w)) w);;
      mret (Some db_order)
  end.

(** [db.query(Order).offset(skip).limit(limit).all()].  The store
    refuses a negative offset or limit; [nat] leaves them out. *)
Definition get_orders (skip limit : nat) : M (list Order) :=
  w ← get_world;
  mret (take limit (drop skip (orders w))).

(** [db.delete(db_order)]: the row that [get_order] found goes. *)
Fixpoint remove_row (order_id : string) (rows : list Order) : list Order :=
  match rows with
  | [] => []
  | row :: rest =>
      if bool_decide (id row = order_id) then rest
      else row :: remove_row order_id rest
  end.

(** The events that stay when those of [order_id] are deleted. *)
Definition events_without (order_id : string) (events : list OrderEvent)
  : list OrderEvent :=
  List.filter (λ e, negb (bool_decide (ev_order_id e = order_id))) events.

Definition delete_order (order_id : string) : M bool := λ w0,
  try_except
    (db_order ← get_order order_id;
     match db_order with
     | None => mret false
     | Some db_order =>
         (* Delete dependent timeline events first *)
         modify_world (λ w, set_order_events (events_without order_id (order_events w)) w);;
         modify_world (λ w, set_orders (remove_row order_id (orders w)) w);;
         mret true
     end)
    (λ e,
       (* db.rollback() *)
       modify_world (λ w, set_order_events (order_events w0) (set_orders (orders w0) w));;
       mret false)
    w0.

End crud.

(** ** main.py *)

Module main.

(** The flush checks [user_id], a nullable Integer; the other columns
    are strings. *)
Definition log_order_event (order_id event_type description : string)
  (old_value new_value : option string) (user_id : option Z) : M unit :=
  let event := {| ev_order_id := order_id; ev_event_type := event_type;
                  ev_description := description; ev_old_value := old_value;
                  ev_new_value := new_value; ev_user_id := user_id |} in
  if negb (from_option store.integer_column true user_id)
  then raise store.integer_out_of_range
  else modify_world (λ w, set_order_events (order_events w ++ [event]) w).

Definition create_order (order : OrderCreate) (current_user : CurrentUser) : M Order :=
  (* Check if order ID already exists *)
  db_order ← crud.get_order (oc_id order);
  if bool_decide (is_Some db_order) then
    raise (HTTPException 400 "Order ID already exists")
  (* Check authorization *)
  else if bool_decide (cu_role current_user ≠ "admin")
          && bool_decide (oc_user_id order ≠ cu_id current_user) then
    raise (HTTPException 403 "Can only create orders for yourself")
  else
    (* Validate order data with other services *)
    '(is_valid, error_message) ←
      crud.validate_order_data order (Some (cu_token current_user));
    if negb is_valid then
      if str_contains "Service communication error" (default "" error_message) then
        raise (HTTPException 503 (default "" error_message))
      else raise (HTTPException 400 (default "" error_message))
    else
      (* Process inventory deductions *)
      (if nonempty (oc_items order) && bool_decide (oc_status order ≠ "cancelled") then
         '(success, error_msg, _) ←
           crud.process_inventory_for_order (oc_items order) true
             (Some (cu_token current_user));
         if negb success then raise (HTTPException 400 (default "" error_msg))
         else mret tt
       else mret tt);;
      (* Create the order in database *)
      try_except
        (db_order ← crud.create_order order;
         log_order_event (oc_id order) "created"
           ("Order created with status '" +:+ oc_status order +:+ "'")
           None (Some (oc_status order)) (Some (cu_id current_user));;
         mret db_order)
        (λ e, raise (HTTPException 500 ("Failed to create order: " +:+ exn_str e))).

(** [order.status and order.status != existing_order.status]: the pair
    [(old_status, new_status)] when the status is changing. *)
Definition status_change (order : OrderUpdate) (existing_order : Order)
  : option (string * string) :=
  match ou_status order with
  | Value new_status =>
      if bool_decide (new_status ≠ "") && bool_decide (new_status ≠ status existing_order)
      then Some (status existing_order, new_status)
      else None
  | _ => None
  end.

Definition update_order (order_id : string) (order : OrderUpdate)
  (current_user : CurrentUser) : M Order :=
  (* Get existing order *)
  existing_order ← crud.get_order order_id;
  match existing_order with
  | None => raise (HTTPException 404 "Order not found")
  | Some existing_order =>
      (* Check ownership unless admin *)
      if bool_decide (cu_role current_user ≠ "admin")
         && bool_decide (user_id existing_order ≠ cu_id current_user) then
        raise (HTTPException 403 "Not authorized to update this order")
      else
        let status_changed := status_change order existing_order in
        (match status_changed with
         | Some (old_status, new_status) =>
             (* If cancelling an order, restore inventory *)
             if bool_decide (new_status = "cancelled")
                && bool_decide (old_status ≠ "cancelled") then
               if nonempty (json_list (items existing_order)) then
                 '(success, error_msg, _) ←
                   crud.process_inventory_for_order (json_list (items existing_order)) false
                     (Some (cu_token current_user));
                 if negb success then
                   raise (HTTPException 400 ("Failed to restore inventory: "
                                             +:+ str_optional error_msg))
                 else mret tt
               else mret tt
             (* If reactivating a cancelled order, deduct inventory *)
             else if bool_decide (old_status = "cancelled")
                     && bool_decide (new_status ≠ "cancelled") then
               if nonempty (json_list (items existing_order)) then
                 '(success, error_msg, _) ←
                   crud.process_inventory_for_order (json_list (items existing_order)) true
                     (Some (cu_token current_user));
                 if negb success then
                   raise (HTTPException 400 ("Failed to deduct inventory: "
                                             +:+ str_optional error_msg))
                 else mret tt
               else mret tt
             else mret tt
         | None => mret tt
         end);;
        (* Update the order *)
        db_order ← crud.update_order order_id order;
        match db_order with
        | None => raise (HTTPException 404 "Order not found")
        | Some db_order =>
            (* Log update events *)
            (match status_changed with
             | Some (old_status, new_status) =>
                 log_order_event order_id "status_changed"
                   ("Status changed from '" +:+ old_status +:+ "' to '"
                    +:+ new_status +:+ "'")
                   (Some old_status) (Some new_status) (Some (cu_id current_user))
             | None =>
                 log_order_event order_id "updated" "Order details updated"
                   None None (Some (cu_id current_user))
             end);;
            mret db_order
        end
  end.

(** GET /{order_id} *)
Definition get_order (order_id : string) (current_user : CurrentUser) : M Order :=
  db_order ← crud.get_order order_id;
  match db_order with
  | None => raise (HTTPException 404 "Order not found")
  | Some db_order =>
      if bool_decide (cu_role current_user ≠ "admin")
         && bool_decide (user_id db_order ≠ cu_id current_user) then
        raise (HTTPException 403 "Not authorized to access this order")
      else mret db_order
  end.

(** GET / *)
Definition list_orders (skip limit : nat) (current_user : CurrentUser)
  : M (list Order) :=
  orders ← crud.get_orders skip limit;
  (* Filter by user_id unless admin *)
  if bool_decide (cu_role current_user ≠ "admin") then
    mret (List.filter (λ order, bool_decide (user_id order = cu_id current_user)) orders)
  else mret orders.

(** DELETE /{order_id} *)
Definition delete_order (order_id : string) (current_user : CurrentUser) : M unit :=
  existing_order ← crud.get_order order_id;
  match existing_order with
  | None => raise (HTTPException 404 "Order not found")
  | Some existing_order =>
      if bool_decide (cu_role current_user ≠ "admin")
         && bool_decide (user_id existing_order ≠ cu_id current_user) then
        raise (HTTPException 403 "Not authorized to delete this order")
      else
        success ← crud.delete_order order_id;
        if negb success then raise (HTTPException 404 "Order not found")
        else mret tt
  end.

(** GET /{order_id}/timeline.  The rows of [order_events] are kept in
    the order of their timestamps, so [order_by(created_at.asc())] is the
    order of the list. *)
Definition get_order_timeline (order_id : string) (current_user : CurrentUser)
  : M (list OrderEvent) :=
  db_order ← crud.get_order order_id;
  match db_order with
  | None => raise (HTTPException 404 "Order not found")
  | Some db_order =>
      if bool_decide (cu_role current_user ≠ "admin")
         && bool_decide (user_id db_order ≠ cu_id current_user) then
        raise (HTTPException 403 "Not authorized to view this order's timeline")
      else
        w ← get_world;
        mret (List.filter (λ e, bool_decide (ev_order_id e = order_id)) (order_events w))
  end.

End main.

(** ** Vocabulary of the statements *)

(** The five statuses of the life cycle and the edges between two
    different statuses that the transition table allows. *)
Definition statuses : list string :=
  ["pending"; "processing"; "shipped"; "delivered"; "cancelled"].

Definition legal_edges : list (string * string) :=
  [("pending", "processing"); ("pending", "cancelled");
   ("processing", "shipped"); ("processing", "cancelled");
   ("shipped", "delivered"); ("shipped", "cancelled");
   ("cancelled", "pending")].

(** All 25 ordered pairs of statuses. *)
Definition status_pairs : list (string * string) :=
  old ← statuses; new ← statuses; [(old, new)].

Definition accepts (p : string * string) : bool :=
  fst (validators.validate_order_status_transition p.1 p.2).

(** The bounds of one line item. *)
Definition quantity_ok (item : OrderItem) : Prop := 1 ≤ quantity item ≤ 10000.
Definition price_ok (item : OrderItem) : Prop :=
  (Q2Qc 0 ≤ price item)%Qc ∧ (price item ≤ Q2Qc 1000000)%Qc.

(** The log entries of reserving and of releasing one line item. *)
Definition reduce_call (item : OrderItem) : Call := Reduce (sku item) (quantity item).
Definition restore_call (item : OrderItem) : Call := Restore (sku item) (quantity item).

Definition is_release (c : Call) : bool :=
  match c with
  | Restore _ _ => true
  | Reduce _ _ => false
  end.

(** The releases among the logged calls. *)
Definition releases (cs : list Call) : list Call := List.filter is_release cs.

(** The line items whose SKU is among [skus]: what the rollback walks. *)
Definition lines_with_sku (skus : list string) (items : list OrderItem) : list OrderItem :=
  List.filter (λ item, bool_decide (sku item ∈ skus)) items.

(** A step that leaves the tables of the Orders service and the Users
    service alone. *)
Definition local_frame (w w' : World) : Prop :=
  orders w' = orders w ∧ order_events w' = order_events w ∧ users w' = users w.

(** Quantity on hand of a SKU at the Inventory service. *)
Definition stock (s : string) (w : World) : option Z :=
  inv_qty <$> List.find (λ row, bool_decide (inv_sku row = s)) (inventory w).

(** The row of an order id, as [crud.get_order] finds it. *)
Definition lookup_order (order_id : string) (w : World) : option Order :=
  List.find (λ o, bool_decide (id o = order_id)) (orders w).

(** Owner or admin. *)
Definition authorized (current_user : CurrentUser) (owner : Z) : Prop :=
  cu_role current_user = "admin" ∨ owner = cu_id current_user.

(** The same create request with another claimed total. *)
Definition with_total (t : Qc) (order : OrderCreate) : OrderCreate :=
  {| oc_id := oc_id order; oc_user_id := oc_user_id order; oc_total := t;
     oc_status := oc_status order; oc_items := oc_items order |}.

(** The timeline event of a status change. *)
Definition status_changed_event (order_id old_status new_status : string) (by_user : Z)
  : OrderEvent :=
  {| ev_order_id := order_id; ev_event_type := "status_changed";
     ev_description := "Status changed from '" +:+ old_status +:+ "' to '"
                       +:+ new_status +:+ "'";
     ev_old_value := Some old_status; ev_new_value := Some new_status;
     ev_user_id := Some by_user |}.

(** The 32 bits of an Integer column. *)
Definition int32 (n : Z) : Prop := -2147483648 ≤ n ≤ 2147483647.

(** A total as a Numeric(10, 2) column keeps it: rounded to two
    decimals, a tie away from zero. *)
Definition rounded (t : Qc) : Qc := Q2Qc (store.hundredths t # 100).

(** A total that the column takes: rounded, it has at most eight digits
    before the point. *)
Definition fits_total (t : Qc) : Prop := Z.abs (store.hundredths t) < 10000000000.

(** The row and the timeline event that a create request leaves behind. *)
Definition created_row (order : OrderCreate) : Order :=
  {| id := oc_id order; user_id := oc_user_id order; total := rounded (oc_total order);
     status := oc_status order; items := Some (stored_item <$> oc_items order) |}.

Definition created_event (order : OrderCreate) (by_user : Z) : OrderEvent :=
  {| ev_order_id := oc_id order; ev_event_type := "created";
     ev_description := "Order created with status '" +:+ oc_status order +:+ "'";
     ev_old_value := None; ev_new_value := Some (oc_status order);
     ev_user_id := Some by_user |}.

(** The world once the row and its event are written. *)
Definition persisted (order : OrderCreate) (by_user : Z) (w : World) : World :=
  set_order_events (order_events w ++ [created_event order by_user])
    (set_orders (orders w ++ [created_row order]) w).

(** Whether the create path reserves inventory for a request. *)
Definition reservation_needed (order : OrderCreate) : bool :=
  nonempty (oc_items order) && bool_decide (oc_status order ≠ "cancelled").

(** A step that only reads: it may use up faults, nothing else. *)
Definition read_only (w w' : World) : Prop :=
  inventory w' = inventory w ∧ calls w' = calls w ∧ local_frame w w'.

(** An outcome that is a value or an httpx.HTTPError. *)
Definition transport_only {A} (r : result A) : Prop :=
  match r with
  | Ret _ => True
  | Raise (HTTPError _) => True
  | Raise _ => False
  end.

(** The Inventory service as its schema keeps it (primary key [id],
    unique [sku]) and small enough for one page of its list endpoint. *)
Definition inventory_ok (w : World) : Prop :=
  NoDup (inv_id <$> inventory w) ∧ NoDup (inv_sku <$> inventory w)
  ∧ (length (inventory w) ≤ 100)%nat.

(** The rows with [delta] added to the quantity of SKU [s]. *)
Definition adjust_stock (s : string) (delta : Z) (rows : list InventoryItem)
  : list InventoryItem :=
  (λ row, if bool_decide (inv_sku row = s)
          then {| inv_id := inv_id row; inv_sku := inv_sku row;
                  inv_qty := inv_qty row + delta |}
          else row) <$> rows.

(** The rows after every line of [lines] is reserved. *)
Definition reserved (lines : list OrderItem) (rows : list InventoryItem)
  : list InventoryItem :=
  foldl (λ rows line, adjust_stock (sku line) (- quantity line) rows) rows lines.

(** The rows after every line of [lines] is released. *)
Definition released (lines : list OrderItem) (rows : list InventoryItem)
  : list InventoryItem :=
  foldl (λ rows line, adjust_stock (sku line) (quantity line) rows) rows lines.

(** The total quantity that [lines] order of SKU [s]. *)
Definition ordered_quantity (s : string) (lines : list OrderItem) : Z :=
  foldr (λ line acc, if bool_decide (sku line = s) then quantity line + acc else acc)
        0 lines.

(** The tables of the Orders service as the store keeps them: the order
    id is a primary key, and every event belongs to an order on file. *)
Definition db_consistent (w : World) : Prop :=
  NoDup (id <$> orders w)
  ∧ ∀ e, e ∈ order_events w → ev_order_id e ∈ id <$> orders w.

(** The events of one order, oldest first. *)
Definition timeline (order_id : string) (w : World) : list OrderEvent :=
  List.filter (λ e, bool_decide (ev_order_id e = order_id)) (order_events w).

(** The timeline event of an update that changes no status. *)
Definition updated_event (order_id : string) (by_user : Z) : OrderEvent :=
  {| ev_order_id := order_id; ev_event_type := "updated";
     ev_description := "Order details updated";
     ev_old_value := None; ev_new_value := None; ev_user_id := Some by_user |}.

(** Whether a status change cancels an order or reactivates one. *)
Definition touches_cancelled (old_status new_status : string) : bool :=
  (bool_decide (new_status = "cancelled") && bool_decide (old_status ≠ "cancelled"))
  || (bool_decide (old_status = "cancelled") && bool_decide (new_status ≠ "cancelled")).

(** A patch that the store takes: no NOT NULL column is set to null, a
    user id is a 32-bit integer, and a total fits its column. *)
Definition store_takes (patch : OrderUpdate) : Prop :=
  match ou_user_id patch with
  | Unset => True
  | Null => False
  | Value n => int32 n
  end
  ∧ match ou_total patch with
    | Unset => True
    | Null => False
    | Value t => fits_total t
    end
  ∧ ou_status patch ≠ Null.

(** A string without the NUL character, which the driver refuses in a
    text or JSONB value. *)
Definition text_ok (s : string) : Prop :=
  Ascii.zero ∉ String.list_ascii_of_string s.

(** A patch that the store takes and that leaves a row which the
    response model can send back: the items are not set to null either,
    and neither the status nor a SKU has a NUL character. *)
Definition storable (patch : OrderUpdate) : Prop :=
  store_takes patch
  ∧ (ou_items patch ≠ Null
     ∧ (∀ s, ou_status patch = Value s → text_ok s)
     ∧ (∀ lines item, ou_items patch = Value lines → item ∈ lines → text_ok (sku item))).

(** A row that the response model can send back: its items are a list
    of dicts with the three keys, as the create and update paths store
    them. *)
Definition presentable (row : Order) : Prop :=
  ∃ lines, items row = Some (stored_item <$> lines).

(** The inventory step of [main.update_order], between the ownership
    check and the write of the row. *)
Definition update_inventory_step (order : OrderUpdate) (existing_order : Order)
  (current_user : CurrentUser) : M unit :=
  match main.status_change order existing_order with
  | Some (old_status, new_status) =>
      if bool_decide (new_status = "cancelled")
         && bool_decide (old_status ≠ "cancelled") then
        if nonempty (json_list (items existing_order)) then
          '(success, error_msg, _) ←
            crud.process_inventory_for_order (json_list (items existing_order)) false
              (Some (cu_token current_user));
          if negb success then
            raise (HTTPException 400 ("Failed to restore inventory: "
                                      +:+ str_optional error_msg))
          else mret tt
        else mret tt
      else if bool_decide (old_status = "cancelled")
              && bool_decide (new_status ≠ "cancelled") then
        if nonempty (json_list (items existing_order)) then
          '(success, error_msg, _) ←
            crud.process_inventory_for_order (json_list (items existing_order)) true
              (Some (cu_token current_user));
          if negb success then
            raise (HTTPException 400 ("Failed to deduct inventory: "
                                      +:+ str_optional error_msg))
          else mret tt
        else mret tt
      else mret tt
  | None => mret tt
  end.

(** The row that a patch makes of [existing], field by field: a field
    that is set replaces the old value, the total as the column rounds
    it, the items as the dicts of their three keys (null for null). *)
Definition patched_row (existing : Order) (patch : OrderUpdate) : Order :=
  {| id := id existing;
     user_id := match ou_user_id patch with
                | Value n => n
                | _ => user_id existing
                end;
     total := match ou_total patch with
              | Value t => rounded t
              | _ => total existing
              end;
     status := match ou_status patch with
               | Value s => s
               | _ => status existing
               end;
     items := match ou_items patch with
              | Unset => items existing
              | Null => None
              | Value lines => Some (stored_item <$> lines)
              end |}.

(** The requested status, when the patch asks for a status change. *)
Definition new_status_of (patch : OrderUpdate) (existing : Order) : option string :=
  match ou_status patch with
  | Value s => if bool_decide (s ≠ "") && bool_decide (s ≠ status existing)
               then Some s else None
  | _ => None
  end.

(** The event that an update of [existing] appends. *)
Definition update_event (order_id : string) (patch : OrderUpdate) (existing : Order)
  (by_user : Z) : OrderEvent :=
  match new_status_of patch existing with
  | Some s => status_changed_event order_id (status existing) s by_user
  | None => updated_event order_id by_user
  end.

(** ** Worlds and requests of the examples *)

Module examples.

Definition row (i : Z) (s : string) (q : Z) : InventoryItem :=
  {| inv_id := i; inv_sku := s; inv_qty := q |}.

Definition line (s : string) (q : Z) (p : Z) : OrderItem :=
  {| sku := s; quantity := q; price := Q2Qc (inject_Z p) |}.

(** The caller of the examples: user 1, an administrator, since the
    Inventory service lets only administrators write a quantity. *)
Definition alice : CurrentUser :=
  {| cu_id := 1; cu_email := "alice@example.com"; cu_role := "admin"; cu_token := "t" |}.

(** X has 5 on hand, Y has 3; user 1 exists; nothing fails. *)
Definition shop : World :=
  {| inventory := [row 1 "X" 5; row 2 "Y" 3]; users := [1]; faults := [];
     calls := []; orders := []; order_events := [] |}.

Definition request (i : string) (t : Z) (st : string) (ls : list OrderItem) : OrderCreate :=
  {| oc_id := i; oc_user_id := 1; oc_total := Q2Qc (inject_Z t); oc_status := st;
     oc_items := ls |}.

Definition stored (i : string) (t : Z) (st : string) (ls : list OrderItem) : Order :=
  {| id := i; user_id := 1; total := Q2Qc (inject_Z t); status := st;
     items := Some (stored_item <$> ls) |}.

Definition patch_status (st : string) : OrderUpdate :=
  {| ou_user_id := Unset; ou_total := Unset; ou_status := Value st; ou_items := Unset |}.

(** A status together with a total of 10^9, which Numeric(10, 2) does
    not hold. *)
Definition patch_status_and_huge_total (st : string) : OrderUpdate :=
  {| ou_user_id := Unset; ou_total := Value (Q2Qc 1000000000); ou_status := Value st;
     ou_items := Unset |}.

(** The shop with one order on file. *)
Definition shop_with (o : Order) : World := set_orders [o] shop.

(** A delivered order. *)
Definition delivered_x : Order := stored "O1" 20 "delivered" [line "X" 2 10].

(** A pending order for X and Y. *)
Definition pending_xy : Order := stored "O1" 30 "pending" [line "X" 2 10; line "Y" 1 10].

(** A cancelled order for 2 units of X and 5 of Y: only 3 of Y are on
    hand. *)
Definition cancelled_xy : Order :=
  stored "O1" 70 "cancelled" [line "X" 2 10; line "Y" 5 10].

(** The shop with [pending_xy] on file, when the next request times out. *)
Definition shop_first_release_fails : World :=
  set_faults [Unreachable "timed out"] (shop_with pending_xy).

(** Five units of X for 50.00. *)
Definition order_x5 : OrderCreate := request "O1" 50 "pending" [line "X" 5 10].

(** Two units of X for 20.00, and the same lines with a claimed total
    of 999.00. *)
Definition order_x2 : OrderCreate := request "O1" 20 "pending" [line "X" 2 10].
Definition order_x2_overcharged : OrderCreate :=
  request "O1" 999 "pending" [line "X" 2 10].

(** Another request under the id of [order_x5]. *)
Definition order_y1_same_id : OrderCreate := request "O1" 10 "pending" [line "Y" 1 10].

(** Two lines for the same SKU: 2 and 4 units of X. *)
Definition order_xx : OrderCreate :=
  request "O1" 60 "pending" [line "X" 2 10; line "X" 4 10].

(** One unit each of X, Y and Z. *)
Definition order_xyz : OrderCreate :=
  request "O1" 30 "pending" [line "X" 1 10; line "Y" 1 10; line "Z" 1 10].

(** The shop when the first request of the reservation step times out:
    the validation of [order_x5] takes three requests. *)
Definition shop_reservation_times_out : World :=
  set_faults [Healthy; Healthy; Healthy; Unreachable "timed out"] shop.

(** A shop with a third SKU.  The validation of [order_xyz] takes five
    requests and the reservations of X and Y two each; the reservation
    of Z times out, and the release of X is refused on its write. *)
Definition shop_release_fails : World :=
  set_faults
    [Healthy; Healthy; Healthy; Healthy; Healthy;
     Healthy; Healthy; Healthy; Healthy;
     Unreachable "timed out";
     Healthy; ServerError "Forbidden"]
    (set_inventory [row 1 "X" 5; row 2 "Y" 3; row 3 "Z" 7] shop).

(** A shop with 101 SKUs, S0 to S100, seven of each. *)
Definition big_shop : World :=
  set_inventory ((λ i : nat, row (Z.of_nat i) ("S" +:+ pretty i) 7) <$> seq 0 101) shop.

End examples.

(** ** Proof automation *)

(** Unfold the clients and the monad down to matches on the world. *)
Ltac unfold_M :=
  unfold inventory_client.restore_inventory, inventory_client.reduce_inventory,
    inventory_client.check_stock_availability, inventory_client.validate_items_exist,
    users_client.validate_user_exists,
    inventory_client.record_call, inventory_client.get_item_by_sku,
    inventory_client.get_all_items, remote.inventory_list, remote.inventory_put,
    remote.users_get, remote.next_fault, try_except_HTTPError, try_except, raise, lift,
    get_world, modify_world, mbind, M_bind, mret, M_ret in *.

(** Split on every match in sight. *)
Ltac crush_M := repeat (case_match; cbn in *; simplify_eq).

(** * Theorems *)

(** ** The status transition guard *)

Section status_guard.
Import validators.

Lemma valid_transitions_unknown (s : string) :
  s ∉ statuses → valid_transitions !! s = None.
Proof.
  unfold statuses. rewrite !not_elem_of_cons. intros (? & ? & ? & ? & ? & _).
  unfold valid_transitions. cbn.
  by rewrite !lookup_insert_ne, lookup_empty.
Qed.

Lemma valid_transitions_known (s : string) :
  s ∈ statuses → is_Some (valid_transitions !! s).
Proof.
  unfold statuses. rewrite !elem_of_cons, elem_of_nil.
  intros [->|[->|[->|[->|[->|[]]]]]]; vm_compute; eauto.
Qed.

(** On the five statuses the guard is the decision procedure of
    "same status or a legal edge". *)
Lemma guard_decides (old new : string) :
  old ∈ statuses → new ∈ statuses →
  accepts (old, new) = bool_decide (new = old ∨ (old, new) ∈ legal_edges).
Proof.
  unfold statuses. rewrite !elem_of_cons, !elem_of_nil.
  intros [->|[->|[->|[->|[->|[]]]]]] [->|[->|[->|[->|[->|[]]]]]];
    vm_compute; reflexivity.
Qed.

Lemma guard_reason (old new : string) :
  old ∈ statuses → new ∈ statuses → accepts (old, new) = false →
  validate_order_status_transition old new
  = (false, "Invalid status transition: " +:+ old +:+ " -> " +:+ new).
Proof.
  unfold statuses. rewrite !elem_of_cons, !elem_of_nil.
  intros [->|[->|[->|[->|[->|[]]]]]] [->|[->|[->|[->|[->|[]]]]]];
    vm_compute; intros; congruence.
Qed.

Lemma guard_unknown_old (old new : string) :
  old ∉ statuses →
  validate_order_status_transition old new = (false, "Unknown status: " +:+ old).
Proof.
  intros H. unfold validate_order_status_transition.
  by rewrite (valid_transitions_unknown old H).
Qed.

Lemma guard_unknown_new (old new : string) :
  old ∈ statuses → new ∉ statuses →
  validate_order_status_transition old new = (false, "Unknown status: " +:+ new).
Proof.
  intros [t Ht]%valid_transitions_known Hnew. unfold validate_order_status_transition.
  by rewrite Ht, (valid_transitions_unknown new Hnew).
Qed.

End status_guard.

(** C2, as stated, counts six legal edges and fourteen rejected pairs.
    The transition table has seven edges between different statuses (the
    claim itself lists seven), so of the 25 ordered pairs 5 + 7 are
    accepted and 13, not 14, are rejected. *)
Lemma C2_counts_counterexample :
  length legal_edges ≠ 6%nat
  ∧ length (List.filter (λ p, negb (accepts p)) status_pairs) ≠ 14%nat.
Proof. split; vm_compute; discriminate. Qed.

(** C2 (amended): on the five statuses, [validate_order_status_transition]
    accepts exactly when the new status equals the old one or the pair is
    one of the seven legal edges; the 13 remaining ordered pairs are
    rejected with the non-empty reason "Invalid status transition: old ->
    new"; a status outside the five is rejected with the reason "Unknown
    status: " followed by the offending status, the old one if it is
    unknown and otherwise the new one. *)
Theorem C2_status_guard :
  (∀ old new, old ∈ statuses → new ∈ statuses →
     (accepts (old, new) = true ↔ new = old ∨ (old, new) ∈ legal_edges))
  ∧ length legal_edges = 7%nat
  ∧ NoDup legal_edges
  ∧ Forall (λ p, p.1 ≠ p.2 ∧ p.1 ∈ statuses ∧ p.2 ∈ statuses) legal_edges
  ∧ length (List.filter (λ p, negb (accepts p)) status_pairs) = 13%nat
  ∧ (∀ old new, old ∈ statuses → new ∈ statuses → accepts (old, new) = false →
       validators.validate_order_status_transition old new
       = (false, "Invalid status transition: " +:+ old +:+ " -> " +:+ new)
       ∧ snd (validators.validate_order_status_transition old new) ≠ "")
  ∧ (∀ old new, old ∉ statuses →
       validators.validate_order_status_transition old new
       = (false, "Unknown status: " +:+ old))
  ∧ (∀ old new, old ∈ statuses → new ∉ statuses →
       validators.validate_order_status_transition old new
       = (false, "Unknown status: " +:+ new)).
Proof.
  split_and!.
  - intros old new Ho Hn. rewrite (guard_decides old new Ho Hn).
    apply bool_decide_eq_true.
  - reflexivity.
  - compute_done.
  - compute_done.
  - vm_compute. reflexivity.
  - intros old new Ho Hn Hrej. rewrite (guard_reason old new Ho Hn Hrej).
    split; [reflexivity | discriminate].
  - apply guard_unknown_old.
  - apply guard_unknown_new.
Qed.

(** The guard at a legal edge, an illegal edge and two unknown statuses. *)
Lemma C2_status_guard_witness :
  accepts ("cancelled", "pending") = true
  ∧ validators.validate_order_status_transition "delivered" "pending"
    = (false, "Invalid status transition: delivered -> pending")
  ∧ validators.validate_order_status_transition "refunded" "pending"
    = (false, "Unknown status: refunded")
  ∧ validators.validate_order_status_transition "pending" "refunded"
    = (false, "Unknown status: refunded").
Proof.
  destruct C2_status_guard as (Hiff & _ & _ & _ & _ & Hrej & Hold & Hnew).
  split_and!.
  - apply (Hiff "cancelled" "pending"); [compute_done ..|].
    right. compute_done.
  - apply (Hrej "delivered" "pending");
      [compute_done .. | vm_compute; reflexivity].
  - apply (Hold "refunded" "pending"). compute_done.
  - apply (Hnew "pending" "refunded"); compute_done.
Defined.

(** ** The item validator *)

Section item_validator.
Import validators.

Lemma size_list_to_set_le (l : list string) :
  (size (list_to_set l : gset string) ≤ length l)%nat.
Proof.
  induction l as [|x l IH]; cbn.
  - by rewrite size_empty.
  - destruct (decide (x ∈ l)) as [Hin|Hout].
    + rewrite subseteq_union_1_L
        by by apply singleton_subseteq_l, elem_of_list_to_set.
      lia.
    + rewrite size_union, size_singleton
        by by apply disjoint_singleton_l; rewrite elem_of_list_to_set.
      lia.
Qed.

(** [len(skus) != len(set(skus))] is the test for a repeated SKU. *)
Lemma duplicate_test (l : list string) :
  length l ≠ size (list_to_set l : gset string) ↔ ¬ NoDup l.
Proof.
  split.
  - intros Hne Hnd. by rewrite size_list_to_set in Hne.
  - intros Hdup Hlen. apply Hdup. clear Hdup.
    induction l as [|x l IH]; [constructor|].
    cbn in Hlen. destruct (decide (x ∈ l)) as [Hin|Hout].
    + rewrite subseteq_union_1_L in Hlen
        by by apply singleton_subseteq_l, elem_of_list_to_set.
      pose proof (size_list_to_set_le l). lia.
    + rewrite size_union, size_singleton in Hlen
        by by apply disjoint_singleton_l; rewrite elem_of_list_to_set.
      constructor; [done|]. apply IH. lia.
Qed.

Lemma validate_each_ok (items : list OrderItem) :
  Forall quantity_ok items → Forall price_ok items →
  validate_each items = (true, "").
Proof.
  induction items as [|item rest IH]; [done|].
  intros [[Hq1 Hq2] Hqs]%Forall_cons_1 [[Hp1 Hp2] Hps]%Forall_cons_1. cbn.
  rewrite !bool_decide_eq_false_2; [by apply IH | ..].
  - by apply Qcle_not_lt.
  - by apply Qcle_not_lt.
  - lia.
  - lia.
Qed.

Lemma validate_each_accepts (items : list OrderItem) :
  fst (validate_each items) = true →
  Forall quantity_ok items ∧ Forall price_ok items.
Proof.
  induction items as [|item rest IH]; [done|]. cbn.
  repeat case_bool_decide; cbn; try discriminate.
  intros [Hqs Hps]%IH. split; constructor; try done.
  - unfold quantity_ok. lia.
  - split; by apply Qcnot_lt_le.
Qed.

(** With every price in range, a quantity out of range is reported by
    one of the two quantity messages, for the first offending item. *)
Lemma validate_each_quantity (items : list OrderItem) :
  Forall price_ok items → ¬ Forall quantity_ok items →
  ∃ item, item ∈ items ∧
    ((quantity item ≤ 0 ∧ validate_each items
        = (false, "Item " +:+ sku item +:+ ": quantity must be positive"))
     ∨ (10000 < quantity item ∧ validate_each items
        = (false, "Item " +:+ sku item +:+ ": quantity exceeds maximum (10000)"))).
Proof.
  induction items as [|item rest IH]; [intros _ []; constructor|].
  intros [[Hp1 Hp2] Hps]%Forall_cons_1 Hq. cbn.
  destruct (decide (quantity item ≤ 0)) as [Hle|Hpos].
  { exists item. split; [left|]. left. by rewrite bool_decide_eq_true_2. }
  rewrite (bool_decide_eq_false_2 _ Hpos).
  destruct (decide (10000 < quantity item)) as [Hbig|Hsmall].
  { exists item. split; [left|]. right. by rewrite bool_decide_eq_true_2. }
  rewrite (bool_decide_eq_false_2 _ Hsmall).
  rewrite !bool_decide_eq_false_2 by by apply Qcle_not_lt.
  destruct IH as (it & Hin & Hit); [done| |].
  { intros Hqs. apply Hq. constructor; [unfold quantity_ok; lia | done]. }
  exists it. split; [by right | done].
Qed.

(** With every quantity in range, a price out of range is reported by
    one of the two price messages, for the first offending item. *)
Lemma validate_each_price (items : list OrderItem) :
  Forall quantity_ok items → ¬ Forall price_ok items →
  ∃ item, item ∈ items ∧
    (((price item < Q2Qc 0)%Qc ∧ validate_each items
        = (false, "Item " +:+ sku item +:+ ": price cannot be negative"))
     ∨ ((Q2Qc 1000000 < price item)%Qc ∧ validate_each items
        = (false, "Item " +:+ sku item +:+ ": price exceeds maximum (1,000,000)"))).
Proof.
  induction items as [|item rest IH]; [intros _ []; constructor|].
  intros [[Hq1 Hq2] Hqs]%Forall_cons_1 Hp. cbn.
  rewrite !(bool_decide_eq_false_2 (_ ≤ _)), !(bool_decide_eq_false_2 (_ < _)) by lia.
  destruct (decide (price item < Q2Qc 0)%Qc) as [Hneg|Hnn].
  { exists item. split; [left|]. left. by rewrite bool_decide_eq_true_2. }
  rewrite (bool_decide_eq_false_2 _ Hnn).
  destruct (decide (Q2Qc 1000000 < price item)%Qc) as [Hbig|Hsmall].
  { exists item. split; [left|]. right. by rewrite bool_decide_eq_true_2. }
  rewrite (bool_decide_eq_false_2 _ Hsmall).
  destruct IH as (it & Hin & Hit); [done| |].
  { intros Hps. apply Hp. constructor; [|done]. split; by apply Qcnot_lt_le. }
  exists it. split; [by right | done].
Qed.

(** Past the three checks on the list as a whole, the verdict is the one
    of the loop. *)
Lemma validate_order_items_loop (items : list OrderItem) :
  items ≠ [] → (length items ≤ 100)%nat → NoDup (sku <$> items) →
  validate_order_items items = validate_each items.
Proof.
  intros Hne Hlen Hnd. unfold validate_order_items.
  destruct items as [|item rest]; [done|].
  rewrite bool_decide_eq_false_2 by lia.
  rewrite bool_decide_eq_false_2; [done|].
  rewrite duplicate_test. tauto.
Qed.

End item_validator.

(** C9, as stated, has [validate_order_items] accept every list of at most
    100 entries with unique SKUs and quantities and prices in range.  The
    empty list is such a list, and it is rejected. *)
Lemma C9_empty_list_counterexample :
  (length ([] : list OrderItem) ≤ 100)%nat
  ∧ NoDup (sku <$> ([] : list OrderItem))
  ∧ Forall quantity_ok [] ∧ Forall price_ok []
  ∧ validators.validate_order_items [] = (false, "Order must contain at least one item").
Proof. split_and!; [cbn; lia | constructor | constructor | constructor | reflexivity]. Qed.

(** C9 (amended): [validate_order_items] accepts every non-empty item list
    with at most 100 entries, unique SKUs, quantities in [1, 10000] and
    prices in [0, 1000000], and accepts no other list.  Violating a single
    constraint in isolation is rejected with a reason naming it: the empty
    list, more than 100 items, a duplicate SKU, a quantity that is not
    positive or exceeds 10000 (reported for the first such item), a price
    that is negative or exceeds 1000000 (reported for the first such
    item). *)
Theorem C9_validate_order_items :
  ∀ items : list OrderItem,
    (* acceptance *)
    (fst (validators.validate_order_items items) = true ↔
       items ≠ [] ∧ (length items ≤ 100)%nat ∧ NoDup (sku <$> items)
       ∧ Forall quantity_ok items ∧ Forall price_ok items)
    ∧ (items ≠ [] → (length items ≤ 100)%nat → NoDup (sku <$> items) →
       Forall quantity_ok items → Forall price_ok items →
       validators.validate_order_items items = (true, ""))
    (* empty list *)
    ∧ (items = [] →
       validators.validate_order_items items
       = (false, "Order must contain at least one item"))
    (* too many items *)
    ∧ ((100 < length items)%nat →
       validators.validate_order_items items
       = (false, "Order cannot contain more than 100 items"))
    (* duplicate SKU *)
    ∧ (items ≠ [] → (length items ≤ 100)%nat → ¬ NoDup (sku <$> items) →
       validators.validate_order_items items = (false, "Order contains duplicate SKUs"))
    (* quantity out of range *)
    ∧ (items ≠ [] → (length items ≤ 100)%nat → NoDup (sku <$> items) →
       Forall price_ok items → ¬ Forall quantity_ok items →
       ∃ item, item ∈ items ∧
         ((quantity item ≤ 0 ∧ validators.validate_order_items items
             = (false, "Item " +:+ sku item +:+ ": quantity must be positive"))
          ∨ (10000 < quantity item ∧ validators.validate_order_items items
             = (false, "Item " +:+ sku item +:+ ": quantity exceeds maximum (10000)"))))
    (* price out of range *)
    ∧ (items ≠ [] → (length items ≤ 100)%nat → NoDup (sku <$> items) →
       Forall quantity_ok items → ¬ Forall price_ok items →
       ∃ item, item ∈ items ∧
         (((price item < Q2Qc 0)%Qc ∧ validators.validate_order_items items
             = (false, "Item " +:+ sku item +:+ ": price cannot be negative"))
          ∨ ((Q2Qc 1000000 < price item)%Qc ∧ validators.validate_order_items items
             = (false, "Item " +:+ sku item +:+ ": price exceeds maximum (1,000,000)")))).
Proof.
  intros items. split_and!.
  - split.
    + intros Hacc. unfold validators.validate_order_items in Hacc.
      destruct items as [|item rest]; [discriminate|].
      case_bool_decide as Hlen; [discriminate|].
      case_bool_decide as Hdup; [discriminate|].
      apply validate_each_accepts in Hacc as [Hqs Hps].
      split_and!; try done.
      * lia.
      * destruct (decide (NoDup (sku <$> item :: rest))) as [|Hnd]; [done|].
        by apply duplicate_test in Hnd.
    + intros (Hne & Hlen & Hnd & Hqs & Hps).
      by rewrite validate_order_items_loop, validate_each_ok.
  - intros Hne Hlen Hnd Hqs Hps.
    by rewrite validate_order_items_loop, validate_each_ok.
  - by intros ->.
  - intros Hlen. unfold validators.validate_order_items.
    destruct items as [|item rest]; [cbn in Hlen; lia|].
    by rewrite bool_decide_eq_true_2.
  - intros Hne Hlen Hdup. unfold validators.validate_order_items.
    destruct items as [|item rest]; [done|].
    rewrite bool_decide_eq_false_2 by lia.
    rewrite bool_decide_eq_true_2; [done|]. by apply duplicate_test.
  - intros Hne Hlen Hnd Hps Hqs. rewrite validate_order_items_loop by done.
    by apply validate_each_quantity.
  - intros Hne Hlen Hnd Hqs Hps. rewrite validate_order_items_loop by done.
    by apply validate_each_price.
Qed.

(** The validator at a good list and at a list with a repeated SKU. *)
Lemma C9_validate_order_items_witness :
  validators.validate_order_items [examples.line "X" 5 10; examples.line "Y" 1 0]
  = (true, "")
  ∧ validators.validate_order_items [examples.line "X" 5 10; examples.line "X" 1 0]
    = (false, "Order contains duplicate SKUs").
Proof.
  split.
  - apply (C9_validate_order_items [examples.line "X" 5 10; examples.line "Y" 1 0]).
    + discriminate.
    + cbn; lia.
    + compute_done.
    + repeat constructor; unfold quantity_ok; cbn; lia.
    + repeat constructor; compute_done.
  - apply (C9_validate_order_items [examples.line "X" 5 10; examples.line "X" 1 0]).
    + discriminate.
    + cbn; lia.
    + compute_done.
Defined.

(** ** Evaluating the monad *)

Lemma bind_eq {A B} (m : M A) (k : A → M B) (w : World) :
  (m ≫= k) w = match m w with
               | (Ret a, w') => k a w'
               | (Raise e, w') => (Raise e, w')
               end.
Proof. reflexivity. Qed.

Lemma bind_ret {A B} (m : M A) (k : A → M B) (w w' : World) (a : A) :
  m w = (Ret a, w') → (m ≫= k) w = k a w'.
Proof. intros H. by rewrite bind_eq, H. Qed.

Lemma bind_raise {A B} (m : M A) (k : A → M B) (w w' : World) (e : exn) :
  m w = (Raise e, w') → (m ≫= k) w = (Raise e, w').
Proof. intros H. by rewrite bind_eq, H. Qed.

Lemma bind_lift_ret {A B} (a : A) (k : A → M B) (w : World) :
  (lift (Ret a) ≫= k) w = k a w.
Proof. reflexivity. Qed.

Lemma bind_lift_raise {A B} (e : exn) (k : A → M B) (w : World) :
  (lift (Raise e) ≫= k) w = (Raise e, w).
Proof. reflexivity. Qed.



Lemma local_frame_refl w : local_frame w w.
Proof. by unfold local_frame. Qed.

Lemma local_frame_trans w1 w2 w3 :
  local_frame w1 w2 → local_frame w2 w3 → local_frame w1 w3.
Proof. unfold local_frame. intros (-> & -> & ->) (-> & -> & ->). done. Qed.

Lemma read_only_refl w : read_only w w.
Proof. unfold read_only. auto using local_frame_refl. Qed.

Lemma read_only_trans w1 w2 w3 : read_only w1 w2 → read_only w2 w3 → read_only w1 w3.
Proof.
  unfold read_only. intros (-> & -> & ?) (-> & -> & ?).
  eauto using local_frame_trans.
Qed.

(** ** The inventory client *)

(** [reduce_inventory] returns a pair whatever the service does: it turns
    httpx.HTTPError into a failure message itself. *)
Lemma reduce_inventory_spec sku q tok w :
  ∃ ok msg w', inventory_client.reduce_inventory sku q tok w = (Ret (ok, msg), w')
    ∧ calls w' = calls w ++ [Reduce sku q] ∧ local_frame w w'.
Proof. unfold local_frame. unfold_M. cbn. crush_M; eauto 10. Qed.

Lemma restore_inventory_spec sku q tok w :
  ∃ ok msg w', inventory_client.restore_inventory sku q tok w = (Ret (ok, msg), w')
    ∧ calls w' = calls w ++ [Restore sku q] ∧ local_frame w w'.
Proof. unfold local_frame. unfold_M. cbn. crush_M; eauto 10. Qed.

(** The reading calls write nothing, and what they raise is an
    httpx.HTTPError. *)
Lemma check_stock_availability_spec sku q tok w :
  ∃ r w', inventory_client.check_stock_availability sku q tok w = (r, w')
    ∧ transport_only r ∧ read_only w w'.
Proof.
  unfold read_only, local_frame. unfold_M. cbn.
  crush_M; do 2 eexists; (split_and!; [reflexivity | exact I | done ..]).
Qed.

Lemma validate_items_exist_spec skus tok w :
  ∃ r w', inventory_client.validate_items_exist skus tok w = (r, w')
    ∧ transport_only r ∧ read_only w w'.
Proof.
  unfold read_only, local_frame. unfold_M. cbn.
  crush_M; do 2 eexists; (split_and!; [reflexivity | exact I | done ..]).
Qed.

Lemma validate_user_exists_spec uid tok w :
  ∃ r w', users_client.validate_user_exists uid tok w = (r, w')
    ∧ transport_only r ∧ read_only w w'.
Proof.
  unfold read_only, local_frame. unfold_M. cbn.
  crush_M; do 2 eexists; (split_and!; [reflexivity | exact I | done ..]).
Qed.

(** ** The rollback *)

Lemma lines_with_sku_nil (items : list OrderItem) : lines_with_sku [] items = [].
Proof.
  induction items as [|item rest IH]; [done|]. cbn.
  rewrite bool_decide_eq_false_2; [done | apply not_elem_of_nil].
Qed.

Lemma lines_with_sku_all (skus : list string) (items : list OrderItem) :
  (∀ item, item ∈ items → sku item ∈ skus) → lines_with_sku skus items = items.
Proof.
  induction items as [|item rest IH]; [done|]. intros Hall. cbn.
  rewrite bool_decide_eq_true_2 by (apply Hall; left).
  f_equal. apply IH. intros it Hit. apply Hall. by right.
Qed.

Lemma lines_with_sku_none (skus : list string) (items : list OrderItem) :
  (∀ item, item ∈ items → sku item ∉ skus) → lines_with_sku skus items = [].
Proof.
  induction items as [|item rest IH]; [done|]. intros Hnone. cbn.
  rewrite bool_decide_eq_false_2 by (apply Hnone; left).
  apply IH. intros it Hit. apply Hnone. by right.
Qed.

(** The rollback always sees the reserved prefix itself. *)
Lemma lines_with_sku_prefix (pre rest : list OrderItem) :
  lines_with_sku (sku <$> pre) (pre ++ rest)
  = pre ++ lines_with_sku (sku <$> pre) rest.
Proof.
  unfold lines_with_sku. rewrite List.filter_app. f_equal.
  apply lines_with_sku_all. intros item Hin. by apply list_elem_of_fmap_2.
Qed.

(** With unique SKUs it sees nothing else. *)
Lemma lines_with_sku_rest_unique (pre rest : list OrderItem) :
  NoDup (sku <$> pre ++ rest) → lines_with_sku (sku <$> pre) rest = [].
Proof.
  intros Hnd. apply lines_with_sku_none.
  rewrite fmap_app in Hnd. apply list.NoDup_app in Hnd as (_ & Hdisj & _).
  intros item Hin Hpre. apply (Hdisj (sku item)); [done|].
  by apply list_elem_of_fmap_2.
Qed.

Lemma lines_with_sku_unique (pre rest : list OrderItem) :
  NoDup (sku <$> pre ++ rest) → lines_with_sku (sku <$> pre) (pre ++ rest) = pre.
Proof.
  intros Hnd.
  by rewrite lines_with_sku_prefix, lines_with_sku_rest_unique, app_nil_r.
Qed.

Lemma rollback_spec items processed tok w :
  ∃ w', crud.rollback_inventory_deductions items processed tok w = (Ret tt, w')
    ∧ calls w' = calls w ++ (restore_call <$> lines_with_sku processed items)
    ∧ local_frame w w'.
Proof.
  revert w. induction items as [|item rest IH]; intros w.
  - exists w. cbn. rewrite app_nil_r. auto using local_frame_refl.
  - cbn [crud.rollback_inventory_deductions lines_with_sku List.filter
          item_sku item_quantity OrderItem_like].
    rewrite bind_lift_ret, bind_eq. case_bool_decide as Hin.
    + destruct (restore_inventory_spec (sku item) (quantity item) tok w)
        as (ok & msg & w1 & Hrun & Hcalls & Hframe).
      rewrite bind_lift_ret, (bind_ret _ _ _ _ _ Hrun). cbn.
      destruct (IH w1) as (w2 & Hrest & Hcalls2 & Hframe2).
      exists w2. rewrite Hrest. split_and!; [done | | by eapply local_frame_trans].
      rewrite Hcalls2, Hcalls. fold (lines_with_sku processed rest).
      by rewrite <- app_assoc.
    + cbn. destruct (IH w) as (w2 & Hrest & Hcalls2 & Hframe2).
      exists w2. by rewrite Hrest.
Qed.

(** ** The loop of process_inventory_for_order *)

(** Releasing ([deduct=False]) walks the whole list and reports success,
    whatever the single releases answer. *)
Lemma process_loop_release items remaining tok processed w :
  ∃ processed' w',
    crud.process_loop items remaining false tok processed w
    = (processed', Ret (true, None, processed'), w')
    ∧ calls w' = calls w ++ (restore_call <$> remaining)
    ∧ local_frame w w'.
Proof.
  revert processed w. induction remaining as [|item rest IH]; intros processed w.
  - exists processed, w. cbn. rewrite app_nil_r. auto using local_frame_refl.
  - cbn [crud.process_loop item_sku item_quantity OrderItem_like].
    destruct (restore_inventory_spec (sku item) (quantity item) tok w)
      as (ok & msg & w1 & -> & Hcalls & Hframe).
    destruct ok.
    + destruct (IH (processed ++ [sku item]) w1) as (p' & w2 & -> & Hcalls2 & Hframe2).
      exists p', w2. split_and!; [done | | by eapply local_frame_trans].
      rewrite Hcalls2, Hcalls. cbn. by rewrite <- app_assoc.
    + destruct (IH processed w1) as (p' & w2 & -> & Hcalls2 & Hframe2).
      exists p', w2. split_and!; [done | | by eapply local_frame_trans].
      rewrite Hcalls2, Hcalls. cbn. by rewrite <- app_assoc.
Qed.

(** A reserving loop that reports success has reserved every item, and it
    is a prefix of any longer run. *)
Lemma process_loop_reserved all pre tok processed w processed' m skus w1 :
  crud.process_loop all pre true tok processed w = (processed', Ret (true, m, skus), w1) →
  m = None ∧ skus = processed' ∧ processed' = processed ++ (sku <$> pre)
  ∧ calls w1 = calls w ++ (reduce_call <$> pre)
  ∧ local_frame w w1
  ∧ ∀ all' post,
      crud.process_loop all' (pre ++ post) true tok processed w
      = crud.process_loop all' post true tok processed' w1.
Proof.
  revert processed w. induction pre as [|item rest IH]; intros processed w.
  - cbn. intros [= <- <- <- <-]. rewrite !app_nil_r.
    auto 10 using local_frame_refl.
  - cbn [crud.process_loop item_sku item_quantity OrderItem_like].
    destruct (reduce_inventory_spec (sku item) (quantity item) tok w)
      as (ok & msg & w0 & Hred & Hcalls & Hframe).
    rewrite Hred. destruct ok.
    + intros Hrun. destruct (IH _ _ Hrun) as (-> & -> & -> & Hcalls2 & Hframe2 & Hcont).
      split_and!; try done.
      * by rewrite <- app_assoc.
      * rewrite Hcalls2, Hcalls. cbn. by rewrite <- app_assoc.
      * by eapply local_frame_trans.
      * intros all' post.
        cbn [app crud.process_loop item_sku item_quantity OrderItem_like].
        rewrite Hred. apply Hcont.
    + intros Hrun. exfalso. crush_M.
Qed.

Lemma process_reserved items tok w m skus w1 :
  crud.process_inventory_for_order items true tok w = (Ret (true, m, skus), w1) →
  m = None ∧ skus = sku <$> items
  ∧ calls w1 = calls w ++ (reduce_call <$> items)
  ∧ local_frame w w1
  ∧ crud.process_loop items items true tok [] w = (skus, Ret (true, m, skus), w1).
Proof.
  unfold crud.process_inventory_for_order.
  destruct (crud.process_loop items items true tok [] w) as [[p [r|e]] w'] eqn:Hloop.
  - intros [= -> ->].
    destruct (process_loop_reserved _ _ _ _ _ _ _ _ _ Hloop) as (-> & -> & -> & ? & ? & _).
    done.
  - rewrite bind_eq. intros Hrun. exfalso. crush_M.
Qed.

(** Releasing through [process_inventory_for_order]. *)
Lemma process_release items tok w :
  ∃ skus w', crud.process_inventory_for_order items false tok w
             = (Ret (true, None, skus), w')
    ∧ calls w' = calls w ++ (restore_call <$> items)
    ∧ local_frame w w'.
Proof.
  unfold crud.process_inventory_for_order.
  destruct (process_loop_release items items tok [] w) as (p & w' & -> & ? & ?).
  eauto.
Qed.

(** The first failing reservation: the items before it were reserved, the
    rollback releases every line whose SKU is among theirs, and the
    reason of the failure is handed back. *)
Lemma process_first_failure pre item post tok w m skus w1 msg w2 :
  crud.process_inventory_for_order pre true tok w = (Ret (true, m, skus), w1) →
  inventory_client.reduce_inventory (sku item) (quantity item) tok w1
  = (Ret (false, msg), w2) →
  ∃ w3,
    crud.process_inventory_for_order (pre ++ item :: post) true tok w
    = (Ret (false, Some ("Inventory deduction failed: " +:+ str_optional msg), []), w3)
    ∧ calls w2 = calls w ++ (reduce_call <$> pre ++ [item])
    ∧ calls w3 = calls w2
                 ++ (restore_call <$> lines_with_sku (sku <$> pre) (pre ++ item :: post))
    ∧ local_frame w w3.
Proof.
  intros (-> & -> & Hcalls1 & Hframe1 & Hloop)%process_reserved Hred.
  destruct (process_loop_reserved _ _ _ _ _ _ _ _ _ Hloop) as (_ & _ & _ & _ & _ & Hcont).
  destruct (reduce_inventory_spec (sku item) (quantity item) tok w1)
    as (ok & msg' & w2' & Hred' & Hcalls2 & Hframe2).
  rewrite Hred in Hred'. injection Hred' as <- <- <-.
  unfold crud.process_inventory_for_order.
  rewrite (Hcont (pre ++ item :: post) (item :: post)).
  cbn [crud.process_loop item_sku item_quantity OrderItem_like]. rewrite Hred. cbn [app].
  destruct pre as [|p pre'].
  - cbn [nonempty fmap list_fmap]. exists w2.
    rewrite lines_with_sku_nil. cbn. rewrite app_nil_r.
    split_and!; [done | | done | by eapply local_frame_trans].
    rewrite Hcalls2, Hcalls1. cbn. by rewrite app_nil_r.
  - cbn [nonempty fmap list_fmap].
    destruct (rollback_spec ((p :: pre') ++ item :: post) (sku <$> p :: pre') tok w2)
      as (w3 & Hroll & Hcalls3 & Hframe3).
    cbn [fmap list_fmap] in Hroll. rewrite Hroll. exists w3.
    split_and!; try done.
    + rewrite Hcalls2, Hcalls1, fmap_app. cbn. by rewrite <- app_assoc.
    + eauto using local_frame_trans.
Qed.

(** ** Remote validation *)

Lemma check_stock_loop_spec items tok w :
  ∃ r w', crud.check_stock_loop items tok w = (r, w')
    ∧ transport_only r ∧ read_only w w'.
Proof.
  revert w. induction items as [|item rest IH]; intros w.
  - exists (Ret (true, None)), w. split_and!; [done | done | apply read_only_refl].
  - cbn [crud.check_stock_loop]. rewrite bind_eq.
    destruct (check_stock_availability_spec (sku item) (quantity item) tok w)
      as ([[available current]|e] & w1 & -> & Htr & Hro).
    + destruct available; cbn.
      * destruct (IH w1) as (r & w2 & -> & Htr2 & Hro2).
        exists r, w2. eauto using read_only_trans.
      * do 2 eexists. split_and!; [reflexivity | exact I | done].
    + do 2 eexists. split_and!; [reflexivity | done | done].
Qed.

(** [validate_order_data] answers with a pair whatever the services do,
    and writes nothing. *)
Lemma validate_order_data_spec order tok w :
  ∃ is_valid msg w', crud.validate_order_data order tok w = (Ret (is_valid, msg), w')
    ∧ read_only w w'.
Proof.
  unfold crud.validate_order_data, try_except_HTTPError, try_except.
  rewrite bind_eq.
  destruct (validate_user_exists_spec (oc_user_id order) tok w)
    as ([user_exists|e] & w1 & -> & Htr1 & Hro1).
  2: { destruct e; [cbn; eauto 10 | done..]. }
  destruct user_exists; cbn; [|eauto 10].
  destruct (nonempty (oc_items order)); [|cbn; eauto 10].
  rewrite bind_eq.
  destruct (validate_items_exist_spec (sku <$> oc_items order) tok w1)
    as ([[all_exist missing]|e] & w2 & -> & Htr2 & Hro2).
  2: { destruct e; [cbn; eauto 10 using read_only_trans | done..]. }
  destruct all_exist; cbn; [|eauto 10 using read_only_trans].
  destruct (check_stock_loop_spec (oc_items order) tok w2)
    as ([[v m]|e] & w3 & -> & Htr3 & Hro3).
  - eauto 10 using read_only_trans.
  - destruct e; [cbn; eauto 10 using read_only_trans | done..].
Qed.

(** ** The columns of the store *)

Lemma integer_column_spec n : store.integer_column n = true ↔ int32 n.
Proof. unfold store.integer_column, int32. apply bool_decide_eq_true. Qed.

Lemma integer_column_true n : int32 n → store.integer_column n = true.
Proof. apply integer_column_spec. Qed.

Lemma integer_column_false n : ¬ int32 n → store.integer_column n = false.
Proof.
  intros Hn. destruct (store.integer_column n) eqn:Hc; [|done].
  by apply integer_column_spec in Hc.
Qed.

Lemma numeric_10_2_fits t : fits_total t → store.numeric_10_2 t = Some (rounded t).
Proof. intros Hfit. unfold store.numeric_10_2. by rewrite bool_decide_eq_true_2. Qed.

Lemma numeric_10_2_overflow t : ¬ fits_total t → store.numeric_10_2 t = None.
Proof. intros Hfit. unfold store.numeric_10_2. by rewrite bool_decide_eq_false_2. Qed.

Lemma fits_total_dec t : fits_total t ∨ ¬ fits_total t.
Proof. unfold fits_total. lia. Qed.

Lemma int32_dec n : int32 n ∨ ¬ int32 n.
Proof. unfold int32. lia. Qed.

(** The flush of a new row: it is taken exactly when the user id has 32
    bits and the total fits, and it is read back with the total rounded. *)
Lemma insert_order_spec row :
  (int32 (user_id row) ∧ fits_total (total row)
   ∧ store.insert_order row
     = Ret {| id := id row; user_id := user_id row; total := rounded (total row);
              status := status row; items := items row |})
  ∨ (¬ (int32 (user_id row) ∧ fits_total (total row))
     ∧ ∃ msg, store.insert_order row = Raise (DBAPIError msg)).
Proof.
  unfold store.insert_order.
  destruct (int32_dec (user_id row)) as [Hu|Hu].
  - rewrite (integer_column_true _ Hu). cbn [negb].
    destruct (fits_total_dec (total row)) as [Ht|Ht].
    + left. by rewrite (numeric_10_2_fits _ Ht).
    + right. rewrite (numeric_10_2_overflow _ Ht). split; [tauto|]. by eexists.
  - right. rewrite (integer_column_false _ Hu). cbn. split; [tauto|]. by eexists.
Qed.

(** The flush of an event row checks the id of the caller. *)
Lemma log_order_event_spec order_id event_type description old_value new_value by_user w :
  (int32 by_user
   ∧ main.log_order_event order_id event_type description old_value new_value
       (Some by_user) w
     = (Ret tt,
        set_order_events
          (order_events w
           ++ [{| ev_order_id := order_id; ev_event_type := event_type;
                  ev_description := description; ev_old_value := old_value;
                  ev_new_value := new_value; ev_user_id := Some by_user |}]) w))
  ∨ (¬ int32 by_user
     ∧ ∃ msg, main.log_order_event order_id event_type description old_value new_value
                (Some by_user) w = (Raise (DBAPIError msg), w)).
Proof.
  unfold main.log_order_event. cbn [from_option].
  destruct (int32_dec by_user) as [Hu|Hu].
  - left. by rewrite (integer_column_true _ Hu).
  - right. rewrite (integer_column_false _ Hu). split; [done|]. by eexists.
Qed.

(** ** The create path *)

Lemma get_order_eq order_id w :
  crud.get_order order_id w = (Ret (lookup_order order_id w), w).
Proof. reflexivity. Qed.

Lemma authorized_check user owner :
  authorized user owner ↔
  bool_decide (cu_role user ≠ "admin") && bool_decide (owner ≠ cu_id user) = false.
Proof.
  unfold authorized. rewrite andb_false_iff, !bool_decide_eq_false.
  split; (intros [H|H]; [left|right]); [tauto | tauto | | ].
  - by destruct (decide (cu_role user = "admin")).
  - by destruct (decide (owner = cu_id user)).
Qed.

Lemma lookup_order_frame order_id w w' :
  orders w' = orders w → lookup_order order_id w' = lookup_order order_id w.
Proof. unfold lookup_order. by intros ->. Qed.

Lemma find_snoc_fresh (order_id : string) (rows : list Order) (row : Order) :
  id row = order_id →
  List.find (λ o, bool_decide (id o = order_id)) rows = None →
  List.find (λ o, bool_decide (id o = order_id)) (rows ++ [row]) = Some row.
Proof.
  intros Hid. induction rows as [|r rows IH]; cbn.
  - by rewrite bool_decide_eq_true_2.
  - case_bool_decide; [discriminate | apply IH].
Qed.

(** An id that is taken stops the create at its first check, before
    anything is sent or written. *)
Lemma create_order_existing order user w :
  is_Some (lookup_order (oc_id order) w) →
  main.create_order order user w
  = (Raise (HTTPException 400 "Order ID already exists"), w).
Proof.
  intros Hsome. unfold main.create_order.
  rewrite bind_eq, get_order_eq. by rewrite bool_decide_eq_true_2.
Qed.

Section create.
Variables (order : OrderCreate) (user : CurrentUser) (w w0 : World).
Variable m : option string.
Let tok := Some (cu_token user).

Hypothesis Hfresh : lookup_order (oc_id order) w = None.
Hypothesis Hauth : authorized user (oc_user_id order).
Hypothesis Hvalid : crud.validate_order_data order tok w = (Ret (true, m), w0).

(** A reservation that fails aborts the create with status 400 and the
    message of the reservation step. *)
Lemma create_order_aborts msg skus w3 :
  reservation_needed order = true →
  crud.process_inventory_for_order (oc_items order) true tok w0
  = (Ret (false, msg, skus), w3) →
  main.create_order order user w = (Raise (HTTPException 400 (default "" msg)), w3).
Proof.
  intros Hneed Hproc. unfold main.create_order.
  rewrite bind_eq, get_order_eq, Hfresh.
  rewrite bool_decide_eq_false_2 by by intros [? [=]].
  rewrite (proj1 (authorized_check _ _) Hauth).
  rewrite (bind_ret _ _ _ _ _ Hvalid). cbn [negb].
  unfold reservation_needed in Hneed. rewrite Hneed.
  rewrite bind_eq. by rewrite (bind_ret _ _ _ _ _ Hproc).
Qed.

(** Past the reservation the create is the store step: the row is
    flushed, then its event. *)
Lemma create_order_past_reservation w1 :
  (if reservation_needed order
   then ∃ m' skus, crud.process_inventory_for_order (oc_items order) true tok w0
                   = (Ret (true, m', skus), w1)
   else w1 = w0) →
  main.create_order order user w
  = try_except
      (db_order ← crud.create_order order;
       main.log_order_event (oc_id order) "created"
         ("Order created with status '" +:+ oc_status order +:+ "'")
         None (Some (oc_status order)) (Some (cu_id user));;
       mret db_order)
      (λ e, raise (HTTPException 500 ("Failed to create order: " +:+ exn_str e))) w1.
Proof.
  intros Hres. unfold main.create_order.
  rewrite bind_eq, get_order_eq, Hfresh.
  rewrite bool_decide_eq_false_2 by by intros [? [=]].
  rewrite (proj1 (authorized_check _ _) Hauth).
  rewrite (bind_ret _ _ _ _ _ Hvalid). cbn [negb].
  unfold reservation_needed in Hres. rewrite bind_eq.
  destruct (nonempty (oc_items order) && bool_decide (oc_status order ≠ "cancelled")).
  - destruct Hres as (m' & skus & Hproc). by rewrite (bind_ret _ _ _ _ _ Hproc).
  - by subst w1.
Qed.

End create.

(** [crud.create_order]: the row is appended as the store keeps it, or
    the store refuses it and nothing is written. *)
Lemma crud_create_order_spec order w1 :
  (int32 (oc_user_id order) ∧ fits_total (oc_total order)
   ∧ crud.create_order order w1
     = (Ret (created_row order), set_orders (orders w1 ++ [created_row order]) w1))
  ∨ (¬ (int32 (oc_user_id order) ∧ fits_total (oc_total order))
     ∧ ∃ msg, crud.create_order order w1 = (Raise (DBAPIError msg), w1)).
Proof.
  unfold crud.create_order. cbn zeta. rewrite bind_eq. unfold lift.
  destruct (insert_order_spec
              {| id := oc_id order; user_id := oc_user_id order; total := oc_total order;
                 status := oc_status order;
                 items := Some (stored_item <$> oc_items order) |})
    as [(Hu & Ht & Hins)|(Hno & msg & Hins)]; cbn [user_id total id status items] in *;
    rewrite Hins.
  - left. by split_and!.
  - right. split; [done|]. by eexists.
Qed.

(** The store step of [create_order]: the row and its event are written
    when the store takes both; a row that is refused leaves nothing; an
    event that is refused leaves the row without its event.  Either
    refusal is answered 500. *)
Lemma create_store_step order user w1 :
  let step :=
    try_except
      (db_order ← crud.create_order order;
       main.log_order_event (oc_id order) "created"
         ("Order created with status '" +:+ oc_status order +:+ "'")
         None (Some (oc_status order)) (Some (cu_id user));;
       mret db_order)
      (λ e, raise (HTTPException 500 ("Failed to create order: " +:+ exn_str e))) w1 in
  (int32 (oc_user_id order) ∧ fits_total (oc_total order) ∧ int32 (cu_id user)
   ∧ step = (Ret (created_row order), persisted order (cu_id user) w1))
  ∨ (¬ (int32 (oc_user_id order) ∧ fits_total (oc_total order))
     ∧ ∃ detail, step = (Raise (HTTPException 500 detail), w1))
  ∨ (int32 (oc_user_id order) ∧ fits_total (oc_total order) ∧ ¬ int32 (cu_id user)
     ∧ ∃ detail, step = (Raise (HTTPException 500 detail),
                         set_orders (orders w1 ++ [created_row order]) w1)).
Proof.
  cbn zeta. unfold try_except. rewrite bind_eq.
  destruct (crud_create_order_spec order w1) as [(Hu & Ht & ->)|(Hno & msg & ->)].
  - rewrite bind_eq.
    destruct (log_order_event_spec (oc_id order) "created"
                ("Order created with status '" +:+ oc_status order +:+ "'")
                None (Some (oc_status order)) (cu_id user)
                (set_orders (orders w1 ++ [created_row order]) w1))
      as [(Hc & ->)|(Hc & msg & ->)].
    + left. by split_and!.
    + right. right. split_and!; try done. by eexists.
  - right. left. split; [done|]. by eexists.
Qed.

(** What a successful create has gone through. *)
Lemma create_order_inv order user w r w' :
  main.create_order order user w = (Ret r, w') →
  lookup_order (oc_id order) w = None
  ∧ authorized user (oc_user_id order)
  ∧ int32 (oc_user_id order) ∧ fits_total (oc_total order) ∧ int32 (cu_id user)
  ∧ ∃ m w0 w1,
      crud.validate_order_data order (Some (cu_token user)) w = (Ret (true, m), w0)
      ∧ (if reservation_needed order
         then ∃ m' skus,
             crud.process_inventory_for_order (oc_items order) true
               (Some (cu_token user)) w0 = (Ret (true, m', skus), w1)
         else w1 = w0)
      ∧ r = created_row order
      ∧ w' = persisted order (cu_id user) w1.
Proof.
  intros Hrun.
  assert (lookup_order (oc_id order) w = None) as Hfresh.
  { destruct (lookup_order (oc_id order) w) eqn:Hl; [|done].
    rewrite create_order_existing in Hrun by eauto. discriminate. }
  revert Hrun. unfold main.create_order. rewrite bind_eq, get_order_eq, Hfresh.
  rewrite bool_decide_eq_false_2 by by intros [? [=]].
  destruct (bool_decide (cu_role user ≠ "admin") && bool_decide (oc_user_id order ≠ cu_id user))
    eqn:Hauth; [discriminate|].
  apply authorized_check in Hauth.
  destruct (validate_order_data_spec order (Some (cu_token user)) w)
    as (is_valid & m & w0 & Hvalid & Hro).
  rewrite (bind_ret _ _ _ _ _ Hvalid).
  destruct is_valid; cbn [negb]; [|case_match; discriminate].
  rewrite bind_eq. unfold reservation_needed.
  destruct (nonempty (oc_items order) && bool_decide (oc_status order ≠ "cancelled"))
    eqn:Hneed.
  - rewrite bind_eq.
    destruct (crud.process_inventory_for_order _ _ _ w0) as [[[[success m'] skus]|e] w1]
      eqn:Hproc; [|discriminate].
    destruct success; cbn [negb]; [|discriminate].
    destruct (create_store_step order user w1)
      as [(Hu & Ht & Hc & Hstep)|[(_ & detail & Hstep)|(_ & _ & _ & detail & Hstep)]];
      cbn zeta in Hstep; cbn [mret M_ret]; rewrite Hstep; [|discriminate..].
    intros [= <- <-]. split_and!; try done.
    exists m, w0, w1. eauto 10.
  - cbn [mret M_ret].
    destruct (create_store_step order user w0)
      as [(Hu & Ht & Hc & Hstep)|[(_ & detail & Hstep)|(_ & _ & _ & detail & Hstep)]];
      cbn zeta in Hstep; rewrite Hstep; [|discriminate..].
    intros [= <- <-]. split_and!; try done.
    exists m, w0, w0. eauto 10.
Qed.

(** A successful create leaves its row in the table. *)
Lemma create_order_stores order user w r w' :
  main.create_order order user w = (Ret r, w') →
  lookup_order (oc_id order) w' = Some r ∧ r = created_row order.
Proof.
  intros (Hfresh & _ & _ & _ & _ & m & w0 & w1 & Hvalid & Hres & -> & ->)%create_order_inv.
  split; [|done].
  destruct (validate_order_data_spec order (Some (cu_token user)) w)
    as (? & ? & ? & Hvalid' & (_ & _ & Ho0 & _)).
  rewrite Hvalid in Hvalid'. injection Hvalid' as <- <- <-.
  assert (orders w1 = orders w0) as Ho1.
  { destruct (reservation_needed order); [|by subst].
    destruct Hres as (m' & skus & Hproc).
    by apply process_reserved in Hproc as (_ & _ & _ & (? & _) & _). }
  unfold lookup_order, persisted. cbn.
  apply find_snoc_fresh; [done|]. by rewrite Ho1, Ho0.
Qed.

(** The create succeeds when the validation and the reservation do and
    the store takes the row and its event. *)
Lemma create_order_commits order user w w0 m w1 :
  lookup_order (oc_id order) w = None →
  authorized user (oc_user_id order) →
  crud.validate_order_data order (Some (cu_token user)) w = (Ret (true, m), w0) →
  (if reservation_needed order
   then ∃ m' skus, crud.process_inventory_for_order (oc_items order) true
                     (Some (cu_token user)) w0 = (Ret (true, m', skus), w1)
   else w1 = w0) →
  int32 (oc_user_id order) → fits_total (oc_total order) → int32 (cu_id user) →
  main.create_order order user w
  = (Ret (created_row order), persisted order (cu_id user) w1).
Proof.
  intros Hfresh Hauth Hvalid Hres Hu Ht Hc.
  rewrite (create_order_past_reservation order user w w0 m Hfresh Hauth Hvalid w1 Hres).
  destruct (create_store_step order user w1)
    as [(_ & _ & _ & Hstep)|[(Hno & _)|(_ & _ & Hno & _)]]; [done|tauto|tauto].
Qed.

(** ** Two runs of the create saga *)

(** Five units of X with five on hand: the create succeeds, the stock of
    X drops to 0, and one [created] event is logged. *)
Example create_reserves_and_logs :
  ∃ w', main.create_order examples.order_x5 examples.alice examples.shop
        = (Ret (created_row examples.order_x5), w')
    ∧ calls w' = [Reduce "X" 5]
    ∧ stock "X" w' = Some 0
    ∧ orders w' = [created_row examples.order_x5]
    ∧ order_events w' = [created_event examples.order_x5 1].
Proof. eexists. split_and!; vm_compute; reflexivity. Qed.

(** The same request with three on hand: the stock check of the
    validation rejects it; nothing is reserved, stored or logged. *)
Example create_rejects_insufficient_stock :
  ∃ w', main.create_order examples.order_x5 examples.alice
          (set_inventory [examples.row 1 "X" 3] examples.shop)
        = (Raise (HTTPException 400
             "Insufficient stock for SKU 'X'. Available: 3, Required: 5"), w')
    ∧ calls w' = [] ∧ stock "X" w' = Some 3 ∧ orders w' = [] ∧ order_events w' = [].
Proof. eexists. split_and!; vm_compute; reflexivity. Qed.

(** C7: creating an order whose id already exists is rejected, and the
    rejected attempt leaves the world exactly as it found it: no request
    is sent to the Inventory service (no reserve, no release, not even a
    read), no order row and no timeline event is written.  The first
    part is the rejection for any world in which the id is taken; the
    second is the second attempt after a successful create. *)
Theorem C7_duplicate_id_rejected :
  (∀ order user w,
     is_Some (lookup_order (oc_id order) w) →
     main.create_order order user w
     = (Raise (HTTPException 400 "Order ID already exists"), w))
  ∧ (∀ first second user1 user2 w r w1,
       main.create_order first user1 w = (Ret r, w1) →
       oc_id second = oc_id first →
       main.create_order second user2 w1
       = (Raise (HTTPException 400 "Order ID already exists"), w1)).
Proof.
  split.
  - apply create_order_existing.
  - intros first second user1 user2 w r w1 [Hrow _]%create_order_stores Hid.
    apply create_order_existing. rewrite Hid, Hrow. eauto.
Qed.

(** A second create under the id of an order just created. *)
Lemma C7_duplicate_id_rejected_witness :
  main.create_order examples.order_x5 examples.alice examples.shop
  = (Ret (created_row examples.order_x5),
     snd (main.create_order examples.order_x5 examples.alice examples.shop))
  ∧ oc_id examples.order_y1_same_id = oc_id examples.order_x5
  ∧ main.create_order examples.order_y1_same_id examples.alice
      (snd (main.create_order examples.order_x5 examples.alice examples.shop))
    = (Raise (HTTPException 400 "Order ID already exists"),
       snd (main.create_order examples.order_x5 examples.alice examples.shop)).
Proof.
  assert (main.create_order examples.order_x5 examples.alice examples.shop
          = (Ret (created_row examples.order_x5),
             snd (main.create_order examples.order_x5 examples.alice examples.shop)))
    as Hfirst by (vm_compute; reflexivity).
  split_and!; [exact Hfirst | reflexivity |].
  exact (proj2 C7_duplicate_id_rejected examples.order_x5 examples.order_y1_same_id
           examples.alice examples.alice examples.shop _ _ Hfirst eq_refl).
Defined.

(** ** The total is not checked on create *)

(** [validate_order_data] and the reservation step do not read the
    claimed total. *)
Lemma validate_order_data_with_total t order tok w :
  crud.validate_order_data (with_total t order) tok w
  = crud.validate_order_data order tok w.
Proof. reflexivity. Qed.

(** C3, as stated, has the create path check the claimed total against
    the line items before it persists.  Here an order of two units at
    10.00 claims a total of 999.00: [validate_order_total] rejects the
    pair, and [create_order] persists the order all the same. *)
Lemma C3_mismatched_total_counterexample :
  (∀ str, fst (validators.validate_order_total str
                 (oc_items examples.order_x2_overcharged)
                 (oc_total examples.order_x2_overcharged)) = false)
  ∧ ∃ w', main.create_order examples.order_x2_overcharged examples.alice examples.shop
          = (Ret (created_row examples.order_x2_overcharged), w')
      ∧ lookup_order "O1" w' = Some (created_row examples.order_x2_overcharged)
      ∧ total (created_row examples.order_x2_overcharged) = Q2Qc 999.
Proof.
  split.
  - intros str. vm_compute. reflexivity.
  - eexists. split_and!; [vm_compute; reflexivity ..|].
    apply Qc_is_canon. vm_compute. reflexivity.
Qed.

(** C3 (amended): the create path does not invoke
    [validate_order_total].  Whenever a create request succeeds, the same
    request with any other claimed total goes the same way up to the
    store: if the total fits the Numeric(10, 2) column, the create
    succeeds as well and the order is persisted with that total rounded to
    two decimals, every other field as before; if it does not fit, the
    create is answered 500 and no row is written.  In both cases the
    inventory is reserved as for the original request. *)
Theorem C3_total_not_checked_on_create :
  ∀ order user w r w' t,
    main.create_order order user w = (Ret r, w') →
    (fits_total t →
     ∃ r2 w2,
       main.create_order (with_total t order) user w = (Ret r2, w2)
       ∧ total r2 = rounded t
       ∧ id r2 = id r ∧ user_id r2 = user_id r ∧ status r2 = status r ∧ items r2 = items r
       ∧ lookup_order (oc_id order) w2 = Some r2
       ∧ inventory w2 = inventory w' ∧ calls w2 = calls w')
    ∧ (¬ fits_total t →
       ∃ detail w2,
         main.create_order (with_total t order) user w
         = (Raise (HTTPException 500 detail), w2)
         ∧ orders w2 = orders w ∧ order_events w2 = order_events w
         ∧ inventory w2 = inventory w' ∧ calls w2 = calls w').
Proof.
  intros order user w r w' t Hrun.
  destruct (create_order_inv _ _ _ _ _ Hrun)
    as (Hfresh & Hauth & Hu & _ & Hc & m & w0 & w1 & Hvalid & Hres & -> & ->).
  assert (local_frame w w1) as (Ho1 & He1 & _).
  { destruct (validate_order_data_spec order (Some (cu_token user)) w)
      as (? & ? & ? & Hvalid' & (_ & _ & Hframe0)).
    rewrite Hvalid in Hvalid'. injection Hvalid' as <- <- <-.
    destruct (reservation_needed order); [|by subst].
    destruct Hres as (m' & skus & Hproc).
    apply process_reserved in Hproc as (_ & _ & _ & Hframe1 & _).
    by eapply local_frame_trans. }
  split.
  - intros Ht.
    pose proof (create_order_commits (with_total t order) user w w0 m w1
                  Hfresh Hauth Hvalid Hres Hu Ht Hc) as Hrun'.
    exists (created_row (with_total t order)),
      (persisted (with_total t order) (cu_id user) w1).
    split_and!; try done.
    by apply create_order_stores in Hrun' as [? _].
  - intros Ht.
    rewrite (create_order_past_reservation (with_total t order) user w w0 m
               Hfresh Hauth Hvalid w1 Hres).
    destruct (create_store_step (with_total t order) user w1)
      as [(_ & Ht' & _)|[(_ & detail & ->)|(_ & Ht' & _)]]; [done| |done].
    exists detail, w1. by split_and!.
Qed.

(** A request for 20.00 worth of items that claims 999.00. *)
Lemma C3_total_not_checked_on_create_witness :
  main.create_order examples.order_x2 examples.alice examples.shop
  = (Ret (created_row examples.order_x2),
     snd (main.create_order examples.order_x2 examples.alice examples.shop))
  ∧ fits_total (Q2Qc 999)
  ∧ ∃ r2 w2,
      main.create_order (with_total (Q2Qc 999) examples.order_x2) examples.alice
        examples.shop = (Ret r2, w2)
      ∧ total r2 = rounded (Q2Qc 999)
      ∧ id r2 = id (created_row examples.order_x2)
      ∧ user_id r2 = user_id (created_row examples.order_x2)
      ∧ status r2 = status (created_row examples.order_x2)
      ∧ items r2 = items (created_row examples.order_x2)
      ∧ lookup_order (oc_id examples.order_x2) w2 = Some r2
      ∧ inventory w2
        = inventory (snd (main.create_order examples.order_x2 examples.alice examples.shop))
      ∧ calls w2
        = calls (snd (main.create_order examples.order_x2 examples.alice examples.shop)).
Proof.
  assert (main.create_order examples.order_x2 examples.alice examples.shop
          = (Ret (created_row examples.order_x2),
             snd (main.create_order examples.order_x2 examples.alice examples.shop)))
    as Hrun by (vm_compute; reflexivity).
  assert (fits_total (Q2Qc 999)) as Hfit by (vm_compute; reflexivity).
  split; [exact Hrun|]. split; [exact Hfit|].
  exact (proj1 (C3_total_not_checked_on_create examples.order_x2 examples.alice
                  examples.shop _ _ (Q2Qc 999) Hrun) Hfit).
Defined.
(** ** Rollback on the create path *)

Lemma releases_app (cs1 cs2 : list Call) :
  releases (cs1 ++ cs2) = releases cs1 ++ releases cs2.
Proof. apply List.filter_app. Qed.

Lemma releases_reduce (lines : list OrderItem) : releases (reduce_call <$> lines) = [].
Proof. by induction lines. Qed.

Lemma releases_restore (lines : list OrderItem) :
  releases (restore_call <$> lines) = restore_call <$> lines.
Proof. unfold releases. induction lines as [|x l IH]; [done|]. cbn. by rewrite IH. Qed.

(** The create saga with unique SKUs: when the reservation of an item
    fails after the items before it were reserved, exactly those items
    are released, in the order they were reserved, and the caller gets
    status 400 with the reason of the failed reservation, whatever the
    releases themselves answer. *)
Lemma create_rollback_unique_skus order user w m w0 pre item post m1 skus w1 reason w2 :
  lookup_order (oc_id order) w = None →
  authorized user (oc_user_id order) →
  crud.validate_order_data order (Some (cu_token user)) w = (Ret (true, m), w0) →
  oc_status order ≠ "cancelled" →
  oc_items order = pre ++ item :: post →
  NoDup (sku <$> oc_items order) →
  crud.process_inventory_for_order pre true (Some (cu_token user)) w0
  = (Ret (true, m1, skus), w1) →
  inventory_client.reduce_inventory (sku item) (quantity item) (Some (cu_token user)) w1
  = (Ret (false, Some reason), w2) →
  ∃ w3,
    main.create_order order user w
    = (Raise (HTTPException 400 ("Inventory deduction failed: " +:+ reason)), w3)
    ∧ calls w3 = calls w ++ (reduce_call <$> pre ++ [item]) ++ (restore_call <$> pre)
    ∧ releases (calls w3) = releases (calls w) ++ (restore_call <$> pre)
    ∧ orders w3 = orders w ∧ order_events w3 = order_events w.
Proof.
  intros Hfresh Hauth Hvalid Hstatus Hitems Hnd Hpre Hred.
  destruct (process_first_failure pre item post _ _ _ _ _ _ _ Hpre Hred)
    as (w3 & Hproc & Hcalls2 & Hcalls3 & (Ho3 & He3 & _)).
  destruct (validate_order_data_spec order (Some (cu_token user)) w)
    as (? & ? & ? & Hvalid' & (_ & Hc0 & Ho0 & He0 & _)).
  rewrite Hvalid in Hvalid'. injection Hvalid' as <- <- <-.
  rewrite <- Hitems in Hproc.
  rewrite lines_with_sku_unique in Hcalls3 by by rewrite <- Hitems.
  assert (reservation_needed order = true) as Hneed.
  { unfold reservation_needed. rewrite Hitems, bool_decide_eq_true_2 by done.
    by destruct pre. }
  assert (calls w3 = calls w ++ (reduce_call <$> pre ++ [item]) ++ (restore_call <$> pre))
    as Hcalls.
  { by rewrite Hcalls3, Hcalls2, Hc0, <- app_assoc. }
  exists w3. split_and!.
  - by rewrite (create_order_aborts order user w w0 m Hfresh Hauth Hvalid _ _ _ Hneed Hproc).
  - done.
  - by rewrite Hcalls, !releases_app, releases_reduce, releases_restore.
  - by rewrite Ho3, Ho0.
  - by rewrite He3, He0.
Qed.

(** An instance with two releases of which the first fails: after the
    validation (five requests) and two reservations (four requests), the
    reservation of Z cannot reach the service; the release of X is then
    refused by the service, the release of Y goes through, and the caller
    still gets the reason of the failed reservation. *)
Example create_rollback_release_fails :
  ∃ w3, main.create_order examples.order_xyz examples.alice examples.shop_release_fails
        = (Raise (HTTPException 400
             "Inventory deduction failed: Inventory service error: timed out"), w3)
    ∧ calls w3 = [Reduce "X" 1; Reduce "Y" 1; Reduce "Z" 1; Restore "X" 1; Restore "Y" 1]
    ∧ stock "X" w3 = Some 4 ∧ stock "Y" w3 = Some 3 ∧ stock "Z" w3 = Some 7.
Proof. eexists. split_and!; vm_compute; reflexivity. Qed.

(** C1 at a list with a repeated SKU: the order has two lines for X, 2
    and 4 units, and 5 are on hand.  Both lines pass the stock check, the
    first reservation succeeds and the second (k = 2) fails.  The rollback
    then releases every line whose SKU is X: two releases instead of k - 1
    = 1, one of them for the line that was never reserved, and the stock
    ends at 9 instead of 5. *)
Theorem C1_rollback_with_repeated_sku :
  ∃ w', main.create_order examples.order_xx examples.alice examples.shop
        = (Raise (HTTPException 400
             "Inventory deduction failed: Insufficient inventory for SKU 'X'. Available: 3, Requested: 4"),
           w')
    ∧ calls w' = [Reduce "X" 2; Reduce "X" 4; Restore "X" 2; Restore "X" 4]
    ∧ length (releases (calls w')) = 2%nat
    ∧ stock "X" examples.shop = Some 5
    ∧ stock "X" w' = Some 9.
Proof. eexists. split_and!; vm_compute; reflexivity. Qed.

(** C10: when the reservation of an item fails after the items before it
    were reserved, the rollback releases every line of the whole list
    whose SKU is among the reserved ones.  If the failing line repeats a
    reserved SKU, it is released too, although it was never reserved, and
    there are more releases than reservations; with two lines for X (2
    and 4 units, 5 on hand) the stock ends at 9.  With unique SKUs the
    released lines are exactly the reserved prefix. *)
Theorem C10_rollback_releases_by_sku :
  (∀ pre item post tok w m skus w1 msg w2,
     crud.process_inventory_for_order pre true tok w = (Ret (true, m, skus), w1) →
     inventory_client.reduce_inventory (sku item) (quantity item) tok w1
     = (Ret (false, msg), w2) →
     ∃ w3,
       crud.process_inventory_for_order (pre ++ item :: post) true tok w
       = (Ret (false, Some ("Inventory deduction failed: " +:+ str_optional msg), []), w3)
       ∧ calls w3 = calls w ++ (reduce_call <$> pre ++ [item])
                    ++ (restore_call <$> lines_with_sku (sku <$> pre) (pre ++ item :: post))
       ∧ (sku item ∈ sku <$> pre →
          item ∈ lines_with_sku (sku <$> pre) (pre ++ item :: post)
          ∧ (length pre < length (lines_with_sku (sku <$> pre) (pre ++ item :: post)))%nat)
       ∧ (NoDup (sku <$> pre ++ item :: post) →
          lines_with_sku (sku <$> pre) (pre ++ item :: post) = pre))
  ∧ (∃ w', crud.process_inventory_for_order (oc_items examples.order_xx) true None
             examples.shop
           = (Ret (false,
                   Some "Inventory deduction failed: Insufficient inventory for SKU 'X'. Available: 3, Requested: 4",
                   []), w')
       ∧ calls w' = [Reduce "X" 2; Reduce "X" 4; Restore "X" 2; Restore "X" 4]
       ∧ stock "X" examples.shop = Some 5 ∧ stock "X" w' = Some 9).
Proof.
  split.
  - intros pre item post tok w m skus w1 msg w2 Hpre Hred.
    destruct (process_first_failure pre item post _ _ _ _ _ _ _ Hpre Hred)
      as (w3 & Hproc & Hcalls2 & Hcalls3 & _).
    exists w3. split_and!.
    + done.
    + by rewrite Hcalls3, Hcalls2, <- app_assoc.
    + intros Hdup. rewrite lines_with_sku_prefix. cbn.
      rewrite bool_decide_eq_true_2 by done. split.
      * apply elem_of_app. right. left.
      * rewrite length_app. cbn. lia.
    + apply lines_with_sku_unique.
  - eexists. split_and!; vm_compute; reflexivity.
Qed.

(** Two lines for X, the second of which cannot be reserved. *)
Lemma C10_rollback_releases_by_sku_witness :
  ∃ w3,
    crud.process_inventory_for_order
      ([examples.line "X" 2 10] ++ examples.line "X" 4 10 :: []) true None examples.shop
    = (Ret (false,
            Some ("Inventory deduction failed: "
                  +:+ str_optional (Some "Insufficient inventory for SKU 'X'. Available: 3, Requested: 4")),
            []), w3)
    ∧ calls w3 = calls examples.shop
                 ++ (reduce_call <$> [examples.line "X" 2 10] ++ [examples.line "X" 4 10])
                 ++ (restore_call <$> lines_with_sku (sku <$> [examples.line "X" 2 10])
                                        ([examples.line "X" 2 10] ++ examples.line "X" 4 10 :: [])).
Proof.
  destruct (proj1 C10_rollback_releases_by_sku
              [examples.line "X" 2 10] (examples.line "X" 4 10) [] None examples.shop
              None ["X"]
              (snd (crud.process_inventory_for_order [examples.line "X" 2 10] true None
                      examples.shop))
              (Some "Insufficient inventory for SKU 'X'. Available: 3, Requested: 4")
              (snd (inventory_client.reduce_inventory "X" 4 None
                      (snd (crud.process_inventory_for_order [examples.line "X" 2 10] true
                              None examples.shop)))))
    as (w3 & Hrun & Hcalls & _).
  - vm_compute; reflexivity.
  - vm_compute; reflexivity.
  - exists w3. split; assumption.
Defined.

(** ** Unreachable services *)

Lemma prefix_append (p s : string) : String.prefix p (p +:+ s) = true.
Proof.
  induction p as [|c p IH]; [by destruct s|].
  change (String c p +:+ s) with (String c (p +:+ s)). cbn.
  by destruct (Ascii.ascii_dec c c).
Qed.

Lemma str_contains_prefix (p s : string) : str_contains p (p +:+ s) = true.
Proof.
  pose proof (prefix_append p s) as H.
  destruct (p +:+ s); cbn [str_contains]; by rewrite H.
Qed.

(** During the remote validation an unreachable service is reported with
    status 503: here the very first request, the one to the Users
    service, fails in transport. *)
Lemma create_validation_unreachable order user w msg fs :
  lookup_order (oc_id order) w = None →
  authorized user (oc_user_id order) →
  faults w = Unreachable msg :: fs →
  main.create_order order user w
  = (Raise (HTTPException 503 ("Service communication error: " +:+ msg)), set_faults fs w).
Proof.
  intros Hfresh Hauth Hfaults. unfold main.create_order.
  rewrite bind_eq, get_order_eq, Hfresh.
  rewrite bool_decide_eq_false_2 by by intros [? [=]].
  rewrite (proj1 (authorized_check _ _) Hauth).
  assert (crud.validate_order_data order (Some (cu_token user)) w
          = (Ret (false, Some ("Service communication error: " +:+ msg)), set_faults fs w))
    as Hvalid.
  { unfold crud.validate_order_data. unfold_M. by rewrite Hfaults. }
  rewrite (bind_ret _ _ _ _ _ Hvalid). cbn [negb from_option Datatypes.id].
  change ("Service communication error: " +:+ msg)
    with ("Service communication error" +:+ (": " +:+ msg)) at 1.
  by rewrite str_contains_prefix.
Qed.

(** During the reservation every failure, an unreachable service
    included, is reported with status 400. *)
Lemma create_reservation_failure_status order user w m w0 msg skus w3 :
  lookup_order (oc_id order) w = None →
  authorized user (oc_user_id order) →
  crud.validate_order_data order (Some (cu_token user)) w = (Ret (true, m), w0) →
  reservation_needed order = true →
  crud.process_inventory_for_order (oc_items order) true (Some (cu_token user)) w0
  = (Ret (false, msg, skus), w3) →
  ∃ detail, main.create_order order user w = (Raise (HTTPException 400 detail), w3).
Proof. intros. eexists. by eapply create_order_aborts. Qed.

(** C5 at an unreachable Inventory service: the three requests of the
    validation are answered, then the first request of the reservation
    step times out.  The caller gets status 400, the status of a failed
    validation, not 503. *)
Theorem C5_reservation_unreachable_is_400 :
  faults examples.shop_reservation_times_out
  = [Healthy; Healthy; Healthy; Unreachable "timed out"]
  ∧ ∃ w', main.create_order examples.order_x5 examples.alice
            examples.shop_reservation_times_out
          = (Raise (HTTPException 400
               "Inventory deduction failed: Inventory service error: timed out"), w')
      ∧ calls w' = [Reduce "X" 5]
      ∧ faults w' = [].
Proof. split; [reflexivity|]. eexists. split_and!; vm_compute; reflexivity. Qed.

(** ** The update path *)

Lemma find_order_id (order_id : string) (rows : list Order) (row : Order) :
  List.find (λ o, bool_decide (id o = order_id)) rows = Some row → id row = order_id.
Proof. intros [_ H]%List.find_some. by apply bool_decide_eq_true in H. Qed.

Lemma find_replace_row (order_id : string) (rows : list Order) (row new_row : Order) :
  List.find (λ o, bool_decide (id o = order_id)) rows = Some row →
  id new_row = order_id →
  List.find (λ o, bool_decide (id o = order_id)) (crud.replace_row order_id new_row rows)
  = Some new_row.
Proof.
  intros Hfind Hid. induction rows as [|r rows IH]; [done|]. cbn in *.
  case_bool_decide; cbn.
  - by rewrite bool_decide_eq_true_2.
  - rewrite bool_decide_eq_false_2 by done. by apply IH.
Qed.

Lemma storable_patch_status st : text_ok st → storable (examples.patch_status st).
Proof.
  intros Hst. split; [split_and!; [exact I|exact I|discriminate]|].
  split_and!; [discriminate| |discriminate]. by intros s [= <-].
Qed.

Lemma store_takes_dec patch : store_takes patch ∨ ¬ store_takes patch.
Proof.
  unfold store_takes.
  assert (∀ P Q R : Prop, P ∨ ¬ P → Q ∨ ¬ Q → R ∨ ¬ R → (P ∧ Q ∧ R) ∨ ¬ (P ∧ Q ∧ R))
    as Hand by tauto.
  apply Hand.
  - destruct (ou_user_id patch); [tauto | tauto | apply int32_dec].
  - destruct (ou_total patch); [tauto | tauto | apply fits_total_dec].
  - destruct (ou_status patch); [left | right | left]; congruence.
Qed.

(** The flush of a patched row: the store takes the patch, and the row
    is the old one with every set field replaced, or it refuses it. *)
Lemma apply_update_spec existing patch :
  (store_takes patch
   ∧ crud.apply_update existing patch = Ret (patched_row existing patch))
  ∨ (¬ store_takes patch
     ∧ ∃ msg, crud.apply_update existing patch = Raise (DBAPIError msg)).
Proof.
  unfold store_takes, crud.apply_update, patched_row, store.set_integer, store.set_numeric,
    store.set_string.
  destruct (ou_user_id patch) as [| |n].
  2: { right. split; [tauto|]. by eexists. }
  all: destruct (ou_total patch) as [| |t].
  all: destruct (ou_status patch) as [| |s].
  all: try destruct (int32_dec n) as [Hn|Hn];
    try rewrite (integer_column_true _ Hn); try rewrite (integer_column_false _ Hn).
  all: try destruct (fits_total_dec t) as [Ht|Ht];
    try rewrite (numeric_10_2_fits _ Ht); try rewrite (numeric_10_2_overflow _ Ht).
  all: first [ left; split; [split_and!; done | reflexivity]
             | right; split; [tauto | by eexists] ].
Qed.

(** [crud.update_order] on a row that is on file. *)
Lemma crud_update_order_spec order_id patch existing w1 :
  lookup_order order_id w1 = Some existing →
  (store_takes patch
   ∧ crud.update_order order_id patch w1
     = (Ret (Some (patched_row existing patch)),
        set_orders (crud.replace_row order_id (patched_row existing patch) (orders w1)) w1)
   ∧ lookup_order order_id
       (set_orders (crud.replace_row order_id (patched_row existing patch) (orders w1)) w1)
     = Some (patched_row existing patch))
  ∨ (¬ store_takes patch
     ∧ ∃ msg, crud.update_order order_id patch w1 = (Raise (DBAPIError msg), w1)).
Proof.
  intros Hfound. unfold crud.update_order. rewrite bind_eq, get_order_eq, Hfound.
  rewrite bind_eq. unfold lift.
  destruct (apply_update_spec existing patch) as [(Hok & ->)|(Hno & msg & ->)].
  - left. split_and!; [done|done|].
    unfold lookup_order in *. cbn.
    apply (find_replace_row _ _ existing); [done|]. cbn. by eapply find_order_id.
  - right. split; [done|]. by eexists.
Qed.

Lemma status_change_new_status patch existing :
  main.status_change patch existing
  = (λ s, (status existing, s)) <$> new_status_of patch existing.
Proof.
  unfold main.status_change, new_status_of.
  destruct (ou_status patch); [done..|]. by destruct (_ && _).
Qed.

Lemma new_status_of_value patch existing new_status :
  ou_status patch = Value new_status → new_status ≠ "" → new_status ≠ status existing →
  new_status_of patch existing = Some new_status.
Proof.
  intros Hst Hset Hchange. unfold new_status_of. rewrite Hst.
  by rewrite !bool_decide_eq_true_2.
Qed.

(** [update_order] is the ownership check, the inventory step, and the
    write of the row and of its event. *)
Lemma update_order_step_raises order_id patch user existing w e w1 :
  lookup_order order_id w = Some existing →
  authorized user (user_id existing) →
  update_inventory_step patch existing user w = (Raise e, w1) →
  main.update_order order_id patch user w = (Raise e, w1).
Proof.
  intros Hfound Hauth Hstep. unfold main.update_order.
  rewrite bind_eq, get_order_eq, Hfound.
  rewrite (proj1 (authorized_check _ _) Hauth). cbn zeta.
  rewrite bind_eq. fold (update_inventory_step patch existing user). by rewrite Hstep.
Qed.

(** After the inventory step: the row and its event are written when
    the store takes both; a patch that is refused leaves the row as it
    was; an event that is refused leaves the patched row without its
    event. *)
Lemma update_order_after_step order_id patch user existing w w1 :
  lookup_order order_id w = Some existing →
  authorized user (user_id existing) →
  update_inventory_step patch existing user w = (Ret tt, w1) →
  orders w1 = orders w →
  (store_takes patch ∧ int32 (cu_id user)
   ∧ main.update_order order_id patch user w
     = (Ret (patched_row existing patch),
        set_order_events
          (order_events w1 ++ [update_event order_id patch existing (cu_id user)])
          (set_orders (crud.replace_row order_id (patched_row existing patch) (orders w1))
             w1)))
  ∨ (¬ store_takes patch
     ∧ ∃ msg, main.update_order order_id patch user w = (Raise (DBAPIError msg), w1))
  ∨ (store_takes patch ∧ ¬ int32 (cu_id user)
     ∧ ∃ msg, main.update_order order_id patch user w
              = (Raise (DBAPIError msg),
                 set_orders (crud.replace_row order_id (patched_row existing patch)
                               (orders w1)) w1)).
Proof.
  intros Hfound Hauth Hstep Ho. unfold main.update_order.
  rewrite bind_eq, get_order_eq, Hfound.
  rewrite (proj1 (authorized_check _ _) Hauth). cbn zeta.
  rewrite bind_eq. fold (update_inventory_step patch existing user). rewrite Hstep.
  rewrite bind_eq.
  destruct (crud_update_order_spec order_id patch existing w1)
    as [(Hok & -> & _)|(Hno & msg & ->)].
  { by rewrite (lookup_order_frame _ _ _ Ho). }
  2: { right. left. split; [done|]. by eexists. }
  rewrite bind_eq. unfold update_event. rewrite status_change_new_status.
  destruct (new_status_of patch existing) as [new_status|]; cbn [fmap option_fmap option_map].
  - destruct (log_order_event_spec order_id "status_changed"
                ("Status changed from '" +:+ status existing +:+ "' to '"
                 +:+ new_status +:+ "'")
                (Some (status existing)) (Some new_status) (cu_id user)
                (set_orders (crud.replace_row order_id (patched_row existing patch)
                               (orders w1)) w1))
      as [(Hc & ->)|(Hc & msg & ->)].
    + left. by split_and!.
    + right. right. split_and!; try done. by eexists.
  - destruct (log_order_event_spec order_id "updated" "Order details updated"
                None None (cu_id user)
                (set_orders (crud.replace_row order_id (patched_row existing patch)
                               (orders w1)) w1))
      as [(Hc & ->)|(Hc & msg & ->)].
    + left. by split_and!.
    + right. right. split_and!; try done. by eexists.
Qed.

(** *** The inventory step *)

(** The dicts that the endpoints store are read back as the line items
    they were made of. *)
Lemma rollback_stored lines processed tok w :
  crud.rollback_inventory_deductions (stored_item <$> lines) processed tok w
  = crud.rollback_inventory_deductions lines processed tok w.
Proof.
  revert w. induction lines as [|line rest IH]; intros w; [done|].
  cbn [fmap list_fmap crud.rollback_inventory_deductions item_sku item_quantity
         OrderItem_like StoredItem_like stored_item st_sku st_quantity].
  rewrite !bind_lift_ret, !bind_eq.
  case_bool_decide.
  - rewrite !bind_lift_ret.
    destruct (_ ≫= _) as [[[]|e] w1]; [apply IH|done].
  - cbn. apply IH.
Qed.

Lemma process_loop_stored all lines deduct tok processed w :
  crud.process_loop (stored_item <$> all) (stored_item <$> lines) deduct tok processed w
  = crud.process_loop all lines deduct tok processed w.
Proof.
  revert processed w. induction lines as [|line rest IH]; intros processed w; [done|].
  cbn [fmap list_fmap crud.process_loop item_sku item_quantity
         OrderItem_like StoredItem_like stored_item st_sku st_quantity].
  destruct deduct.
  - destruct (inventory_client.reduce_inventory _ _ _ _) as [[[success msg]|e] w1]; [|done].
    destruct success; [apply IH|].
    destruct (nonempty processed); [|done].
    by rewrite rollback_stored.
  - destruct (inventory_client.restore_inventory _ _ _ _) as [[[success msg]|e] w1]; [|done].
    destruct success; apply IH.
Qed.

Lemma process_stored lines deduct tok w :
  crud.process_inventory_for_order (stored_item <$> lines) deduct tok w
  = crud.process_inventory_for_order lines deduct tok w.
Proof.
  unfold crud.process_inventory_for_order. rewrite process_loop_stored.
  destruct (crud.process_loop _ _ _ _ _ _) as [[p [r|e]] w1]; [done|].
  rewrite !bind_eq. destruct (deduct && nonempty p); [|done].
  by rewrite rollback_stored.
Qed.

(** Whatever the items are, the inventory code leaves the tables of the
    Orders service alone. *)
Lemma rollback_frame {A} `{ItemLike A} (items : list A) processed tok w :
  ∃ r w', crud.rollback_inventory_deductions items processed tok w = (r, w')
    ∧ local_frame w w'.
Proof.
  revert w. induction items as [|item rest IH]; intros w.
  - do 2 eexists. split; [reflexivity|apply local_frame_refl].
  - cbn [crud.rollback_inventory_deductions].
    destruct (item_sku item) as [s|e].
    2: { rewrite bind_lift_raise. eauto using local_frame_refl. }
    rewrite bind_lift_ret, bind_eq. case_bool_decide.
    + destruct (item_quantity item) as [q|e].
      2: { rewrite bind_lift_raise. eauto using local_frame_refl. }
      rewrite bind_lift_ret.
      destruct (restore_inventory_spec s q tok w) as (ok & msg & w1 & Hrun & _ & Hframe).
      rewrite (bind_ret _ _ _ _ _ Hrun). cbn.
      destruct (IH w1) as (r & w2 & -> & Hframe2).
      eauto using local_frame_trans.
    + cbn. apply IH.
Qed.

Lemma process_loop_frame {A} `{ItemLike A} (all rem : list A) deduct tok p w :
  ∃ p' r w', crud.process_loop all rem deduct tok p w = (p', r, w')
    ∧ local_frame w w'.
Proof.
  revert p w. induction rem as [|item rest IH]; intros p w.
  - do 3 eexists. split; [reflexivity|apply local_frame_refl].
  - cbn [crud.process_loop].
    destruct (item_sku item) as [s|e]; [|eauto 10 using local_frame_refl].
    destruct (item_quantity item) as [q|e]; [|eauto 10 using local_frame_refl].
    destruct deduct.
    + destruct (reduce_inventory_spec s q tok w) as (ok & msg & w1 & -> & _ & Hframe1).
      destruct ok.
      * destruct (IH (p ++ [s]) w1) as (p' & r & w' & -> & Hframe2).
        eauto 10 using local_frame_trans.
      * destruct (nonempty p).
        -- destruct (rollback_frame all p tok w1) as ([[]|e] & w2 & -> & Hframe2);
             eauto 10 using local_frame_trans.
        -- cbn. eauto 10.
    + destruct (restore_inventory_spec s q tok w) as (ok & msg & w1 & -> & _ & Hframe1).
      destruct ok.
      * destruct (IH (p ++ [s]) w1) as (p' & r & w' & -> & Hframe2).
        eauto 10 using local_frame_trans.
      * destruct (IH p w1) as (p' & r & w' & -> & Hframe2).
        eauto 10 using local_frame_trans.
Qed.

Lemma process_frame {A} `{ItemLike A} (items : list A) deduct tok w :
  ∃ r w', crud.process_inventory_for_order items deduct tok w = (r, w')
    ∧ local_frame w w'.
Proof.
  unfold crud.process_inventory_for_order.
  destruct (process_loop_frame items items deduct tok [] w) as (p & r & w1 & -> & Hframe1).
  destruct r as [r|e]; [eauto|].
  rewrite bind_eq. destruct (deduct && nonempty p).
  - destruct (rollback_frame items p tok w1) as ([[]|e'] & w2 & -> & Hframe2);
      cbn; eauto using local_frame_trans.
  - cbn. eauto.
Qed.

(** The line items of the schema never fail to be read, so for them the
    inventory code always answers with its tuple. *)
Lemma process_loop_total all rem deduct tok p w :
  ∃ p' r w', crud.process_loop (A := OrderItem) all rem deduct tok p w = (p', Ret r, w')
    ∧ local_frame w w'.
Proof.
  revert p w. induction rem as [|line rest IH]; intros p w.
  - do 3 eexists. split; [reflexivity|apply local_frame_refl].
  - cbn [crud.process_loop item_sku item_quantity OrderItem_like]. destruct deduct.
    + destruct (reduce_inventory_spec (sku line) (quantity line) tok w)
        as (ok & msg & w1 & -> & _ & Hframe1).
      destruct ok.
      * destruct (IH (p ++ [sku line]) w1) as (p' & r & w' & -> & Hframe2).
        do 3 eexists. split; [reflexivity|by eapply local_frame_trans].
      * destruct p as [|s p]; cbn [nonempty].
        -- cbn. do 3 eexists. split; [reflexivity|done].
        -- destruct (rollback_spec all (s :: p) tok w1) as (w2 & -> & _ & Hframe2).
           do 3 eexists. split; [reflexivity|by eapply local_frame_trans].
    + destruct (restore_inventory_spec (sku line) (quantity line) tok w)
        as (ok & msg & w1 & -> & _ & Hframe1).
      destruct ok.
      * destruct (IH (p ++ [sku line]) w1) as (p' & r & w' & -> & Hframe2).
        do 3 eexists. split; [reflexivity|by eapply local_frame_trans].
      * destruct (IH p w1) as (p' & r & w' & -> & Hframe2).
        do 3 eexists. split; [reflexivity|by eapply local_frame_trans].
Qed.

Lemma process_total (items : list OrderItem) deduct tok w :
  ∃ r w', crud.process_inventory_for_order items deduct tok w = (Ret r, w')
    ∧ local_frame w w'.
Proof.
  unfold crud.process_inventory_for_order.
  destruct (process_loop_total items items deduct tok [] w) as (p' & r & w' & -> & Hframe).
  eauto.
Qed.

(** The inventory step leaves the tables alone, whatever it answers. *)
Lemma update_inventory_step_frame patch existing user w :
  ∃ r w1, update_inventory_step patch existing user w = (r, w1) ∧ local_frame w w1.
Proof.
  unfold update_inventory_step.
  destruct (main.status_change patch existing) as [[old new]|];
    [|eauto using local_frame_refl].
  destruct (_ && _).
  - destruct (nonempty _); [|eauto using local_frame_refl].
    destruct (process_frame (json_list (items existing)) false (Some (cu_token user)) w)
      as ([[[success msg] skus]|e] & w1 & Hproc & Hframe).
    + rewrite (bind_ret _ _ _ _ _ Hproc). destruct success; cbn; eauto.
    + rewrite (bind_raise _ _ _ _ _ Hproc). eauto.
  - destruct (_ && _); [|eauto using local_frame_refl].
    destruct (nonempty _); [|eauto using local_frame_refl].
    destruct (process_frame (json_list (items existing)) true (Some (cu_token user)) w)
      as ([[[success msg] skus]|e] & w1 & Hproc & Hframe).
    + rewrite (bind_ret _ _ _ _ _ Hproc). destruct success; cbn; eauto.
    + rewrite (bind_raise _ _ _ _ _ Hproc). eauto.
Qed.

(** No inventory is involved unless the status change cancels the order
    or takes it out of cancelled, and the order has items. *)
Lemma update_inventory_step_quiet patch existing user w :
  (∀ new_status,
     new_status_of patch existing = Some new_status →
     touches_cancelled (status existing) new_status = false
     ∨ json_list (items existing) = []) →
  update_inventory_step patch existing user w = (Ret tt, w).
Proof.
  intros Hquiet. unfold update_inventory_step. rewrite status_change_new_status.
  destruct (new_status_of patch existing) as [new_status|]; [|done].
  cbn [fmap option_fmap option_map].
  destruct (Hquiet _ eq_refl) as [Hq|Hitems].
  - unfold touches_cancelled in Hq. by apply orb_false_iff in Hq as [-> ->].
  - rewrite Hitems. cbn [nonempty]. by destruct (_ && _); [|destruct (_ && _)].
Qed.

Lemma nonempty_fmap {A B} (f : A → B) (l : list A) : nonempty (f <$> l) = nonempty l.
Proof. by destruct l. Qed.

(** Cancelling an order with well-formed items releases every item and
    goes on, whatever the releases answer. *)
Lemma update_inventory_step_cancel patch existing user lines w :
  new_status_of patch existing = Some "cancelled" →
  items existing = Some (stored_item <$> lines) →
  ∃ w1, update_inventory_step patch existing user w = (Ret tt, w1)
    ∧ calls w1 = calls w ++ (restore_call <$> lines)
    ∧ local_frame w w1.
Proof.
  intros Hnew Hitems. unfold update_inventory_step.
  rewrite status_change_new_status, Hnew. cbn [fmap option_fmap option_map].
  assert (status existing ≠ "cancelled") as Hold.
  { unfold new_status_of in Hnew. destruct (ou_status patch) as [| |s]; [done..|].
    destruct (bool_decide (s ≠ "")); [|done].
    case_bool_decide; [|done]. cbn in Hnew. congruence. }
  rewrite !bool_decide_eq_true_2 by done. cbn [andb]. rewrite Hitems. cbn [json_list].
  rewrite nonempty_fmap.
  destruct (nonempty lines) eqn:Hne.
  - rewrite bind_eq, process_stored.
    destruct (process_release lines (Some (cu_token user)) w)
      as (skus & w1 & -> & Hcalls & Hframe).
    cbn. eauto.
  - destruct lines; [|done]. exists w. cbn. rewrite app_nil_r.
    eauto using local_frame_refl.
Qed.

(** Taking an order with well-formed items out of cancelled reserves
    its items: the step is the reservation. *)
Lemma update_inventory_step_reactivate patch existing user new_status lines w :
  new_status_of patch existing = Some new_status →
  status existing = "cancelled" →
  items existing = Some (stored_item <$> lines) →
  lines ≠ [] →
  update_inventory_step patch existing user w
  = match crud.process_inventory_for_order lines true (Some (cu_token user)) w with
    | (Ret (success, error_msg, _), w1) =>
        if success then (Ret tt, w1)
        else (Raise (HTTPException 400 ("Failed to deduct inventory: "
                                        +:+ str_optional error_msg)), w1)
    | (Raise e, w1) => (Raise e, w1)
    end.
Proof.
  intros Hnew Hold Hitems Hne. unfold update_inventory_step.
  rewrite status_change_new_status, Hnew. cbn [fmap option_fmap option_map].
  assert (new_status ≠ "cancelled") as Hchange.
  { unfold new_status_of in Hnew. destruct (ou_status patch) as [| |s]; [done..|].
    destruct (bool_decide (s ≠ "")); [|done].
    case_bool_decide; [|done]. cbn in Hnew. congruence. }
  rewrite (bool_decide_eq_false_2 (new_status = "cancelled")) by done. cbn [andb].
  rewrite !bool_decide_eq_true_2 by done. cbn [andb]. rewrite Hitems. cbn [json_list].
  rewrite nonempty_fmap. destruct lines as [|line rest]; [done|]. cbn [nonempty].
  rewrite bind_eq, process_stored.
  destruct (crud.process_inventory_for_order _ _ _ _) as [[[[success msg] skus]|e] w1];
    [|done].
  by destruct success.
Qed.

Lemma patched_row_status patch existing new_status :
  ou_status patch = Value new_status → status (patched_row existing patch) = new_status.
Proof. intros Hst. cbn. by rewrite Hst. Qed.

Lemma update_event_status_changed order_id patch existing new_status by_user :
  new_status_of patch existing = Some new_status →
  update_event order_id patch existing by_user
  = status_changed_event order_id (status existing) new_status by_user.
Proof. intros Hnew. unfold update_event. by rewrite Hnew. Qed.

Lemma lookup_replace_row order_id existing row w1 :
  lookup_order order_id w1 = Some existing →
  id row = id existing →
  lookup_order order_id (set_orders (crud.replace_row order_id row (orders w1)) w1)
  = Some row.
Proof.
  intros Hfound Hid. unfold lookup_order in *. cbn.
  apply (find_replace_row _ _ existing); [done|]. rewrite Hid. by eapply find_order_id.
Qed.

(** C8, as stated, has the status change persisted and logged whenever
    an order with items is cancelled.  Here the patch that cancels the
    pending order for X and Y also sets a total of 10^9: both items are
    released, then the store refuses the row; the order is still pending
    and no event is written. *)
Lemma C8_patch_refused_counterexample :
  ∃ msg w',
    main.update_order "O1" (examples.patch_status_and_huge_total "cancelled")
      examples.alice (examples.shop_with examples.pending_xy)
    = (Raise (DBAPIError msg), w')
    ∧ calls w' = [Restore "X" 2; Restore "Y" 1]
    ∧ stock "X" w' = Some 7 ∧ stock "Y" w' = Some 4
    ∧ lookup_order "O1" w' = Some examples.pending_xy
    ∧ status examples.pending_xy = "pending"
    ∧ order_events w' = [].
Proof. do 2 eexists. split_and!; vm_compute; reflexivity. Qed.

(** C8 (amended): when an update moves an order from a status other
    than cancelled to cancelled, and the items of the order are
    well-formed line items, a release is issued for every item, in list
    order, whatever the single releases answer (the theorem holds for
    every fault schedule, so a failed release neither stops the loop nor
    fails the update).  If the store takes the patch and the event, the
    row is then persisted with status cancelled and a status_changed event
    with the old and the new status is appended; if the store refuses the
    patch, the update fails after the releases, and the row and the
    timeline stay as they were. *)
Theorem C8_cancel_releases_every_item :
  ∀ order_id patch user existing lines w,
    lookup_order order_id w = Some existing →
    authorized user (user_id existing) →
    ou_status patch = Value "cancelled" →
    status existing ≠ "cancelled" →
    items existing = Some (stored_item <$> lines) →
    lines ≠ [] →
    ∃ r w',
      main.update_order order_id patch user w = (r, w')
      ∧ calls w' = calls w ++ (restore_call <$> lines)
      ∧ (storable patch → int32 (cu_id user) →
         r = Ret (patched_row existing patch)
         ∧ status (patched_row existing patch) = "cancelled"
         ∧ lookup_order order_id w' = Some (patched_row existing patch)
         ∧ order_events w'
           = order_events w
             ++ [status_changed_event order_id (status existing) "cancelled"
                   (cu_id user)])
      ∧ (¬ store_takes patch →
         (∃ msg, r = Raise (DBAPIError msg))
         ∧ lookup_order order_id w' = Some existing
         ∧ order_events w' = order_events w).
Proof.
  intros order_id patch user existing lines w Hfound Hauth Hstatus Hold Hitems Hlines.
  assert (new_status_of patch existing = Some "cancelled") as Hnew.
  { apply new_status_of_value; [done|done|congruence]. }
  destruct (update_inventory_step_cancel patch existing user lines w Hnew Hitems)
    as (w1 & Hstep & Hcalls & (Ho1 & He1 & _)).
  assert (lookup_order order_id w1 = Some existing) as Hfound1.
  { by rewrite (lookup_order_frame _ _ _ Ho1). }
  destruct (update_order_after_step order_id patch user existing w w1
              Hfound Hauth Hstep Ho1)
    as [(Hok & Hc & ->)|[(Hno & msg & ->)|(Hok & Hc & msg & ->)]].
  - do 2 eexists. split; [reflexivity|]. split_and!; [done| |done].
    intros _ _. split_and!; [done|by apply patched_row_status| |].
    + by apply (lookup_replace_row _ existing).
    + cbn. by rewrite He1, (update_event_status_changed _ _ _ _ _ Hnew).
  - do 2 eexists. split; [reflexivity|]. split_and!; [done|by intros []|].
    intros _. split_and!; [by eexists|done|done].
  - do 2 eexists. split; [reflexivity|]. split_and!; [done|done|done].
Qed.

(** Cancelling a pending order for X and Y while the service cannot be
    reached for the first release. *)
Lemma C8_cancel_releases_every_item_witness :
  ∃ r w',
    main.update_order "O1" (examples.patch_status "cancelled") examples.alice
      examples.shop_first_release_fails = (r, w')
    ∧ calls w' = calls examples.shop_first_release_fails
                 ++ (restore_call <$> [examples.line "X" 2 10; examples.line "Y" 1 10])
    ∧ (storable (examples.patch_status "cancelled") → int32 (cu_id examples.alice) →
       r = Ret (patched_row examples.pending_xy (examples.patch_status "cancelled"))
       ∧ status (patched_row examples.pending_xy (examples.patch_status "cancelled"))
         = "cancelled"
       ∧ lookup_order "O1" w'
         = Some (patched_row examples.pending_xy (examples.patch_status "cancelled"))
       ∧ order_events w'
         = order_events examples.shop_first_release_fails
           ++ [status_changed_event "O1" (status examples.pending_xy) "cancelled"
                 (cu_id examples.alice)])
    ∧ (¬ store_takes (examples.patch_status "cancelled") →
       (∃ msg, r = Raise (DBAPIError msg))
       ∧ lookup_order "O1" w' = Some examples.pending_xy
       ∧ order_events w' = order_events examples.shop_first_release_fails).
Proof.
  apply (C8_cancel_releases_every_item "O1" (examples.patch_status "cancelled")
           examples.alice examples.pending_xy
           [examples.line "X" 2 10; examples.line "Y" 1 10]
           examples.shop_first_release_fails).
  - vm_compute; reflexivity.
  - right. reflexivity.
  - reflexivity.
  - discriminate.
  - reflexivity.
  - discriminate.
Defined.

(** In that instance the release of X fails (the service cannot be
    reached) and the release of Y is issued all the same. *)
Example cancel_continues_past_failed_release :
  ∃ w', main.update_order "O1" (examples.patch_status "cancelled") examples.alice
          examples.shop_first_release_fails
        = (Ret (examples.stored "O1" 30 "cancelled"
                  [examples.line "X" 2 10; examples.line "Y" 1 10]), w')
    ∧ calls w' = [Restore "X" 2; Restore "Y" 1]
    ∧ stock "X" w' = Some 5 ∧ stock "Y" w' = Some 4.
Proof. eexists. split_and!; vm_compute; reflexivity. Qed.

(** C6, as stated, has every requested status change applied and
    persisted once the inventory step succeeds.  Here a delivered order
    is set back to pending, a change without an inventory step, by a patch
    that also sets a total of 10^9: the store refuses the row, the order
    is still delivered and no event is written. *)
Lemma C6_patch_refused_counterexample :
  ∃ msg,
    main.update_order "O1" (examples.patch_status_and_huge_total "pending")
      examples.alice (examples.shop_with examples.delivered_x)
    = (Raise (DBAPIError msg), examples.shop_with examples.delivered_x)
    ∧ lookup_order "O1" (examples.shop_with examples.delivered_x)
      = Some examples.delivered_x
    ∧ status examples.delivered_x = "delivered".
Proof. eexists. split_and!; vm_compute; reflexivity. Qed.

(** C6 (amended): an update that changes the status is not checked
    against the transition table.  For an existing order and an
    authorized caller, any requested status other than the current one is
    applied, persisted and logged as a status change, provided the
    inventory step succeeds and the store takes the patch and the event;
    the inventory step is void unless the change cancels the order or
    takes it out of cancelled. *)
Theorem C6_update_has_no_transition_guard :
  ∀ order_id patch user existing new_status w w1,
    lookup_order order_id w = Some existing →
    authorized user (user_id existing) →
    ou_status patch = Value new_status →
    new_status ≠ "" →
    new_status ≠ status existing →
    update_inventory_step patch existing user w = (Ret tt, w1) →
    storable patch →
    int32 (cu_id user) →
    (∃ w', main.update_order order_id patch user w = (Ret (patched_row existing patch), w')
       ∧ status (patched_row existing patch) = new_status
       ∧ lookup_order order_id w' = Some (patched_row existing patch)
       ∧ order_events w'
         = order_events w
           ++ [status_changed_event order_id (status existing) new_status (cu_id user)])
    ∧ (touches_cancelled (status existing) new_status = false → w1 = w).
Proof.
  intros order_id patch user existing new_status w w1
    Hfound Hauth Hstatus Hset Hchange Hstep [Hok _] Hc.
  assert (new_status_of patch existing = Some new_status) as Hnew
    by by apply new_status_of_value.
  destruct (update_inventory_step_frame patch existing user w)
    as (r & w1' & Hstep' & (Ho1 & He1 & _)).
  rewrite Hstep in Hstep'. injection Hstep' as <- <-.
  assert (lookup_order order_id w1 = Some existing) as Hfound1.
  { by rewrite (lookup_order_frame _ _ _ Ho1). }
  split.
  - destruct (update_order_after_step order_id patch user existing w w1
                Hfound Hauth Hstep Ho1)
      as [(_ & _ & ->)|[(Hno & _)|(_ & Hno & _)]]; [|done..].
    eexists. split; [reflexivity|]. split_and!.
    + by apply patched_row_status.
    + by apply (lookup_replace_row _ existing).
    + cbn. by rewrite He1, (update_event_status_changed _ _ _ _ _ Hnew).
  - intros Hquiet.
    rewrite (update_inventory_step_quiet patch existing user w) in Hstep.
    + by injection Hstep as <-.
    + intros s Hs. rewrite Hnew in Hs. injection Hs as <-. by left.
Qed.

(** A delivered order is set back to pending, an edge the guard rejects. *)
Lemma C6_update_has_no_transition_guard_witness :
  validators.validate_order_status_transition "delivered" "pending"
  = (false, "Invalid status transition: delivered -> pending")
  ∧ (∃ w', main.update_order "O1" (examples.patch_status "pending") examples.alice
             (examples.shop_with examples.delivered_x)
           = (Ret (patched_row examples.delivered_x (examples.patch_status "pending")), w')
       ∧ status (patched_row examples.delivered_x (examples.patch_status "pending"))
         = "pending"
       ∧ lookup_order "O1" w'
         = Some (patched_row examples.delivered_x (examples.patch_status "pending"))
       ∧ order_events w'
         = order_events (examples.shop_with examples.delivered_x)
           ++ [status_changed_event "O1" (status examples.delivered_x) "pending"
                 (cu_id examples.alice)])
  ∧ (touches_cancelled (status examples.delivered_x) "pending" = false →
     examples.shop_with examples.delivered_x = examples.shop_with examples.delivered_x).
Proof.
  split; [vm_compute; reflexivity|].
  apply (C6_update_has_no_transition_guard "O1" (examples.patch_status "pending")
           examples.alice examples.delivered_x "pending"
           (examples.shop_with examples.delivered_x)
           (examples.shop_with examples.delivered_x)).
  - vm_compute; reflexivity.
  - right. reflexivity.
  - reflexivity.
  - discriminate.
  - discriminate.
  - reflexivity.
  - apply storable_patch_status. unfold text_ok. compute_done.
  - unfold int32. cbn. lia.
Defined.

(** C4, as stated, has no release issued when a reservation fails while
    a cancelled order is reactivated.  Here the cancelled order holds 2
    units of X and 5 of Y, with 3 of Y on hand: X is reserved, Y fails,
    and X is released again before the update is aborted. *)
Lemma C4_reactivation_counterexample :
  ∃ w', main.update_order "O1" (examples.patch_status "pending") examples.alice
          (examples.shop_with examples.cancelled_xy)
        = (Raise (HTTPException 400
             "Failed to deduct inventory: Inventory deduction failed: Insufficient inventory for SKU 'Y'. Available: 3, Requested: 5"),
           w')
    ∧ calls w' = [Reduce "X" 2; Reduce "Y" 5; Restore "X" 2]
    ∧ releases (calls w') ≠ [].
Proof. eexists. split_and!; [vm_compute; reflexivity ..| vm_compute; discriminate]. Qed.

(** C4 (amended): when an update moves an order with well-formed items
    out of cancelled into another status, inventory is reserved for every
    item, in list order; the row is then persisted if the store takes the
    patch and the event.  If the reservation of an item fails after the
    items before it were reserved, the update is aborted with status 400
    and the reason of that failure, the order row and the timeline are
    left as they were, and the items already reserved are released again,
    in the order they were reserved; with unique SKUs nothing else is
    released. *)
Theorem C4_reactivation_reserves_and_rolls_back :
  ∀ order_id patch user existing lines new_status w,
    lookup_order order_id w = Some existing →
    authorized user (user_id existing) →
    status existing = "cancelled" →
    ou_status patch = Value new_status →
    new_status ≠ "" →
    new_status ≠ "cancelled" →
    items existing = Some (stored_item <$> lines) →
    lines ≠ [] →
    (* every reservation succeeds *)
    (∀ m skus w1,
       crud.process_inventory_for_order lines true (Some (cu_token user)) w
       = (Ret (true, m, skus), w1) →
       ∃ r w', main.update_order order_id patch user w = (r, w')
         ∧ calls w' = calls w ++ (reduce_call <$> lines)
         ∧ (storable patch → int32 (cu_id user) →
            r = Ret (patched_row existing patch)
            ∧ status (patched_row existing patch) = new_status
            ∧ lookup_order order_id w' = Some (patched_row existing patch)))
    (* the reservation of [item] fails *)
    ∧ (∀ pre item post m skus w1 reason w2,
         lines = pre ++ item :: post →
         crud.process_inventory_for_order pre true (Some (cu_token user)) w
         = (Ret (true, m, skus), w1) →
         inventory_client.reduce_inventory (sku item) (quantity item)
           (Some (cu_token user)) w1 = (Ret (false, Some reason), w2) →
         ∃ w3 extra,
           main.update_order order_id patch user w
           = (Raise (HTTPException 400
                ("Failed to deduct inventory: Inventory deduction failed: " +:+ reason)),
              w3)
           ∧ calls w3 = calls w ++ (reduce_call <$> pre ++ [item])
                        ++ (restore_call <$> pre) ++ (restore_call <$> extra)
           ∧ (NoDup (sku <$> lines) → extra = [])
           ∧ orders w3 = orders w
           ∧ order_events w3 = order_events w).
Proof.
  intros order_id patch user existing lines new_status w
    Hfound Hauth Hold Hstatus Hset Hactive Hitems Hlines.
  assert (new_status_of patch existing = Some new_status) as Hnew.
  { apply new_status_of_value; [done|done|congruence]. }
  pose proof (update_inventory_step_reactivate patch existing user new_status lines w
                Hnew Hold Hitems Hlines) as Hstep.
  split.
  - intros m skus w1 Hproc. rewrite Hproc in Hstep.
    destruct (process_reserved _ _ _ _ _ _ Hproc) as (_ & _ & Hcalls & (Ho1 & He1 & _) & _).
    assert (lookup_order order_id w1 = Some existing) as Hfound1.
    { by rewrite (lookup_order_frame _ _ _ Ho1). }
    destruct (update_order_after_step order_id patch user existing w w1
                Hfound Hauth Hstep Ho1)
      as [(Hok & Hc & ->)|[(Hno & msg & ->)|(Hok & Hc & msg & ->)]].
    + do 2 eexists. split; [reflexivity|]. split; [done|]. intros _ _.
      split_and!; [done|by apply patched_row_status|].
      by apply (lookup_replace_row _ existing).
    + do 2 eexists. split; [reflexivity|]. split; [done|]. by intros [].
    + do 2 eexists. split; [reflexivity|]. split; [done|]. done.
  - intros pre item post m skus w1 reason w2 Hsplit Hpre Hred.
    destruct (process_first_failure pre item post _ _ _ _ _ _ _ Hpre Hred)
      as (w3 & Hproc & Hcalls2 & Hcalls3 & (Ho3 & He3 & _)).
    rewrite <- Hsplit in Hproc. rewrite Hproc in Hstep. cbn in Hstep.
    exists w3, (lines_with_sku (sku <$> pre) (item :: post)). split_and!.
    + by apply (update_order_step_raises _ _ _ existing).
    + rewrite Hcalls3, Hcalls2, lines_with_sku_prefix, !fmap_app.
      by rewrite <- !app_assoc.
    + rewrite Hsplit. apply lines_with_sku_rest_unique.
    + done.
    + done.
Qed.

(** Reactivating a cancelled order for X and Y with too little of Y. *)
Lemma C4_reactivation_reserves_and_rolls_back_witness :
  ∃ w3 extra,
    main.update_order "O1" (examples.patch_status "pending") examples.alice
      (examples.shop_with examples.cancelled_xy)
    = (Raise (HTTPException 400
         ("Failed to deduct inventory: Inventory deduction failed: "
          +:+ "Insufficient inventory for SKU 'Y'. Available: 3, Requested: 5")),
       w3)
    ∧ calls w3 = calls (examples.shop_with examples.cancelled_xy)
                 ++ (reduce_call <$> [examples.line "X" 2 10] ++ [examples.line "Y" 5 10])
                 ++ (restore_call <$> [examples.line "X" 2 10]) ++ (restore_call <$> extra)
    ∧ (NoDup (sku <$> [examples.line "X" 2 10; examples.line "Y" 5 10]) → extra = [])
    ∧ orders w3 = orders (examples.shop_with examples.cancelled_xy)
    ∧ order_events w3 = order_events (examples.shop_with examples.cancelled_xy).
Proof.
  refine (proj2 (C4_reactivation_reserves_and_rolls_back "O1"
                   (examples.patch_status "pending") examples.alice examples.cancelled_xy
                   [examples.line "X" 2 10; examples.line "Y" 5 10]
                   "pending" (examples.shop_with examples.cancelled_xy) _ _ _ _ _ _ _ _)
            [examples.line "X" 2 10] (examples.line "Y" 5 10) [] None ["X"]
            (snd (crud.process_inventory_for_order [examples.line "X" 2 10] true
                    (Some "t") (examples.shop_with examples.cancelled_xy)))
            "Insufficient inventory for SKU 'Y'. Available: 3, Requested: 5"
            (snd (inventory_client.reduce_inventory "Y" 5 (Some "t")
                    (snd (crud.process_inventory_for_order [examples.line "X" 2 10] true
                            (Some "t") (examples.shop_with examples.cancelled_xy)))))
            _ _ _).
  - vm_compute; reflexivity.
  - right. reflexivity.
  - reflexivity.
  - reflexivity.
  - discriminate.
  - discriminate.
  - reflexivity.
  - discriminate.
  - reflexivity.
  - vm_compute; reflexivity.
  - vm_compute; reflexivity.
Defined.

(** * Further properties

    Beyond the saga of create and update: the clients and the saga when
    the remote services are healthy, the tables of the Orders service as
    the writing endpoints leave them, the reading endpoints, and the
    failures of each endpoint.  The services are healthy in a world
    whose fault schedule is empty: every request is answered by the
    service, which accepts the token that comes with it. *)

(** ** The inventory client on a healthy service *)

Lemma find_take_all {A} (f : A → bool) (l : list A) (n : nat) :
  (length l ≤ n)%nat → List.find f (take n l) = List.find f l.
Proof. intros H. by rewrite take_ge. Qed.

(** With nothing scheduled to fail, a lookup by SKU reads the first page
    of the rows and leaves the world as it is. *)
Lemma get_item_by_sku_healthy s tok w :
  faults w = [] →
  inventory_client.get_item_by_sku s tok w
  = (Ret (List.find (λ row, bool_decide (inv_sku row = s)) (take 100 (inventory w))), w).
Proof. intros Hf. unfold_M. by rewrite Hf. Qed.

Lemma adjust_stock_skus s delta rows :
  inv_sku <$> adjust_stock s delta rows = inv_sku <$> rows.
Proof.
  unfold adjust_stock. rewrite <- list_fmap_compose. apply list_fmap_ext.
  intros i row _. cbn. by case_bool_decide.
Qed.

Lemma adjust_stock_ids s delta rows :
  inv_id <$> adjust_stock s delta rows = inv_id <$> rows.
Proof.
  unfold adjust_stock. rewrite <- list_fmap_compose. apply list_fmap_ext.
  intros i row _. cbn. by case_bool_decide.
Qed.

Lemma adjust_stock_absent s delta rows :
  s ∉ inv_sku <$> rows → adjust_stock s delta rows = rows.
Proof.
  induction rows as [|row rest IH]; [done|]. cbn.
  rewrite not_elem_of_cons. intros [Hne Hrest].
  rewrite bool_decide_eq_false_2 by done. f_equal. by apply IH.
Qed.

(** The write of [reduce_inventory] and [restore_inventory]: with unique
    ids and SKUs, setting the quantity of the row found for a SKU is
    adding the difference to the stock of that SKU. *)
Lemma update_inventory_item_adjust s delta rows row :
  NoDup (inv_id <$> rows) → NoDup (inv_sku <$> rows) →
  List.find (λ r, bool_decide (inv_sku r = s)) rows = Some row →
  remote.update_inventory_item (inv_id row) (inv_qty row + delta) rows
  = Some (adjust_stock s delta rows).
Proof.
  induction rows as [|r rest IH]; [done|]. cbn.
  intros [Hid Hids]%list.NoDup_cons [Hsku Hskus]%list.NoDup_cons.
  case_bool_decide as Hs; cbn.
  - intros [= ->]. rewrite bool_decide_eq_true_2 by done.
    fold (adjust_stock s delta rest).
    rewrite adjust_stock_absent; [done|]. by rewrite <- Hs.
  - intros Hfind. rewrite bool_decide_eq_false_2.
    + fold (adjust_stock s delta rest). by rewrite IH.
    + intros Heq. apply Hid. rewrite Heq.
      apply list_elem_of_fmap_2. apply List.find_some in Hfind as [Hin _].
      by apply list_elem_of_In.
Qed.

Lemma stock_adjust s t delta w :
  stock t (set_inventory (adjust_stock s delta (inventory w)) w)
  = if bool_decide (t = s) then (λ q, q + delta) <$> stock t w else stock t w.
Proof.
  unfold stock. cbn. induction (inventory w) as [|row rest IH]; cbn.
  - by case_bool_decide.
  - destruct (decide (inv_sku row = s)) as [Hs|Hs].
    + rewrite (bool_decide_eq_true_2 _ Hs). cbn.
      destruct (decide (inv_sku row = t)) as [Ht|Ht].
      * rewrite (bool_decide_eq_true_2 _ Ht). cbn.
        rewrite bool_decide_eq_true_2 by congruence. done.
      * rewrite (bool_decide_eq_false_2 _ Ht). apply IH.
    + rewrite (bool_decide_eq_false_2 _ Hs).
      destruct (decide (inv_sku row = t)) as [Ht|Ht].
      * rewrite (bool_decide_eq_true_2 _ Ht). cbn.
        rewrite bool_decide_eq_false_2 by congruence. done.
      * rewrite (bool_decide_eq_false_2 _ Ht). apply IH.
Qed.

Lemma inventory_ok_adjust s delta w w' :
  inventory_ok w → inventory w' = adjust_stock s delta (inventory w) → inventory_ok w'.
Proof.
  unfold inventory_ok. intros (Hid & Hsku & Hlen) ->.
  rewrite adjust_stock_ids, adjust_stock_skus.
  split_and!; try done. unfold adjust_stock. by rewrite length_fmap.
Qed.

(** The write on a healthy service. *)
Lemma inventory_put_found item_id q rows w :
  faults w = [] →
  remote.update_inventory_item item_id q (inventory w) = Some rows →
  remote.inventory_put item_id q w
  = (Ret {| status_code := 200; text := "" |}, set_inventory rows w).
Proof. intros Hf Hupd. unfold_M. by rewrite Hf, Hupd. Qed.

(** What [reduce_inventory] does when the service answers. *)
Lemma reduce_inventory_healthy s n tok w :
  faults w = [] → inventory_ok w →
  inventory_client.reduce_inventory s n tok w
  = match List.find (λ row, bool_decide (inv_sku row = s)) (inventory w) with
    | None =>
        (Ret (false, Some ("SKU '" +:+ s +:+ "' not found")),
         set_calls (calls w ++ [Reduce s n]) w)
    | Some row =>
        if bool_decide (inv_qty row - n < 0) then
          (Ret (false, Some ("Insufficient inventory for SKU '" +:+ s
                             +:+ "'. Available: " +:+ pretty (inv_qty row)
                             +:+ ", Requested: " +:+ pretty n)),
           set_calls (calls w ++ [Reduce s n]) w)
        else
          (Ret (true, None),
           set_inventory (adjust_stock s (- n) (inventory w))
             (set_calls (calls w ++ [Reduce s n]) w))
    end.
Proof.
  intros Hf (Hid & Hsku & Hlen).
  unfold inventory_client.reduce_inventory, inventory_client.record_call.
  rewrite bind_eq. cbn [modify_world].
  unfold try_except_HTTPError, try_except. rewrite bind_eq.
  rewrite get_item_by_sku_healthy by done. cbn [set_calls inventory].
  rewrite find_take_all by done.
  destruct (List.find _ (inventory w)) as [row|] eqn:Hfind; [|done].
  case_bool_decide; [done|].
  replace (inv_qty row - n) with (inv_qty row + - n) by lia.
  rewrite bind_eq.
  by rewrite (inventory_put_found _ _ (adjust_stock s (- n) (inventory w)))
    by (try done; by apply update_inventory_item_adjust).
Qed.

(** What [restore_inventory] does when the service answers. *)
Lemma restore_inventory_healthy s n tok w :
  faults w = [] → inventory_ok w →
  inventory_client.restore_inventory s n tok w
  = match List.find (λ row, bool_decide (inv_sku row = s)) (inventory w) with
    | None =>
        (Ret (false, Some ("SKU '" +:+ s +:+ "' not found")),
         set_calls (calls w ++ [Restore s n]) w)
    | Some row =>
        (Ret (true, None),
         set_inventory (adjust_stock s n (inventory w))
           (set_calls (calls w ++ [Restore s n]) w))
    end.
Proof.
  intros Hf (Hid & Hsku & Hlen).
  unfold inventory_client.restore_inventory, inventory_client.record_call.
  rewrite bind_eq. cbn [modify_world].
  unfold try_except_HTTPError, try_except. rewrite bind_eq.
  rewrite get_item_by_sku_healthy by done. cbn [set_calls inventory].
  rewrite find_take_all by done.
  destruct (List.find _ (inventory w)) as [row|] eqn:Hfind; [|done].
  rewrite bind_eq.
  by rewrite (inventory_put_found _ _ (adjust_stock s n (inventory w)))
    by (try done; by apply update_inventory_item_adjust).
Qed.

Lemma adjust_stock_inverse s n rows :
  adjust_stock s n (adjust_stock s (- n) rows) = rows.
Proof.
  unfold adjust_stock. rewrite <- list_fmap_compose.
  rewrite <- (list_fmap_id rows) at 2. apply list_fmap_ext.
  intros i [rid rsku rqty] _. cbn.
  destruct (decide (rsku = s)) as [Hs|Hs].
  - rewrite (bool_decide_eq_true_2 _ Hs). cbn.
    rewrite (bool_decide_eq_true_2 _ Hs). f_equal. lia.
  - rewrite (bool_decide_eq_false_2 _ Hs). cbn.
    by rewrite (bool_decide_eq_false_2 _ Hs).
Qed.

Lemma find_adjust_stock s t delta rows :
  List.find (λ row, bool_decide (inv_sku row = t)) (adjust_stock s delta rows)
  = (λ row, if bool_decide (inv_sku row = s)
            then {| inv_id := inv_id row; inv_sku := inv_sku row;
                    inv_qty := inv_qty row + delta |}
            else row)
    <$> List.find (λ row, bool_decide (inv_sku row = t)) rows.
Proof.
  induction rows as [|row rest IH]; [done|]. cbn.
  destruct (decide (inv_sku row = s)) as [Hs|Hs].
  - rewrite (bool_decide_eq_true_2 _ Hs). cbn.
    case_bool_decide; cbn; [by rewrite bool_decide_eq_true_2|apply IH].
  - rewrite (bool_decide_eq_false_2 _ Hs).
    case_bool_decide; cbn; [by rewrite bool_decide_eq_false_2|apply IH].
Qed.

Lemma stock_ext t w1 w2 : inventory w1 = inventory w2 → stock t w1 = stock t w2.
Proof. unfold stock. by intros ->. Qed.



(** X2: on a healthy Inventory service with unique ids and SKUs, a
    [restore_inventory] undoes the [reduce_inventory] before it: after a
    reduce that succeeded, restoring the same quantity of the same SKU
    succeeds and puts every row back as it was.  The quantity that is
    written back is the one the service held before. *)
Theorem X2_restore_undoes_reduce :
  ∀ s n tok w w1,
    faults w = [] → inventory_ok w →
    inventory_client.reduce_inventory s n tok w = (Ret (true, None), w1) →
    ∃ w2, inventory_client.restore_inventory s n tok w1 = (Ret (true, None), w2)
      ∧ inventory w2 = inventory w
      ∧ calls w2 = calls w ++ [Reduce s n; Restore s n].
Proof.
  intros s n tok w w1 Hf Hok. rewrite (reduce_inventory_healthy s n tok w Hf Hok).
  destruct (List.find _ (inventory w)) as [row|] eqn:Hfind; [|discriminate].
  case_bool_decide; [discriminate|]. intros [= <-].
  rewrite restore_inventory_healthy.
  - cbn [inventory set_inventory set_calls].
    rewrite find_adjust_stock, Hfind. cbn.
    eexists. split; [reflexivity|]. cbn.
    split; [apply adjust_stock_inverse | by rewrite <- app_assoc].
  - done.
  - by eapply (inventory_ok_adjust s (- n) w).
Qed.

(** Two units of X are taken and given back. *)
Lemma X2_restore_undoes_reduce_witness :
  ∃ w2,
    inventory_client.restore_inventory "X" 2 None
      (snd (inventory_client.reduce_inventory "X" 2 None examples.shop))
    = (Ret (true, None), w2)
    ∧ inventory w2 = inventory examples.shop
    ∧ calls w2 = calls examples.shop ++ [Reduce "X" 2; Restore "X" 2].
Proof.
  refine (X2_restore_undoes_reduce "X" 2 None examples.shop _ _ _ _).
  - reflexivity.
  - unfold inventory_ok. split_and!; [compute_done | compute_done | cbn; lia].
  - vm_compute; reflexivity.
Defined.

(** X3: the clients read only the first page of the Inventory service
    (100 rows).  A SKU that is on file, but in no row of the first page,
    is reported as not found by [reduce_inventory] and
    [restore_inventory], as missing by [validate_items_exist], and with
    zero stock by [check_stock_availability]; nothing is written. *)
Theorem X3_sku_beyond_first_page :
  ∀ s n tok w q,
    faults w = [] →
    stock s w = Some q →
    s ∉ inv_sku <$> take 100 (inventory w) →
    inventory_client.reduce_inventory s n tok w
    = (Ret (false, Some ("SKU '" +:+ s +:+ "' not found")),
       set_calls (calls w ++ [Reduce s n]) w)
    ∧ inventory_client.restore_inventory s n tok w
      = (Ret (false, Some ("SKU '" +:+ s +:+ "' not found")),
         set_calls (calls w ++ [Restore s n]) w)
    ∧ inventory_client.validate_items_exist [s] tok w = (Ret (false, Some s), w)
    ∧ inventory_client.check_stock_availability s n tok w = (Ret (false, 0), w).
Proof.
  intros s n tok w q Hf _ Hpage.
  assert (List.find (λ row, bool_decide (inv_sku row = s)) (take 100 (inventory w)) = None)
    as Hnone.
  { destruct (List.find _ _) as [row|] eqn:Hfind; [|done].
    apply List.find_some in Hfind as [Hin Hs]. apply bool_decide_eq_true in Hs.
    exfalso. apply Hpage. rewrite <- Hs. apply list_elem_of_fmap_2.
    by apply list_elem_of_In. }
  split_and!.
  - unfold inventory_client.reduce_inventory, inventory_client.record_call.
    rewrite bind_eq. cbn [modify_world].
    unfold try_except_HTTPError, try_except. rewrite bind_eq.
    rewrite get_item_by_sku_healthy by done. cbn [set_calls inventory].
    by rewrite Hnone.
  - unfold inventory_client.restore_inventory, inventory_client.record_call.
    rewrite bind_eq. cbn [modify_world].
    unfold try_except_HTTPError, try_except. rewrite bind_eq.
    rewrite get_item_by_sku_healthy by done. cbn [set_calls inventory].
    by rewrite Hnone.
  - unfold_M. rewrite Hf. cbn.
    rewrite bool_decide_eq_true_2; [done|]. by rewrite elem_of_list_to_set.
  - unfold inventory_client.check_stock_availability.
    unfold try_except_HTTPError, try_except. rewrite bind_eq.
    rewrite get_item_by_sku_healthy by done. by rewrite Hnone.
Qed.

(** The SKU of the 101st row. *)
Lemma X3_sku_beyond_first_page_witness :
  stock "S100" examples.big_shop = Some 7
  ∧ inventory_client.reduce_inventory "S100" 1 None examples.big_shop
    = (Ret (false, Some ("SKU '" +:+ "S100" +:+ "' not found")),
       set_calls (calls examples.big_shop ++ [Reduce "S100" 1]) examples.big_shop).
Proof.
  split; [vm_compute; reflexivity|].
  refine (proj1 (X3_sku_beyond_first_page "S100" 1 None examples.big_shop 7 _ _ _)).
  - reflexivity.
  - vm_compute; reflexivity.
  - compute_done.
Defined.

(** ** Remote validation on a healthy service *)

Lemma validate_user_exists_healthy uid tok w :
  faults w = [] →
  users_client.validate_user_exists uid tok w = (Ret (bool_decide (uid ∈ users w)), w).
Proof. intros Hf. unfold_M. rewrite Hf. by case_bool_decide. Qed.

Lemma validate_items_exist_healthy skus tok w :
  faults w = [] →
  inventory_client.validate_items_exist skus tok w
  = (Ret (match List.find (λ s, bool_decide (s ∉ inv_sku <$> take 100 (inventory w))) skus with
          | Some s => (false, Some s)
          | None => (true, None)
          end), w).
Proof.
  intros Hf. unfold_M. rewrite Hf. cbn.
  assert (∀ l, List.find (λ s, bool_decide
                (s ∉ (list_to_set (inv_sku <$> take 100 (inventory w)) : gset string))) l
               = List.find (λ s, bool_decide (s ∉ inv_sku <$> take 100 (inventory w))) l)
    as ->.
  { induction l as [|s l IH]; [done|]. cbn. rewrite IH.
    by rewrite (bool_decide_ext _ (s ∉ inv_sku <$> take 100 (inventory w)))
      by by rewrite elem_of_list_to_set. }
  by destruct (List.find _ skus).
Qed.

Lemma check_stock_availability_healthy s n tok w :
  faults w = [] →
  inventory_client.check_stock_availability s n tok w
  = (Ret (match List.find (λ row, bool_decide (inv_sku row = s)) (take 100 (inventory w)) with
          | None => (false, 0)
          | Some row => (bool_decide (n ≤ inv_qty row), inv_qty row)
          end), w).
Proof.
  intros Hf. unfold inventory_client.check_stock_availability.
  unfold try_except_HTTPError, try_except. rewrite bind_eq.
  rewrite get_item_by_sku_healthy by done. by destruct (List.find _ _).
Qed.

Lemma check_stock_loop_healthy lines tok w :
  faults w = [] → (length (inventory w) ≤ 100)%nat →
  ∃ ok msg, crud.check_stock_loop lines tok w = (Ret (ok, msg), w)
    ∧ (ok = true ↔ ∀ line, line ∈ lines →
                     ∃ q, stock (sku line) w = Some q ∧ quantity line ≤ q)
    ∧ (ok = true → msg = None)
    ∧ (ok = false → ∃ line (q : Z), line ∈ lines
                    ∧ msg = Some ("Insufficient stock for SKU '" +:+ sku line
                                  +:+ "'. Available: " +:+ pretty q
                                  +:+ ", Required: " +:+ pretty (quantity line))).
Proof.
  intros Hf Hlen. induction lines as [|line rest IH].
  - exists true, None. split_and!; try done. split; [|done]. intros _ l Hl.
    by apply elem_of_nil in Hl.
  - cbn [crud.check_stock_loop]. rewrite bind_eq.
    rewrite check_stock_availability_healthy, find_take_all by done.
    destruct (List.find _ (inventory w)) as [row|] eqn:Hfind.
    + assert (stock (sku line) w = Some (inv_qty row)) as Hstock
        by (unfold stock; by rewrite Hfind).
      case_bool_decide as Hq; cbn [negb].
      * destruct IH as (ok & msg & -> & Hiff & Hmsg & Hfail).
        exists ok, msg. split_and!; try done.
        -- rewrite Hiff. split.
           ++ intros Hall l [->|Hl]%elem_of_cons; eauto.
           ++ intros Hall l Hl. apply Hall. by right.
        -- intros (l & q & Hl & ->)%Hfail. exists l, q. split; [by right|done].
      * exists false, (Some ("Insufficient stock for SKU '" +:+ sku line
                             +:+ "'. Available: " +:+ pretty (inv_qty row)
                             +:+ ", Required: " +:+ pretty (quantity line))).
        split_and!; try done.
        -- split; [done|]. intros Hall.
           destruct (Hall line) as (q & Hq' & ?); [left|].
           rewrite Hstock in Hq'. injection Hq' as <-. done.
        -- intros _. exists line, (inv_qty row). split; [left|done].
    + assert (stock (sku line) w = None) as Hstock by (unfold stock; by rewrite Hfind).
      cbn [negb].
      exists false, (Some ("Insufficient stock for SKU '" +:+ sku line
                           +:+ "'. Available: " +:+ pretty 0
                           +:+ ", Required: " +:+ pretty (quantity line))).
      split_and!; try done.
      * split; [done|]. intros Hall.
        destruct (Hall line) as (q & Hq' & ?); [left|]. congruence.
      * intros _. exists line, 0. split; [left|done].
Qed.

Lemma stock_is_Some s w :
  is_Some (stock s w) ↔ s ∈ inv_sku <$> inventory w.
Proof.
  unfold stock. rewrite fmap_is_Some. induction (inventory w) as [|row rest IH]; cbn.
  - split; [by intros [? [=]]|]. by intros ?%elem_of_nil.
  - case_bool_decide as Hs.
    + split; [|eauto]. intros _. rewrite <- Hs. left.
    + rewrite IH, elem_of_cons. split; [by right|]. by intros [?|?].
Qed.

(** What [validate_order_data] answers when both services do. *)
Lemma validate_order_data_healthy order tok w :
  faults w = [] → (length (inventory w) ≤ 100)%nat →
  ∃ ok msg,
    crud.validate_order_data order tok w = (Ret (ok, msg), w)
    ∧ (ok = true ↔
       oc_user_id order ∈ users w
       ∧ ∀ line, line ∈ oc_items order →
                 ∃ q, stock (sku line) w = Some q ∧ quantity line ≤ q)
    ∧ (ok = true → msg = None)
    ∧ (oc_user_id order ∉ users w →
       msg = Some ("User with ID " +:+ pretty (oc_user_id order) +:+ " does not exist")).
Proof.
  intros Hf Hlen.
  unfold crud.validate_order_data, try_except_HTTPError, try_except.
  rewrite bind_eq, validate_user_exists_healthy by done.
  case_bool_decide as Huser; cbn [negb].
  2: { do 2 eexists. split; [reflexivity|]. split_and!; try done.
       split; [done|]. by intros [? _]. }
  destruct (oc_items order) as [|line rest] eqn:Hitems; cbn [nonempty].
  { exists true, None. split_and!; try done. split; [|done]. intros _.
    split; [done|]. intros l Hl. by apply elem_of_nil in Hl. }
  rewrite <- Hitems. rewrite bind_eq, validate_items_exist_healthy by done.
  rewrite take_ge by done.
  destruct (List.find _ (sku <$> oc_items order)) as [s|] eqn:Hmissing; cbn [negb].
  { apply List.find_some in Hmissing as [Hin Hs].
    apply bool_decide_eq_true in Hs.
    apply list_elem_of_In, list_elem_of_fmap in Hin as (l & -> & Hl).
    do 2 eexists. split; [reflexivity|]. split_and!; try done.
    split; [done|]. intros [_ Hall]. destruct (Hall l Hl) as (q & Hq & _).
    exfalso. apply Hs, stock_is_Some. eauto. }
  destruct (check_stock_loop_healthy (oc_items order) tok w Hf Hlen)
    as (ok & msg & -> & Hiff & Hmsg & _).
  exists ok, msg. split_and!; try done. rewrite Hiff.
  split; [by split | by intros [_ ?]].
Qed.

(** X4: on a healthy pair of services whose inventory fits one page,
    [validate_order_data] accepts exactly when the user is on file and
    every line can be served from the stock on hand (each line checked
    on its own); it sends nothing that changes the world, hands back no
    message when it accepts, and names the user when the user is
    unknown. *)
Theorem X4_validate_order_data_healthy :
  ∀ order tok w,
    faults w = [] → (length (inventory w) ≤ 100)%nat →
    ∃ ok msg,
      crud.validate_order_data order tok w = (Ret (ok, msg), w)
      ∧ (ok = true ↔
         oc_user_id order ∈ users w
         ∧ ∀ line, line ∈ oc_items order →
                   ∃ q, stock (sku line) w = Some q ∧ quantity line ≤ q)
      ∧ (ok = true → msg = None)
      ∧ (oc_user_id order ∉ users w →
         msg = Some ("User with ID " +:+ pretty (oc_user_id order) +:+ " does not exist")).
Proof. intros order tok w. apply validate_order_data_healthy. Qed.

(** User 1 and five units of X on hand: an order for five is accepted. *)
Lemma X4_validate_order_data_healthy_witness :
  ∃ ok msg,
    crud.validate_order_data examples.order_x5 None examples.shop
    = (Ret (ok, msg), examples.shop)
    ∧ (ok = true ↔
       oc_user_id examples.order_x5 ∈ users examples.shop
       ∧ ∀ line, line ∈ oc_items examples.order_x5 →
                 ∃ q, stock (sku line) examples.shop = Some q ∧ quantity line ≤ q)
    ∧ (ok = true → msg = None)
    ∧ (oc_user_id examples.order_x5 ∉ users examples.shop →
       msg = Some ("User with ID " +:+ pretty (oc_user_id examples.order_x5)
                   +:+ " does not exist")).
Proof.
  apply (X4_validate_order_data_healthy examples.order_x5 None examples.shop).
  - reflexivity.
  - cbn; lia.
Defined.

(** ** The saga on healthy services *)

Lemma adjust_stock_comm s a t b rows :
  adjust_stock s a (adjust_stock t b rows) = adjust_stock t b (adjust_stock s a rows).
Proof.
  unfold adjust_stock. rewrite <- !list_fmap_compose. apply list_fmap_ext.
  intros i [rid rsku rqty] _. cbn.
  destruct (decide (rsku = s)) as [Hs|Hs], (decide (rsku = t)) as [Ht|Ht];
    rewrite ?(bool_decide_eq_true_2 _ Hs), ?(bool_decide_eq_false_2 _ Hs),
      ?(bool_decide_eq_true_2 _ Ht), ?(bool_decide_eq_false_2 _ Ht); cbn;
    rewrite ?(bool_decide_eq_true_2 _ Hs), ?(bool_decide_eq_false_2 _ Hs),
      ?(bool_decide_eq_true_2 _ Ht), ?(bool_decide_eq_false_2 _ Ht);
    try done.
  f_equal. lia.
Qed.

Lemma reserved_cons line rest rows :
  reserved (line :: rest) rows
  = reserved rest (adjust_stock (sku line) (- quantity line) rows).
Proof. reflexivity. Qed.

Lemma released_cons line rest rows :
  released (line :: rest) rows
  = released rest (adjust_stock (sku line) (quantity line) rows).
Proof. reflexivity. Qed.

Lemma reserved_adjust s d lines rows :
  reserved lines (adjust_stock s d rows) = adjust_stock s d (reserved lines rows).
Proof.
  revert rows. induction lines as [|line rest IH]; intros rows; [done|].
  by rewrite !reserved_cons, adjust_stock_comm, IH.
Qed.

(** Releasing what was reserved puts the rows back. *)
Lemma released_reserved lines rows : released lines (reserved lines rows) = rows.
Proof.
  revert rows. induction lines as [|line rest IH]; intros rows; [done|].
  by rewrite reserved_cons, released_cons, reserved_adjust, adjust_stock_inverse, IH.
Qed.

Lemma reserved_skus lines rows : inv_sku <$> reserved lines rows = inv_sku <$> rows.
Proof.
  revert rows. induction lines as [|line rest IH]; intros rows; [done|].
  by rewrite reserved_cons, IH, adjust_stock_skus.
Qed.

Lemma reserved_ids lines rows : inv_id <$> reserved lines rows = inv_id <$> rows.
Proof.
  revert rows. induction lines as [|line rest IH]; intros rows; [done|].
  by rewrite reserved_cons, IH, adjust_stock_ids.
Qed.

Lemma inventory_ok_reserved lines w w' :
  inventory_ok w → inventory w' = reserved lines (inventory w) → inventory_ok w'.
Proof.
  unfold inventory_ok. intros (Hid & Hsku & Hlen) ->.
  rewrite reserved_ids, reserved_skus. split_and!; try done.
  by rewrite <- (length_fmap inv_id), reserved_ids, length_fmap.
Qed.

(** The stock after a reservation: what was on hand less what the lines
    order of that SKU. *)
Lemma stock_reserved s lines w :
  stock s (set_inventory (reserved lines (inventory w)) w)
  = (λ q, q - ordered_quantity s lines) <$> stock s w.
Proof.
  revert w. induction lines as [|line rest IH]; intros w.
  - rewrite (stock_ext s (set_inventory (reserved [] (inventory w)) w) w) by done.
    destruct (stock s w); [|done]. cbn. f_equal. lia.
  - rewrite reserved_cons.
    rewrite (stock_ext s _
               (set_inventory
                  (reserved rest
                     (inventory (set_inventory
                                   (adjust_stock (sku line) (- quantity line) (inventory w))
                                   w)))
                  (set_inventory (adjust_stock (sku line) (- quantity line) (inventory w)) w)))
      by done.
    rewrite IH, stock_adjust. cbn [ordered_quantity foldr].
    fold (ordered_quantity s rest).
    destruct (decide (sku line = s)) as [Hs|Hs].
    + rewrite (bool_decide_eq_true_2 _ Hs), bool_decide_eq_true_2 by done.
      destruct (stock s w); [|done]. cbn. f_equal. lia.
    + rewrite (bool_decide_eq_false_2 _ Hs), bool_decide_eq_false_2 by done.
      done.
Qed.

(** A reserving loop that succeeds on a healthy service leaves the rows
    [reserved], and every line it served is on file. *)
Lemma process_loop_healthy all rem tok p w p' m skus w' :
  faults w = [] → inventory_ok w →
  crud.process_loop all rem true tok p w = (p', Ret (true, m, skus), w') →
  w' = set_inventory (reserved rem (inventory w))
         (set_calls (calls w ++ (reduce_call <$> rem)) w)
  ∧ Forall (λ line, sku line ∈ inv_sku <$> inventory w) rem.
Proof.
  revert p w. induction rem as [|line rest IH]; intros p w Hf Hok.
  - cbn. intros [= <- <- <- <-]. rewrite app_nil_r. split; [|done]. by destruct w.
  - cbn [crud.process_loop item_sku item_quantity OrderItem_like].
    rewrite (reduce_inventory_healthy (sku line) (quantity line) tok w Hf Hok).
    destruct (List.find _ (inventory w)) as [row|] eqn:Hfind.
    + case_bool_decide as Hlow.
      * intros Hrun. exfalso. crush_M.
      * intros Hrun. apply IH in Hrun as [-> Hall].
        -- cbn [inventory calls set_inventory set_calls] in *. split.
           ++ cbn. unfold set_inventory, set_calls. cbn. f_equal.
              by rewrite <- app_assoc.
           ++ constructor.
              ** apply stock_is_Some. unfold stock. rewrite Hfind. eauto.
              ** by rewrite adjust_stock_skus in Hall.
        -- done.
        -- by eapply (inventory_ok_adjust (sku line) (- quantity line) w).
    + intros Hrun. exfalso. crush_M.
Qed.

(** On a healthy service, lines with unique SKUs that can each be served
    from the stock on hand are all reserved. *)
Lemma process_loop_healthy_unique all rem tok p w :
  faults w = [] → inventory_ok w →
  NoDup (sku <$> rem) →
  (∀ line, line ∈ rem → ∃ q, stock (sku line) w = Some q ∧ quantity line ≤ q) →
  ∃ w', crud.process_loop all rem true tok p w
        = (p ++ (sku <$> rem), Ret (true, None, p ++ (sku <$> rem)), w').
Proof.
  revert p w. induction rem as [|line rest IH]; intros p w Hf Hok Hnd Hall.
  - exists w. cbn. by rewrite app_nil_r.
  - cbn [crud.process_loop item_sku item_quantity OrderItem_like].
    rewrite (reduce_inventory_healthy (sku line) (quantity line) tok w Hf Hok).
    destruct (Hall line) as (q & Hq & Hle); [left|].
    unfold stock in Hq.
    destruct (List.find _ (inventory w)) as [row|] eqn:Hfind; [|done].
    injection Hq as <-.
    rewrite bool_decide_eq_false_2 by lia.
    cbn in Hnd. apply list.NoDup_cons in Hnd as [Hfresh Hnd].
    destruct (IH (p ++ [sku line])
                (set_inventory (adjust_stock (sku line) (- quantity line) (inventory w))
                   (set_calls (calls w ++ [Reduce (sku line) (quantity line)]) w)))
      as (w' & Hrun); try done.
    + by eapply (inventory_ok_adjust (sku line) (- quantity line) w).
    + intros l Hl.
      rewrite (stock_ext (sku l) _
                 (set_inventory (adjust_stock (sku line) (- quantity line) (inventory w)) w))
        by done.
      rewrite stock_adjust, bool_decide_eq_false_2.
      * apply Hall. by right.
      * intros Heq. apply Hfresh. rewrite <- Heq. by apply list_elem_of_fmap_2.
    + exists w'. rewrite Hrun. cbn. by rewrite <- app_assoc.
Qed.

(** A releasing loop on a healthy service, for lines that are on file. *)
Lemma process_loop_release_healthy all rem tok p w :
  faults w = [] → inventory_ok w →
  Forall (λ line, sku line ∈ inv_sku <$> inventory w) rem →
  ∃ p', crud.process_loop all rem false tok p w
        = (p', Ret (true, None, p'),
           set_inventory (released rem (inventory w))
             (set_calls (calls w ++ (restore_call <$> rem)) w)).
Proof.
  revert p w. induction rem as [|line rest IH]; intros p w Hf Hok Hall.
  - exists p. cbn. rewrite app_nil_r. by destruct w.
  - apply Forall_cons_1 in Hall as [Hline Hall].
    cbn [crud.process_loop item_sku item_quantity OrderItem_like].
    rewrite (restore_inventory_healthy (sku line) (quantity line) tok w Hf Hok).
    apply stock_is_Some in Hline as [q Hq]. unfold stock in Hq.
    destruct (List.find _ (inventory w)) as [row|] eqn:Hfind; [|done].
    destruct (IH (p ++ [sku line])
                (set_inventory (adjust_stock (sku line) (quantity line) (inventory w))
                   (set_calls (calls w ++ [Restore (sku line) (quantity line)]) w)))
      as (p' & Hrun); try done.
    + by eapply (inventory_ok_adjust (sku line) (quantity line) w).
    + cbn. by rewrite adjust_stock_skus.
    + exists p'. rewrite Hrun. cbn. unfold set_inventory, set_calls. cbn.
      by rewrite <- app_assoc.
Qed.

(** The end of a reservation on a healthy service, through
    [process_inventory_for_order]. *)
Lemma process_reserved_healthy lines tok w m skus w1 :
  faults w = [] → inventory_ok w →
  crud.process_inventory_for_order lines true tok w = (Ret (true, m, skus), w1) →
  w1 = set_inventory (reserved lines (inventory w))
         (set_calls (calls w ++ (reduce_call <$> lines)) w)
  ∧ Forall (λ line, sku line ∈ inv_sku <$> inventory w) lines.
Proof.
  intros Hf Hok (_ & _ & _ & _ & Hloop)%process_reserved.
  by eapply process_loop_healthy.
Qed.

(** X5: the create saga on healthy services, called by an
    administrator (the Inventory service lets only administrators write,
    and a healthy service accepts the token).  For a fresh id, a user on
    file, user ids of 32 bits, a total that fits its column, an id and
    a status without NUL character, a status other than cancelled and
    lines with unique SKUs that can each be
    served from the stock on hand, [create_order] succeeds: every line is
    reserved in list order, the stock of each SKU drops by exactly the
    quantity ordered of it, the row (with the total rounded to two
    decimals) and one [created] event are appended, and the inventory
    keeps its shape. *)
Theorem X5_create_on_healthy_services :
  ∀ order user w,
    faults w = [] → inventory_ok w →
    lookup_order (oc_id order) w = None →
    cu_role user = "admin" →
    int32 (cu_id user) →
    oc_user_id order ∈ users w →
    int32 (oc_user_id order) →
    fits_total (oc_total order) →
    text_ok (oc_id order) →
    text_ok (oc_status order) →
    oc_status order ≠ "cancelled" →
    NoDup (sku <$> oc_items order) →
    (∀ line, line ∈ oc_items order →
       ∃ q, stock (sku line) w = Some q ∧ quantity line ≤ q) →
    ∃ w',
      main.create_order order user w = (Ret (created_row order), w')
      ∧ calls w' = calls w ++ (reduce_call <$> oc_items order)
      ∧ (∀ s, stock s w'
              = (λ q, q - ordered_quantity s (oc_items order)) <$> stock s w)
      ∧ orders w' = orders w ++ [created_row order]
      ∧ order_events w' = order_events w ++ [created_event order (cu_id user)]
      ∧ inventory_ok w'.
Proof.
  intros order user w Hf Hok Hfresh Hadmin Hc Huser Hu Ht _ _ Hstatus Hnd Hstock.
  assert (authorized user (oc_user_id order)) as Hauth by by left.
  destruct Hok as (Hids & Hskus & Hlen).
  destruct (validate_order_data_healthy order (Some (cu_token user)) w Hf Hlen)
    as (ok & msg & Hvalid & Hiff & _ & _).
  assert (ok = true) as -> by by apply Hiff.
  assert (∃ w1,
            (if reservation_needed order
             then ∃ m' skus,
                 crud.process_inventory_for_order (oc_items order) true
                   (Some (cu_token user)) w = (Ret (true, m', skus), w1)
             else w1 = w)
            ∧ w1 = set_inventory (reserved (oc_items order) (inventory w))
                     (set_calls (calls w ++ (reduce_call <$> oc_items order)) w))
    as (w1 & Hres & Hw1).
  { unfold reservation_needed. rewrite (bool_decide_eq_true_2 _ Hstatus), andb_true_r.
    destruct (oc_items order) as [|line rest] eqn:Hitems; cbn [nonempty].
    - exists w. split; [done|]. cbn. rewrite app_nil_r. by destruct w.
    - rewrite <- Hitems in *.
      destruct (process_loop_healthy_unique (oc_items order) (oc_items order)
                  (Some (cu_token user)) [] w Hf) as (w1 & Hloop); try done.
      exists w1. split.
      + unfold crud.process_inventory_for_order. rewrite Hloop. eauto.
      + by apply process_loop_healthy in Hloop as [-> _]. }
  exists (persisted order (cu_id user) w1).
  split; [by eapply create_order_commits|].
  subst w1. split_and!; try reflexivity.
  - intros s.
    rewrite (stock_ext s (persisted order (cu_id user) _)
               (set_inventory (reserved (oc_items order) (inventory w)) w))
      by reflexivity.
    apply stock_reserved.
  - eapply (inventory_ok_reserved (oc_items order) w); done.
Qed.

(** Five units of X for user 1, with five on hand. *)
Lemma X5_create_on_healthy_services_witness :
  ∃ w',
    main.create_order examples.order_x5 examples.alice examples.shop
    = (Ret (created_row examples.order_x5), w')
    ∧ calls w' = calls examples.shop ++ (reduce_call <$> oc_items examples.order_x5)
    ∧ (∀ s, stock s w'
            = (λ q, q - ordered_quantity s (oc_items examples.order_x5))
              <$> stock s examples.shop)
    ∧ orders w' = orders examples.shop ++ [created_row examples.order_x5]
    ∧ order_events w'
      = order_events examples.shop ++ [created_event examples.order_x5 (cu_id examples.alice)]
    ∧ inventory_ok w'.
Proof.
  apply (X5_create_on_healthy_services examples.order_x5 examples.alice examples.shop).
  - reflexivity.
  - unfold inventory_ok. split_and!; [compute_done | compute_done | cbn; lia].
  - reflexivity.
  - reflexivity.
  - unfold int32. cbn. lia.
  - compute_done.
  - unfold int32. cbn. lia.
  - vm_compute. reflexivity.
  - unfold text_ok. compute_done.
  - unfold text_ok. compute_done.
  - discriminate.
  - compute_done.
  - intros line [->|[]%elem_of_nil]%elem_of_cons. exists 5. split; [reflexivity|cbn; lia].
Defined.

(** The inventory step of an update that cancels an order with
    well-formed items is the release pass over them. *)
Lemma update_inventory_step_cancel_eq patch existing user lines w :
  new_status_of patch existing = Some "cancelled" →
  items existing = Some (stored_item <$> lines) →
  update_inventory_step patch existing user w
  = if nonempty lines then
      match crud.process_inventory_for_order lines false (Some (cu_token user)) w with
      | (Ret (success, error_msg, _), w1) =>
          if success then (Ret tt, w1)
          else (Raise (HTTPException 400 ("Failed to restore inventory: "
                                          +:+ str_optional error_msg)), w1)
      | (Raise e, w1) => (Raise e, w1)
      end
    else (Ret tt, w).
Proof.
  intros Hnew Hitems. unfold update_inventory_step.
  rewrite status_change_new_status, Hnew. cbn [fmap option_fmap option_map].
  assert (status existing ≠ "cancelled") as Hold.
  { unfold new_status_of in Hnew. destruct (ou_status patch) as [| |s]; [done..|].
    destruct (bool_decide (s ≠ "")); [|done].
    case_bool_decide; [|done]. cbn in Hnew. congruence. }
  rewrite !bool_decide_eq_true_2 by done. cbn [andb]. rewrite Hitems. cbn [json_list].
  rewrite nonempty_fmap. destruct (nonempty lines); [|done].
  rewrite bind_eq, process_stored.
  destruct (crud.process_inventory_for_order _ _ _ _) as [[[[success msg] skus]|e] w1];
    [|done].
  by destruct success.
Qed.

(** X6: creating an order and then cancelling it is a round trip on the
    inventory.  On healthy services, after a create that succeeded for an
    order that is not cancelled, an update to cancelled by the same
    caller, with a patch that the store takes and that sets no field to
    null, succeeds, issues one release for every reservation, and leaves
    every row of the Inventory service as it was before the create. *)
Theorem X6_create_then_cancel_restores_inventory :
  ∀ order user w r w1 patch,
    faults w = [] → inventory_ok w →
    main.create_order order user w = (Ret r, w1) →
    oc_status order ≠ "cancelled" →
    ou_status patch = Value "cancelled" →
    storable patch →
    ∃ w2,
      main.update_order (oc_id order) patch user w1 = (Ret (patched_row r patch), w2)
      ∧ status (patched_row r patch) = "cancelled"
      ∧ inventory w2 = inventory w
      ∧ calls w2 = calls w ++ (reduce_call <$> oc_items order)
                   ++ (restore_call <$> oc_items order).
Proof.
  intros order user w r w1 patch Hf Hok Hrun Hstatus Hpatch [Htakes _].
  pose proof (create_order_stores _ _ _ _ _ Hrun) as [Hrow ->].
  destruct (create_order_inv _ _ _ _ _ Hrun)
    as (Hfresh & Hauth & _ & _ & Hc & m & w0 & w' & Hvalid & Hres & _ & ->).
  destruct (validate_order_data_healthy order (Some (cu_token user)) w Hf
              (proj2 (proj2 Hok))) as (ok & msg & Hvalid' & _).
  rewrite Hvalid in Hvalid'. injection Hvalid' as <- <- ->.
  assert (w' = set_inventory (reserved (oc_items order) (inventory w))
                 (set_calls (calls w ++ (reduce_call <$> oc_items order)) w)
          ∧ Forall (λ line, sku line ∈ inv_sku <$> inventory w) (oc_items order))
    as [-> Hall].
  { unfold reservation_needed in Hres.
    rewrite (bool_decide_eq_true_2 _ Hstatus), andb_true_r in Hres.
    destruct (oc_items order) as [|line rest] eqn:Hitems; cbn [nonempty] in Hres.
    - subst w'. split; [|done]. cbn. rewrite app_nil_r. by destruct w.
    - destruct Hres as (m' & skus & Hproc). by eapply process_reserved_healthy. }
  set (w1 := persisted order (cu_id user) _) in *.
  assert (faults w1 = []) as Hf1 by done.
  assert (inventory_ok w1) as Hok1
    by (eapply (inventory_ok_reserved (oc_items order) w); done).
  destruct (process_loop_release_healthy (oc_items order) (oc_items order)
              (Some (cu_token user)) [] w1 Hf1 Hok1) as (p' & Hloop).
  { subst w1. cbn. by rewrite reserved_skus. }
  assert (new_status_of patch (created_row order) = Some "cancelled") as Hnew.
  { apply new_status_of_value; [done|done|cbn; congruence]. }
  pose proof (update_inventory_step_cancel_eq patch (created_row order) user
                (oc_items order) w1 Hnew eq_refl) as Hstep.
  unfold crud.process_inventory_for_order in Hstep. rewrite Hloop in Hstep.
  set (w1' := if nonempty (oc_items order)
              then set_inventory (released (oc_items order) (inventory w1))
                     (set_calls (calls w1 ++ (restore_call <$> oc_items order)) w1)
              else w1).
  assert (update_inventory_step patch (created_row order) user w1 = (Ret tt, w1'))
    as Hstep'.
  { rewrite Hstep. unfold w1'. by destruct (nonempty (oc_items order)). }
  destruct (update_order_after_step (oc_id order) patch user (created_row order) w1 w1'
              Hrow Hauth Hstep')
    as [(_ & _ & ->)|[(Hno & _)|(_ & Hno & _)]]; [|  |done|done].
  { unfold w1'. by destruct (nonempty (oc_items order)). }
  eexists. split; [reflexivity|]. split; [by apply patched_row_status|].
  cbn [inventory calls set_order_events set_orders]. unfold w1'.
  destruct (oc_items order) as [|line rest] eqn:Hitems; cbn [nonempty].
  - subst w1. cbn. by rewrite app_nil_r.
  - subst w1. cbn [inventory calls persisted set_inventory set_calls set_orders
                     set_order_events].
    split; [apply released_reserved | by rewrite <- app_assoc].
Qed.

(** Five units of X are ordered and the order is cancelled. *)
Lemma X6_create_then_cancel_restores_inventory_witness :
  ∃ w2,
    main.update_order (oc_id examples.order_x5) (examples.patch_status "cancelled")
      examples.alice
      (snd (main.create_order examples.order_x5 examples.alice examples.shop))
    = (Ret (patched_row (created_row examples.order_x5)
              (examples.patch_status "cancelled")), w2)
    ∧ status (patched_row (created_row examples.order_x5)
                (examples.patch_status "cancelled")) = "cancelled"
    ∧ inventory w2 = inventory examples.shop
    ∧ calls w2 = calls examples.shop ++ (reduce_call <$> oc_items examples.order_x5)
                 ++ (restore_call <$> oc_items examples.order_x5).
Proof.
  apply (X6_create_then_cancel_restores_inventory examples.order_x5 examples.alice
           examples.shop).
  - reflexivity.
  - unfold inventory_ok. split_and!; [compute_done | compute_done | cbn; lia].
  - vm_compute; reflexivity.
  - discriminate.
  - reflexivity.
  - apply storable_patch_status. unfold text_ok. compute_done.
Defined.

(** ** The tables of the Orders service *)

(** The ways out of [create_order]: an exception with both tables as
    they were; the row and its event appended; or, for a caller whose id
    the event table refuses, the row appended without its event. *)
Lemma create_order_outcome order user w r w' :
  main.create_order order user w = (r, w') →
  (∃ e, r = Raise e ∧ orders w' = orders w ∧ order_events w' = order_events w)
  ∨ (r = Ret (created_row order)
     ∧ int32 (cu_id user)
     ∧ lookup_order (oc_id order) w = None
     ∧ orders w' = orders w ++ [created_row order]
     ∧ order_events w' = order_events w ++ [created_event order (cu_id user)])
  ∨ (∃ e, r = Raise e
     ∧ ¬ int32 (cu_id user)
     ∧ lookup_order (oc_id order) w = None
     ∧ orders w' = orders w ++ [created_row order]
     ∧ order_events w' = order_events w).
Proof.
  unfold main.create_order. rewrite bind_eq, get_order_eq.
  destruct (lookup_order (oc_id order) w) as [o|] eqn:Hfresh.
  { rewrite bool_decide_eq_true_2 by eauto. intros [= <- <-]. left. eauto. }
  rewrite bool_decide_eq_false_2 by by intros [? [=]].
  destruct (_ && _); [intros [= <- <-]; left; eauto|].
  destruct (validate_order_data_spec order (Some (cu_token user)) w)
    as (is_valid & m & w0 & Hvalid & (_ & _ & Ho0 & He0 & _)).
  rewrite (bind_ret _ _ _ _ _ Hvalid).
  destruct is_valid; cbn [negb].
  2: { destruct (str_contains _ _); intros [= <- <-]; left; eauto. }
  rewrite bind_eq.
  assert (∀ w1, orders w1 = orders w → order_events w1 = order_events w →
            try_except
              (db_order ← crud.create_order order;
               main.log_order_event (oc_id order) "created"
                 ("Order created with status '" +:+ oc_status order +:+ "'")
                 None (Some (oc_status order)) (Some (cu_id user));;
               mret db_order)
              (λ e, raise (HTTPException 500 ("Failed to create order: " +:+ exn_str e)))
              w1 = (r, w') →
            (∃ e, r = Raise e ∧ orders w' = orders w ∧ order_events w' = order_events w)
            ∨ (r = Ret (created_row order) ∧ int32 (cu_id user)
               ∧ None = (None : option Order)
               ∧ orders w' = orders w ++ [created_row order]
               ∧ order_events w' = order_events w ++ [created_event order (cu_id user)])
            ∨ (∃ e, r = Raise e ∧ ¬ int32 (cu_id user)
               ∧ None = (None : option Order)
               ∧ orders w' = orders w ++ [created_row order]
               ∧ order_events w' = order_events w)) as Hstore.
  { intros w1 Ho1 He1.
    destruct (create_store_step order user w1)
      as [(_ & _ & Hc & Hstep)|[(_ & detail & Hstep)|(_ & _ & Hc & detail & Hstep)]];
      cbn zeta in Hstep; rewrite Hstep; intros [= <- <-].
    - right. left. split_and!; try done; cbn; congruence.
    - left. eauto.
    - right. right. eexists. split_and!; try done; cbn; congruence. }
  destruct (nonempty (oc_items order) && bool_decide (oc_status order ≠ "cancelled")).
  - destruct (process_total (oc_items order) true (Some (cu_token user)) w0)
      as ([[success msg] skus] & w1 & Hproc & (Ho1 & He1 & _)).
    rewrite (bind_ret _ _ _ _ _ Hproc).
    destruct success; cbn [negb].
    + apply Hstore; congruence.
    + intros [= <- <-]. left. eexists. split; [done|]. split; congruence.
  - apply Hstore; congruence.
Qed.



(** The ways out of [update_order]: an exception with both tables as
    they were; the patched row in place of the old one and one event
    appended; or, for a caller whose id the event table refuses, the
    patched row without its event. *)
Lemma update_order_outcome order_id patch user w r w' :
  main.update_order order_id patch user w = (r, w') →
  (∃ e, r = Raise e ∧ orders w' = orders w ∧ order_events w' = order_events w)
  ∨ (∃ existing,
       lookup_order order_id w = Some existing
       ∧ authorized user (user_id existing)
       ∧ store_takes patch ∧ int32 (cu_id user)
       ∧ r = Ret (patched_row existing patch)
       ∧ orders w' = crud.replace_row order_id (patched_row existing patch) (orders w)
       ∧ order_events w'
         = order_events w ++ [update_event order_id patch existing (cu_id user)])
  ∨ (∃ existing e,
       lookup_order order_id w = Some existing
       ∧ ¬ int32 (cu_id user)
       ∧ r = Raise e
       ∧ orders w' = crud.replace_row order_id (patched_row existing patch) (orders w)
       ∧ order_events w' = order_events w).
Proof.
  intros Hrun.
  destruct (lookup_order order_id w) as [existing|] eqn:Hfound.
  2: { unfold main.update_order in Hrun. rewrite bind_eq, get_order_eq, Hfound in Hrun.
       injection Hrun as <- <-. left. eauto. }
  destruct (bool_decide (cu_role user ≠ "admin")
            && bool_decide (user_id existing ≠ cu_id user)) eqn:Hauth.
  { unfold main.update_order in Hrun.
    rewrite bind_eq, get_order_eq, Hfound, Hauth in Hrun.
    injection Hrun as <- <-. left. eauto. }
  apply authorized_check in Hauth.
  destruct (update_inventory_step_frame patch existing user w)
    as ([[]|e] & w1 & Hstep & (Ho1 & He1 & _)).
  - destruct (update_order_after_step order_id patch user existing w w1
                Hfound Hauth Hstep Ho1)
      as [(Hok & Hc & Heq)|[(Hno & msg & Heq)|(Hok & Hc & msg & Heq)]];
      rewrite Heq in Hrun; injection Hrun as <- <-.
    + right. left. exists existing. split_and!; try done; cbn; congruence.
    + left. eauto.
    + right. right. exists existing. eexists. split_and!; try done; cbn; congruence.
  - rewrite (update_order_step_raises _ _ _ _ _ _ _ Hfound Hauth Hstep) in Hrun.
    injection Hrun as <- <-. left. eauto.
Qed.

(** Either way out of [delete_order]. *)
Lemma delete_order_outcome order_id user w r w' :
  main.delete_order order_id user w = (r, w') →
  (∃ e, r = Raise e ∧ w' = w)
  ∨ (∃ existing,
       lookup_order order_id w = Some existing
       ∧ authorized user (user_id existing)
       ∧ r = Ret tt
       ∧ w' = set_orders (crud.remove_row order_id (orders w))
                (set_order_events (crud.events_without order_id (order_events w)) w)).
Proof.
  unfold main.delete_order. rewrite bind_eq, get_order_eq.
  destruct (lookup_order order_id w) as [existing|] eqn:Hfound.
  2: { intros [= <- <-]. left. eauto. }
  destruct (_ && _) eqn:Hauth.
  { intros [= <- <-]. left. eauto. }
  apply authorized_check in Hauth.
  rewrite bind_eq. unfold crud.delete_order, try_except.
  rewrite bind_eq, get_order_eq, Hfound. cbn.
  intros [= <- <-]. right. eauto.
Qed.

Lemma lookup_replace_other order_id other new_row rows :
  other ≠ order_id → id new_row = order_id →
  List.find (λ o, bool_decide (id o = other)) (crud.replace_row order_id new_row rows)
  = List.find (λ o, bool_decide (id o = other)) rows.
Proof.
  intros Hne Hid. induction rows as [|row rest IH]; [done|]. cbn.
  case_bool_decide as Hrow; cbn.
  - rewrite !bool_decide_eq_false_2 by congruence. done.
  - by rewrite IH.
Qed.

(** X8: [update_order] is all or nothing on the tables of the Orders
    service, whatever the remote services and the store do, for a caller
    whose id is a 32-bit integer, a patch that does not set the items to
    null and an order whose stored items have their three keys (so that
    the row returned is one the response model can send back): when it
    raises, the orders table and the timeline are as
    they were; when it returns, the order was on file, the caller was its
    owner or an admin, the store takes the patch, and the row returned,
    which is the row now found for the id, has the id of the old row and
    in every other column the value of the patch where the patch sets
    one (the total rounded to two decimals, the items as dicts of their
    three keys) and the old value where it does not; the other orders
    are found as before, and exactly one event was appended: a
    [status_changed] event if the patch names a status that is not empty
    and not the old one, an [updated] event otherwise. *)
Theorem X8_update_is_all_or_nothing :
  ∀ order_id patch user w r w',
    int32 (cu_id user) →
    ou_items patch ≠ Null →
    (∀ existing, lookup_order order_id w = Some existing → presentable existing) →
    main.update_order order_id patch user w = (r, w') →
    (∃ e, r = Raise e ∧ orders w' = orders w ∧ order_events w' = order_events w)
    ∨ (∃ existing row,
         lookup_order order_id w = Some existing
         ∧ authorized user (user_id existing)
         ∧ store_takes patch
         ∧ r = Ret row
         ∧ id row = order_id
         ∧ user_id row = match ou_user_id patch with
                         | Value n => n
                         | _ => user_id existing
                         end
         ∧ total row = match ou_total patch with
                       | Value t => rounded t
                       | _ => total existing
                       end
         ∧ status row = match ou_status patch with
                        | Value s => s
                        | _ => status existing
                        end
         ∧ items row = match ou_items patch with
                       | Value lines => Some (stored_item <$> lines)
                       | _ => items existing
                       end
         ∧ lookup_order order_id w' = Some row
         ∧ (∀ other, other ≠ order_id → lookup_order other w' = lookup_order other w)
         ∧ length (orders w') = length (orders w)
         ∧ order_events w'
           = order_events w
             ++ [match ou_status patch with
                 | Value new_status =>
                     if bool_decide (new_status ≠ "")
                        && bool_decide (new_status ≠ status existing)
                     then status_changed_event order_id (status existing) new_status
                            (cu_id user)
                     else updated_event order_id (cu_id user)
                 | _ => updated_event order_id (cu_id user)
                 end]).
Proof.
  intros order_id patch user w r w' Hc Hitems _ Hrun.
  destruct (update_order_outcome _ _ _ _ _ _ Hrun)
    as [Hraise|[(existing & Hfound & Hauth & Htakes & _ & -> & Ho & He)
               |(existing & e & _ & Hno & _)]]; [by left| |done].
  right. exists existing, (patched_row existing patch).
  assert (id (patched_row existing patch) = order_id) as Hid.
  { cbn. by eapply find_order_id. }
  split_and!; try done.
  - cbn. by destruct (ou_items patch).
  - unfold lookup_order in *. rewrite Ho. by eapply find_replace_row.
  - intros other Hne. unfold lookup_order. rewrite Ho. by apply lookup_replace_other.
  - rewrite Ho. clear. induction (orders w) as [|o rest IH]; [done|]. cbn.
    case_bool_decide; cbn; congruence.
  - rewrite He. unfold update_event, new_status_of.
    destruct (ou_status patch) as [| |s]; [done..|]. by destruct (_ && _).
Qed.

(** Reactivating the cancelled order for X and Y fails on Y: the row
    and the timeline stay. *)
Lemma X8_update_is_all_or_nothing_witness :
  ∃ e w',
    main.update_order "O1" (examples.patch_status "pending") examples.alice
      (examples.shop_with examples.cancelled_xy) = (Raise e, w')
    ∧ orders w' = orders (examples.shop_with examples.cancelled_xy)
    ∧ order_events w' = order_events (examples.shop_with examples.cancelled_xy).
Proof.
  destruct (X8_update_is_all_or_nothing "O1" (examples.patch_status "pending")
              examples.alice (examples.shop_with examples.cancelled_xy)
              (fst (main.update_order "O1" (examples.patch_status "pending") examples.alice
                      (examples.shop_with examples.cancelled_xy)))
              (snd (main.update_order "O1" (examples.patch_status "pending") examples.alice
                      (examples.shop_with examples.cancelled_xy))))
    as [(e & He & Ho & Hev)|(existing & row & _ & _ & _ & Hret & _)].
  - unfold int32. cbn. lia.
  - discriminate.
  - intros existing [= <-]. by exists [examples.line "X" 2 10; examples.line "Y" 5 10].
  - by destruct (main.update_order _ _ _ _).
  - exists e. eexists. split; [|split; [exact Ho|exact Hev]].
    rewrite <- He. by destruct (main.update_order _ _ _ _).
  - exfalso. vm_compute in Hret. discriminate.
Defined.

(** ** Invariants of the tables *)

Lemma lookup_order_None order_id w :
  lookup_order order_id w = None ↔ order_id ∉ id <$> orders w.
Proof.
  unfold lookup_order. induction (orders w) as [|row rest IH]; cbn.
  - split; [|done]. intros _. apply not_elem_of_nil.
  - case_bool_decide as Hid.
    + split; [done|]. intros Hnot. exfalso. apply Hnot. rewrite Hid. left.
    + rewrite IH, not_elem_of_cons. split; [by split|by intros [_ ?]].
Qed.

Lemma lookup_order_Some_elem order_id w row :
  lookup_order order_id w = Some row → order_id ∈ id <$> orders w ∧ id row = order_id.
Proof.
  intros Hfound. split; [|by eapply find_order_id].
  destruct (decide (order_id ∈ id <$> orders w)) as [|Hnot]; [done|].
  apply lookup_order_None in Hnot. congruence.
Qed.

Lemma replace_row_ids order_id new_row rows :
  id new_row = order_id →
  id <$> crud.replace_row order_id new_row rows = id <$> rows.
Proof.
  intros Hid. induction rows as [|row rest IH]; [done|]. cbn.
  case_bool_decide; cbn; [congruence|by rewrite IH].
Qed.

Lemma remove_row_ids_sublist order_id rows :
  (id <$> crud.remove_row order_id rows) `sublist_of` (id <$> rows).
Proof.
  induction rows as [|row rest IH]; [done|]. cbn.
  case_bool_decide; [by apply sublist_cons|by apply sublist_skip].
Qed.

Lemma remove_row_other order_id other rows :
  other ≠ order_id →
  List.find (λ o, bool_decide (id o = other)) (crud.remove_row order_id rows)
  = List.find (λ o, bool_decide (id o = other)) rows.
Proof.
  intros Hne. induction rows as [|row rest IH]; [done|]. cbn.
  case_bool_decide as Hid; cbn.
  - rewrite bool_decide_eq_false_2 by congruence. done.
  - by rewrite IH.
Qed.

Lemma remove_row_gone order_id rows :
  NoDup (id <$> rows) →
  List.find (λ o, bool_decide (id o = order_id)) (crud.remove_row order_id rows) = None.
Proof.
  induction rows as [|row rest IH]; [done|]. cbn.
  intros [Hfresh Hnd]%list.NoDup_cons. case_bool_decide as Hid; cbn.
  - rewrite <- Hid in *. clear -Hfresh.
    induction rest as [|r rest IH]; [done|]. cbn in *.
    apply not_elem_of_cons in Hfresh as [Hne Hfresh].
    rewrite bool_decide_eq_false_2 by done. by apply IH.
  - rewrite bool_decide_eq_false_2 by done. by apply IH.
Qed.

Lemma events_without_elem order_id events e :
  e ∈ crud.events_without order_id events ↔ e ∈ events ∧ ev_order_id e ≠ order_id.
Proof.
  unfold crud.events_without. rewrite !list_elem_of_In, List.filter_In.
  rewrite negb_true_iff, bool_decide_eq_false. done.
Qed.

Lemma timeline_events_without order_id other events :
  List.filter (λ e, bool_decide (ev_order_id e = other)) (crud.events_without order_id events)
  = if bool_decide (other = order_id) then []
    else List.filter (λ e, bool_decide (ev_order_id e = other)) events.
Proof.
  unfold crud.events_without. induction events as [|e rest IH]; cbn.
  - by case_bool_decide.
  - destruct (decide (ev_order_id e = order_id)) as [He|He].
    + rewrite (bool_decide_eq_true_2 _ He). cbn. rewrite IH.
      case_bool_decide as Ho; [done|].
      rewrite bool_decide_eq_false_2 by congruence. done.
    + rewrite (bool_decide_eq_false_2 _ He). cbn. rewrite IH.
      case_bool_decide as Ho; [|done].
      rewrite bool_decide_eq_false_2 by congruence. done.
Qed.

Lemma db_consistent_create order user w w' :
  db_consistent w →
  lookup_order (oc_id order) w = None →
  orders w' = orders w ++ [created_row order] →
  order_events w' = order_events w ++ [created_event order (cu_id user)] →
  db_consistent w'.
Proof.
  intros [Hnd Hfk] Hfresh%lookup_order_None Ho He. unfold db_consistent.
  rewrite Ho, He, fmap_app. split.
  - apply list.NoDup_app. split_and!; [done| |apply NoDup_singleton].
    cbn. intros x Hx [->|[]%elem_of_nil]%elem_of_cons. done.
  - intros e [Hin|[->|[]%elem_of_nil]%elem_of_cons]%elem_of_app.
    + apply elem_of_app. left. by apply Hfk.
    + apply elem_of_app. right. cbn. left.
Qed.

Lemma db_consistent_row order w w' :
  db_consistent w →
  lookup_order (oc_id order) w = None →
  orders w' = orders w ++ [created_row order] →
  order_events w' = order_events w →
  db_consistent w'.
Proof.
  intros [Hnd Hfk] Hfresh%lookup_order_None Ho He. unfold db_consistent.
  rewrite Ho, He, fmap_app. split.
  - apply list.NoDup_app. split_and!; [done| |apply NoDup_singleton].
    cbn. intros x Hx [->|[]%elem_of_nil]%elem_of_cons. done.
  - intros e Hin. apply elem_of_app. left. by apply Hfk.
Qed.

Lemma db_consistent_update order_id patch existing events w w' :
  db_consistent w →
  lookup_order order_id w = Some existing →
  orders w' = crud.replace_row order_id (patched_row existing patch) (orders w) →
  order_events w' = order_events w ++ events →
  (∀ e, e ∈ events → ev_order_id e = order_id) →
  db_consistent w'.
Proof.
  intros [Hnd Hfk] [Hin Hid]%lookup_order_Some_elem Ho He Hev. unfold db_consistent.
  rewrite Ho, He, replace_row_ids by done. split; [done|].
  intros e [Hold|Hnew]%elem_of_app.
  - by apply Hfk.
  - by rewrite (Hev _ Hnew).
Qed.

Lemma db_consistent_delete order_id w :
  db_consistent w →
  db_consistent (set_orders (crud.remove_row order_id (orders w))
                   (set_order_events (crud.events_without order_id (order_events w)) w)).
Proof.
  intros [Hnd Hfk]. unfold db_consistent. cbn. split.
  - eapply sublist_NoDup; [exact Hnd|apply remove_row_ids_sublist].
  - intros e [Hin Hne]%events_without_elem. specialize (Hfk e Hin).
    clear -Hfk Hne. induction (orders w) as [|row rest IH]; [done|]. cbn in *.
    apply elem_of_cons in Hfk as [Heq|Hrest].
    + rewrite bool_decide_eq_false_2 by congruence. rewrite Heq. left.
    + case_bool_decide; [done|]. right. by apply IH.
Qed.

(** X9: the three writing operations keep the tables of the Orders
    service consistent, whatever their outcome and whatever the remote
    services do: order ids stay unique, and every timeline event belongs
    to an order on file. *)
Theorem X9_tables_stay_consistent :
  ∀ w, db_consistent w →
    (∀ order user r w', main.create_order order user w = (r, w') → db_consistent w')
    ∧ (∀ order_id patch user r w',
         main.update_order order_id patch user w = (r, w') → db_consistent w')
    ∧ (∀ order_id user r w',
         main.delete_order order_id user w = (r, w') → db_consistent w').
Proof.
  intros w Hdb. split_and!.
  - intros order user r w'
      [(e & _ & Ho & He)|[(_ & _ & Hfresh & Ho & He)|(e & _ & _ & Hfresh & Ho & He)]]
        %create_order_outcome.
    + unfold db_consistent in *. by rewrite Ho, He.
    + by eapply db_consistent_create.
    + by eapply db_consistent_row.
  - intros order_id patch user r w'
      [(e & _ & Ho & He)|[(existing & Hfound & _ & _ & _ & _ & Ho & He)
                         |(existing & e & Hfound & _ & _ & Ho & He)]]%update_order_outcome.
    + unfold db_consistent in *. by rewrite Ho, He.
    + eapply db_consistent_update; try done.
      intros e [->|[]%elem_of_nil]%elem_of_cons. unfold update_event.
      by destruct (new_status_of patch existing).
    + eapply (db_consistent_update _ _ _ []); try done.
      * by rewrite app_nil_r.
      * intros e0 []%elem_of_nil.
  - intros order_id user r w'
      [(e & _ & ->)|(existing & _ & _ & _ & ->)]%delete_order_outcome; [done|].
    by apply db_consistent_delete.
Qed.

(** The empty tables are consistent, and stay so after a create. *)
Lemma X9_tables_stay_consistent_witness :
  db_consistent examples.shop
  ∧ db_consistent (snd (main.create_order examples.order_x5 examples.alice examples.shop)).
Proof.
  assert (db_consistent examples.shop) as Hdb.
  { split; [constructor|]. intros e []%elem_of_nil. }
  split; [exact Hdb|].
  eapply (proj1 (X9_tables_stay_consistent examples.shop Hdb)
            examples.order_x5 examples.alice).
  apply surjective_pairing.
Defined.

(** X10: deleting an order, by its owner or an admin, removes its row
    and every event of its timeline and nothing else: the other orders
    and their timelines are as before, the id is free again, the tables
    stay consistent, and no request goes to the Inventory service, so the
    stock the order had reserved is not given back. *)
Theorem X10_delete_removes_order_and_timeline :
  ∀ order_id user existing w,
    db_consistent w →
    lookup_order order_id w = Some existing →
    authorized user (user_id existing) →
    ∃ w',
      main.delete_order order_id user w = (Ret tt, w')
      ∧ lookup_order order_id w' = None
      ∧ timeline order_id w' = []
      ∧ (∀ other, other ≠ order_id →
           lookup_order other w' = lookup_order other w
           ∧ timeline other w' = timeline other w)
      ∧ inventory w' = inventory w ∧ calls w' = calls w ∧ faults w' = faults w
      ∧ db_consistent w'.
Proof.
  intros order_id user existing w Hdb Hfound Hauth.
  destruct (main.delete_order order_id user w) as [r w'] eqn:Hrun.
  destruct (delete_order_outcome _ _ _ _ _ Hrun)
    as [(e & -> & ->)|(existing' & _ & _ & -> & ->)].
  { exfalso. unfold main.delete_order in Hrun.
    rewrite bind_eq, get_order_eq, Hfound in Hrun.
    rewrite (proj1 (authorized_check _ _) Hauth) in Hrun.
    unfold crud.delete_order, try_except in Hrun.
    rewrite !bind_eq, get_order_eq, Hfound in Hrun. cbn in Hrun. discriminate. }
  eexists. split; [reflexivity|]. split_and!; try done.
  - unfold lookup_order. cbn. apply remove_row_gone. apply Hdb.
  - unfold timeline. cbn. rewrite timeline_events_without.
    by rewrite bool_decide_eq_true_2.
  - intros other Hne. split.
    + unfold lookup_order. cbn. by apply remove_row_other.
    + unfold timeline. cbn. rewrite timeline_events_without.
      by rewrite bool_decide_eq_false_2.
  - by apply db_consistent_delete.
Qed.

(** The delivered order is deleted; its two units of X stay reserved. *)
Lemma X10_delete_removes_order_and_timeline_witness :
  ∃ w',
    main.delete_order "O1" examples.alice (examples.shop_with examples.delivered_x)
    = (Ret tt, w')
    ∧ lookup_order "O1" w' = None
    ∧ timeline "O1" w' = []
    ∧ (∀ other, other ≠ "O1" →
         lookup_order other w' = lookup_order other (examples.shop_with examples.delivered_x)
         ∧ timeline other w' = timeline other (examples.shop_with examples.delivered_x))
    ∧ inventory w' = inventory (examples.shop_with examples.delivered_x)
    ∧ calls w' = calls (examples.shop_with examples.delivered_x)
    ∧ faults w' = faults (examples.shop_with examples.delivered_x)
    ∧ db_consistent w'.
Proof.
  apply (X10_delete_removes_order_and_timeline "O1" examples.alice examples.delivered_x
           (examples.shop_with examples.delivered_x)).
  - split; [compute_done|]. intros e []%elem_of_nil.
  - reflexivity.
  - left. reflexivity.
Defined.



(** ** Reading orders back *)



Lemma find_NoDup_elem (rows : list Order) (row : Order) :
  NoDup (id <$> rows) → row ∈ rows →
  List.find (λ o, bool_decide (id o = id row)) rows = Some row.
Proof.
  induction rows as [|r rest IH]; [by intros _ []%elem_of_nil|]. cbn.
  intros [Hfresh Hnd]%list.NoDup_cons [->|Hin]%elem_of_cons.
  - by rewrite bool_decide_eq_true_2.
  - rewrite bool_decide_eq_false_2; [by apply IH|].
    intros Heq. apply Hfresh. rewrite Heq. by apply list_elem_of_fmap_2.
Qed.

Lemma get_order_found order_id user row w :
  lookup_order order_id w = Some row →
  main.get_order order_id user w
  = (if bool_decide (cu_role user ≠ "admin") && bool_decide (user_id row ≠ cu_id user)
     then Raise (HTTPException 403 "Not authorized to access this order")
     else Ret row, w).
Proof.
  intros Hfound. unfold main.get_order. rewrite bind_eq, get_order_eq, Hfound.
  by destruct (_ && _).
Qed.




Lemma elem_of_page (o : Order) skip limit (rows : list Order) :
  o ∈ take limit (drop skip rows) → o ∈ rows.
Proof.
  intros (i & Hi & _)%elem_of_take. rewrite lookup_drop in Hi.
  by eapply list_elem_of_lookup_2.
Qed.

(** X12: [list_orders] pages first and filters afterwards.  The page
    is cut from the orders table by [skip] and [limit]; an admin gets
    the whole page, any other caller the orders of the page that are
    their own, so at most [limit] orders, possibly fewer than they own.
    The world is left as it was, and when the ids of the table are
    unique every listed order is one the caller can read with
    [get_order]. *)
Theorem X12_list_orders_pages_then_filters :
  ∀ skip limit user w,
    ∃ page,
      main.list_orders skip limit user w = (Ret page, w)
      ∧ (length page ≤ limit)%nat
      ∧ (∀ o, o ∈ page ↔
              o ∈ take limit (drop skip (orders w)) ∧ authorized user (user_id o))
      ∧ (cu_role user = "admin" → page = take limit (drop skip (orders w)))
      ∧ (NoDup (id <$> orders w) →
         ∀ o, o ∈ page → main.get_order (id o) user w = (Ret o, w)).
Proof.
  intros skip limit user w.
  set (window := take limit (drop skip (orders w))).
  assert (length window ≤ limit)%nat as Hlen.
  { unfold window. rewrite length_take. lia. }
  exists (if bool_decide (cu_role user ≠ "admin")
          then List.filter (λ order, bool_decide (user_id order = cu_id user)) window
          else window).
  split.
  { unfold main.list_orders, crud.get_orders. rewrite bind_eq. cbn.
    fold window. by destruct (bool_decide (cu_role user ≠ "admin")). }
  assert (∀ o, o ∈ (if bool_decide (cu_role user ≠ "admin")
                    then List.filter (λ order, bool_decide (user_id order = cu_id user)) window
                    else window)
               ↔ o ∈ window ∧ authorized user (user_id o)) as Hchar.
  { intros o. unfold authorized. case_bool_decide as Hrole.
    - rewrite !list_elem_of_In, List.filter_In, bool_decide_eq_true. tauto.
    - tauto. }
  split_and!.
  - case_bool_decide; [|done].
    etrans; [|exact Hlen]. clear. induction window as [|o rest IH]; [done|]. cbn.
    destruct (bool_decide _); cbn; lia.
  - exact Hchar.
  - intros Hadmin. by rewrite bool_decide_eq_false_2 by (by intros ?).
  - intros Hnd o [Hin Hauth]%Hchar.
    rewrite (get_order_found (id o) user o).
    + by rewrite (proj1 (authorized_check _ _) Hauth).
    + apply find_NoDup_elem; [done|]. by eapply elem_of_page.
Qed.


(** ** Updates that involve no inventory *)

Lemma timeline_replace_row order_id order_id' row events w :
  timeline order_id
    (set_order_events events (set_orders (crud.replace_row order_id' row (orders w)) w))
  = List.filter (λ e, bool_decide (ev_order_id e = order_id)) events.
Proof. done. Qed.

(** X13: an update that neither cancels an order nor takes it out of
    [cancelled] (the status is left out, empty, unchanged, or moves
    between two statuses other than [cancelled]), or that is for an
    order without items, sends no request: faults, stock and the log of
    inventory calls are untouched, also when the patch replaces the
    items of the order.  For an order on file whose stored items have
    their three keys, an authorized caller whose id is a 32-bit integer
    and a patch that the store takes (no null, a user id of 32 bits, a
    total that fits its column, no NUL character) it returns the row that is then found for the id: every column that
    the patch sets has the value of the patch (the total rounded to two
    decimals, the items as dicts), every other column its old value, and
    the timeline of the order grows by one event, [status_changed] when
    the patch names a status that is not empty and not the old one,
    [updated] otherwise. *)
Theorem X13_update_without_inventory_step :
  ∀ order_id patch user existing w,
    lookup_order order_id w = Some existing →
    authorized user (user_id existing) →
    int32 (cu_id user) →
    storable patch →
    presentable existing →
    (∀ new_status,
       ou_status patch = Value new_status →
       new_status ≠ "" → new_status ≠ status existing →
       touches_cancelled (status existing) new_status = false
       ∨ json_list (items existing) = []) →
    ∃ row w',
      main.update_order order_id patch user w = (Ret row, w')
      ∧ faults w' = faults w ∧ inventory w' = inventory w ∧ calls w' = calls w
      ∧ lookup_order order_id w' = Some row
      ∧ id row = order_id
      ∧ user_id row = match ou_user_id patch with
                      | Value n => n
                      | _ => user_id existing
                      end
      ∧ total row = match ou_total patch with
                    | Value t => rounded t
                    | _ => total existing
                    end
      ∧ status row = match ou_status patch with
                     | Value s => s
                     | _ => status existing
                     end
      ∧ items row = match ou_items patch with
                    | Value lines => Some (stored_item <$> lines)
                    | _ => items existing
                    end
      ∧ ∃ event,
          ev_order_id event = order_id
          ∧ ev_event_type event
            = match ou_status patch with
              | Value new_status =>
                  if bool_decide (new_status ≠ "")
                     && bool_decide (new_status ≠ status existing)
                  then "status_changed" else "updated"
              | _ => "updated"
              end
          ∧ ev_user_id event = Some (cu_id user)
          ∧ timeline order_id w' = timeline order_id w ++ [event].
Proof.
  intros order_id patch user existing w Hfound Hauth Hc [Htakes [Hitems _]] _ Hquiet.
  assert (update_inventory_step patch existing user w = (Ret tt, w)) as Hstep.
  { apply update_inventory_step_quiet. intros new_status Hnew.
    unfold new_status_of in Hnew.
    destruct (ou_status patch) as [| |s] eqn:Hs; [done..|].
    destruct (bool_decide (s ≠ "")) eqn:Hset; [|done].
    destruct (bool_decide (s ≠ status existing)) eqn:Hchange; [|done].
    injection Hnew as <-.
    apply bool_decide_eq_true in Hset. apply bool_decide_eq_true in Hchange.
    by apply Hquiet. }
  destruct (update_order_after_step order_id patch user existing w w
              Hfound Hauth Hstep eq_refl)
    as [(_ & _ & Heq)|[(Hno & _)|(_ & Hno & _)]]; [|done..].
  exists (patched_row existing patch). eexists. split; [exact Heq|].
  split_and!; try reflexivity.
  - unfold lookup_order in *. cbn [orders set_order_events set_orders].
    eapply find_replace_row; [exact Hfound|]. cbn. by eapply find_order_id.
  - cbn. by eapply find_order_id.
  - cbn. by destruct (ou_items patch).
  - exists (update_event order_id patch existing (cu_id user)).
    unfold update_event, new_status_of.
    split_and!.
    + destruct (ou_status patch) as [| |s]; [done..|]. by destruct (_ && _).
    + destruct (ou_status patch) as [| |s]; [done..|]. by destruct (_ && _).
    + destruct (ou_status patch) as [| |s]; [done..|]. by destruct (_ && _).
    + rewrite timeline_replace_row, List.filter_app. cbn [List.filter].
      rewrite bool_decide_eq_true_2; [done|].
      destruct (ou_status patch) as [| |s]; [done..|]. by destruct (_ && _).
Qed.

(** The delivered order is set back to [pending]: the guard of
    [validate_order_status_transition] is not asked, and no request is
    sent. *)
Lemma X13_update_without_inventory_step_witness :
  ∃ row w',
    main.update_order "O1" (examples.patch_status "pending") examples.alice
      (examples.shop_with examples.delivered_x) = (Ret row, w')
    ∧ faults w' = faults (examples.shop_with examples.delivered_x)
    ∧ inventory w' = inventory (examples.shop_with examples.delivered_x)
    ∧ calls w' = calls (examples.shop_with examples.delivered_x)
    ∧ lookup_order "O1" w' = Some row
    ∧ id row = "O1"
    ∧ user_id row = user_id examples.delivered_x
    ∧ total row = total examples.delivered_x
    ∧ status row = "pending"
    ∧ items row = items examples.delivered_x
    ∧ ∃ event,
        ev_order_id event = "O1"
        ∧ ev_event_type event = "status_changed"
        ∧ ev_user_id event = Some (cu_id examples.alice)
        ∧ timeline "O1" w'
          = timeline "O1" (examples.shop_with examples.delivered_x) ++ [event].
Proof.
  apply (X13_update_without_inventory_step "O1" (examples.patch_status "pending")
           examples.alice examples.delivered_x (examples.shop_with examples.delivered_x)).
  - reflexivity.
  - left. reflexivity.
  - unfold int32. cbn. lia.
  - apply storable_patch_status. unfold text_ok. compute_done.
  - by exists [examples.line "X" 2 10].
  - intros new_status [= <-] _ _. left. reflexivity.
Defined.

(** An update without inventory step, for a patch that the store
    takes. *)
Lemma update_order_quiet order_id patch user existing w :
  lookup_order order_id w = Some existing →
  authorized user (user_id existing) →
  int32 (cu_id user) →
  store_takes patch →
  (∀ new_status,
     new_status_of patch existing = Some new_status →
     touches_cancelled (status existing) new_status = false
     ∨ json_list (items existing) = []) →
  main.update_order order_id patch user w
  = (Ret (patched_row existing patch),
     set_order_events
       (order_events w ++ [update_event order_id patch existing (cu_id user)])
       (set_orders (crud.replace_row order_id (patched_row existing patch) (orders w)) w)).
Proof.
  intros Hfound Hauth Hc Htakes Hquiet.
  pose proof (update_inventory_step_quiet patch existing user w Hquiet) as Hstep.
  by destruct (update_order_after_step order_id patch user existing w w
                 Hfound Hauth Hstep eq_refl)
    as [(_ & _ & Heq)|[(Hno & _)|(_ & Hno & _)]].
Qed.

(** X14: the empty status is a way around the reservation.  A patch
    whose status is the empty string counts as no status change, yet the
    empty string is written to the row; a second patch then moves the
    order from the empty status to any status other than [cancelled].
    For an order whose stored items have their three keys, a caller
    whose id is a 32-bit integer and who may update the order before and
    after the first patch, and for two patches that the store takes (no null, a user id of 32 bits, a total that fits its
    column, no NUL character), both updates return and neither sends a
    request, so an order that was cancelled (its stock released) ends up
    active again with nothing reserved for its items. *)
Theorem X14_empty_status_skips_reservation :
  ∀ order_id patch1 patch2 user existing new_status w,
    lookup_order order_id w = Some existing →
    authorized user (user_id existing) →
    authorized user (user_id (patched_row existing patch1)) →
    int32 (cu_id user) →
    presentable existing →
    storable patch1 →
    storable patch2 →
    ou_status patch1 = Value "" →
    ou_status patch2 = Value new_status →
    new_status ≠ "cancelled" →
    ∃ row1 w1 row2 w2,
      main.update_order order_id patch1 user w = (Ret row1, w1)
      ∧ status row1 = ""
      ∧ lookup_order order_id w1 = Some row1
      ∧ faults w1 = faults w ∧ inventory w1 = inventory w ∧ calls w1 = calls w
      ∧ main.update_order order_id patch2 user w1 = (Ret row2, w2)
      ∧ status row2 = new_status
      ∧ lookup_order order_id w2 = Some row2
      ∧ faults w2 = faults w ∧ inventory w2 = inventory w ∧ calls w2 = calls w.
Proof.
  intros order_id patch1 patch2 user existing new_status w
    Hfound Hauth Hauth' Hc _ [Htakes1 _] [Htakes2 _] Hst1 Hst2 Hactive.
  assert (new_status_of patch1 existing = None) as Hnew1.
  { unfold new_status_of. by rewrite Hst1. }
  pose proof (update_order_quiet order_id patch1 user existing w Hfound Hauth Hc Htakes1)
    as Hrun1.
  rewrite Hnew1 in Hrun1. specialize (Hrun1 ltac:(by intros)).
  set (row1 := patched_row existing patch1) in *.
  set (w1 := set_order_events _ _) in Hrun1.
  assert (lookup_order order_id w1 = Some row1) as Hfound1.
  { unfold lookup_order in *. subst w1. cbn [orders set_order_events set_orders].
    eapply find_replace_row; [exact Hfound|]. cbn. by eapply find_order_id. }
  assert (status row1 = "") as Hstatus1 by by apply patched_row_status.
  pose proof (update_order_quiet order_id patch2 user row1 w1 Hfound1 Hauth' Hc Htakes2)
    as Hrun2.
  set (w2 := set_order_events _ _) in Hrun2.
  exists row1, w1, (patched_row row1 patch2), w2.
  split_and!; try done.
  - apply Hrun2. intros new_status' Hnew2. left.
    unfold new_status_of in Hnew2. rewrite Hst2 in Hnew2.
    destruct (_ && _); [|done]. injection Hnew2 as <-.
    unfold touches_cancelled. rewrite Hstatus1.
    rewrite (bool_decide_eq_false_2 (new_status = "cancelled")) by done. done.
  - by apply patched_row_status.
  - unfold lookup_order in *. subst w2. cbn [orders set_order_events set_orders].
    eapply find_replace_row; [exact Hfound1|]. cbn. by eapply find_order_id.
Qed.

(** The cancelled order for X and Y, of which Y could not be reserved,
    is made [pending] in two steps. *)
Lemma X14_empty_status_skips_reservation_witness :
  ∃ row1 w1 row2 w2,
    main.update_order "O1" (examples.patch_status "") examples.alice
      (examples.shop_with examples.cancelled_xy) = (Ret row1, w1)
    ∧ status row1 = ""
    ∧ lookup_order "O1" w1 = Some row1
    ∧ faults w1 = faults (examples.shop_with examples.cancelled_xy)
    ∧ inventory w1 = inventory (examples.shop_with examples.cancelled_xy)
    ∧ calls w1 = calls (examples.shop_with examples.cancelled_xy)
    ∧ main.update_order "O1" (examples.patch_status "pending") examples.alice w1
      = (Ret row2, w2)
    ∧ status row2 = "pending"
    ∧ lookup_order "O1" w2 = Some row2
    ∧ faults w2 = faults (examples.shop_with examples.cancelled_xy)
    ∧ inventory w2 = inventory (examples.shop_with examples.cancelled_xy)
    ∧ calls w2 = calls (examples.shop_with examples.cancelled_xy).
Proof.
  apply (X14_empty_status_skips_reservation "O1" (examples.patch_status "")
           (examples.patch_status "pending") examples.alice examples.cancelled_xy
           "pending" (examples.shop_with examples.cancelled_xy)).
  - reflexivity.
  - left. reflexivity.
  - left. reflexivity.
  - unfold int32. cbn. lia.
  - by exists [examples.line "X" 2 10; examples.line "Y" 5 10].
  - apply storable_patch_status. unfold text_ok. compute_done.
  - apply storable_patch_status. unfold text_ok. compute_done.
  - reflexivity.
  - reflexivity.
  - discriminate.
Defined.

(** X15: a create request without items, or with the status
    [cancelled], reserves nothing: when it succeeds, the stock and the
    log of inventory calls are as before, whatever the item list asks
    for. *)
Theorem X15_create_without_reservation :
  ∀ order user w r w',
    main.create_order order user w = (Ret r, w') →
    reservation_needed order = false →
    inventory w' = inventory w ∧ calls w' = calls w.
Proof.
  intros order user w r w' Hrun Hnone.
  destruct (create_order_inv _ _ _ _ _ Hrun)
    as (_ & _ & _ & _ & _ & m & w0 & w1 & Hvalid & Hres & _ & ->).
  rewrite Hnone in Hres. subst w1.
  destruct (validate_order_data_spec order (Some (cu_token user)) w)
    as (? & ? & ? & Hvalid' & (Hinv & Hcalls & _)).
  rewrite Hvalid in Hvalid'. injection Hvalid' as <- <- <-. by cbn.
Qed.

(** An order for two units of X created as [cancelled]: X stays at 5. *)
Lemma X15_create_without_reservation_witness :
  inventory (snd (main.create_order (examples.request "O1" 20 "cancelled"
                                       [examples.line "X" 2 10])
                    examples.alice examples.shop))
  = inventory examples.shop
  ∧ calls (snd (main.create_order (examples.request "O1" 20 "cancelled"
                                     [examples.line "X" 2 10])
                  examples.alice examples.shop))
    = calls examples.shop.
Proof.
  apply (X15_create_without_reservation
           (examples.request "O1" 20 "cancelled" [examples.line "X" 2 10])
           examples.alice examples.shop
           (created_row (examples.request "O1" 20 "cancelled" [examples.line "X" 2 10]))).
  - vm_compute. reflexivity.
  - reflexivity.
Defined.

(** ** The validators and the order of the items *)

Lemma validate_order_items_accepts_iff (items : list OrderItem) :
  fst (validators.validate_order_items items) = true
  ↔ items ≠ [] ∧ (length items ≤ 100)%nat ∧ NoDup (sku <$> items)
    ∧ Forall quantity_ok items ∧ Forall price_ok items.
Proof.
  unfold validators.validate_order_items. split.
  - destruct items as [|item rest]; [discriminate|].
    case_bool_decide as Hlen; [discriminate|].
    case_bool_decide as Hdup; [discriminate|].
    intros [Hq Hp]%validate_each_accepts. split_and!; try done.
    + lia.
    + destruct (decide (NoDup (sku <$> item :: rest))) as [|Hnd]; [done|].
      by apply duplicate_test in Hnd.
  - intros (Hne & Hlen & Hnd & Hq & Hp).
    destruct items as [|item rest]; [done|].
    rewrite bool_decide_eq_false_2 by lia.
    rewrite bool_decide_eq_false_2; [by rewrite validate_each_ok|].
    rewrite duplicate_test. by intros ?.
Qed.

(** X16: the verdict of [validate_order_items] does not depend on the
    order of the items: a permutation of a list is accepted exactly when
    the list is.  The verdict of [validate_order_total] does: the sum is
    a Decimal of 28 significant digits, rounded after every addition, so
    that of one unit at 10^28 and two units at 6 a claimed total of
    10^28 + 10 is refused when the line at 10^28 comes first (the sum is
    10^28 + 20) and accepted when it comes last (the sum is
    10^28 + 10). *)
Theorem X16_validators_ignore_item_order :
  (∀ items items',
     items ≡ₚ items' →
     fst (validators.validate_order_items items)
     = fst (validators.validate_order_items items'))
  ∧ ∃ items items' claimed_total,
      items ≡ₚ items'
      ∧ validators.calculated_total items = Q2Qc 10000000000000000000000000020
      ∧ validators.calculated_total items' = Q2Qc 10000000000000000000000000010
      ∧ ∀ str_decimal,
          fst (validators.validate_order_total str_decimal items claimed_total) = false
          ∧ fst (validators.validate_order_total str_decimal items' claimed_total) = true.
Proof.
  split.
  - intros items items' Hperm.
    apply eq_true_iff_eq. rewrite !validate_order_items_accepts_iff.
    assert (items = [] ↔ items' = []) as Hnil.
    { split; intros ->; [by apply Permutation_nil_l in Hperm
                        |by apply Permutation_nil_r in Hperm]. }
    by rewrite Hnil, Hperm.
  - exists [examples.line "A" 1 10000000000000000000000000000;
            examples.line "B" 1 6; examples.line "C" 1 6],
           [examples.line "B" 1 6; examples.line "C" 1 6;
            examples.line "A" 1 10000000000000000000000000000],
           (Q2Qc 10000000000000000000000000010).
    split_and!.
    + etrans; [apply Permutation_swap|]. apply perm_skip.
      etrans; [|apply Permutation_swap]. done.
    + apply Qc_is_canon. vm_compute. reflexivity.
    + apply Qc_is_canon. vm_compute. reflexivity.
    + intros str_decimal. unfold validators.validate_order_total. split.
      * rewrite bool_decide_eq_true_2; [done|]. vm_compute. reflexivity.
      * rewrite bool_decide_eq_false_2; [done|]. vm_compute. discriminate.
Qed.

(** ** The errors of the endpoints *)

(** With well-formed stored items the inventory step fails in one way
    only: stock cannot be reserved for a cancelled order that is given
    another status. *)
Lemma update_inventory_step_errors patch existing user lines w e w1 :
  json_list (items existing) = stored_item <$> lines →
  update_inventory_step patch existing user w = (Raise e, w1) →
  ∃ new_status msg,
    status existing = "cancelled" ∧ lines ≠ []
    ∧ ou_status patch = Value new_status
    ∧ new_status ≠ "" ∧ new_status ≠ "cancelled"
    ∧ e = HTTPException 400 ("Failed to deduct inventory: " +:+ msg).
Proof.
  intros Hitems. unfold update_inventory_step, main.status_change.
  destruct (ou_status patch) as [| |new_status] eqn:Hst; [done..|].
  destruct (bool_decide (new_status ≠ "")) eqn:Hset; [|done].
  destruct (bool_decide (new_status ≠ status existing)) eqn:Hchange; [|done].
  cbn [andb]. apply bool_decide_eq_true in Hset. rewrite Hitems, nonempty_fmap.
  destruct (bool_decide (new_status = "cancelled") && _) eqn:Hcancel.
  - destruct (nonempty lines); [|done].
    rewrite bind_eq, process_stored.
    destruct (process_release lines (Some (cu_token user)) w) as (skus & w2 & -> & _).
    done.
  - destruct (bool_decide (status existing = "cancelled") && _) eqn:Hreact; [|done].
    apply andb_true_iff in Hreact as [Hold%bool_decide_eq_true Hnew%bool_decide_eq_true].
    destruct lines as [|line rest] eqn:Hlines; [done|]. cbn [nonempty].
    rewrite bind_eq, process_stored.
    destruct (process_total (line :: rest) true (Some (cu_token user)) w)
      as ([[success msg] skus] & w2 & -> & _).
    destruct success; cbn; [done|]. intros [= <- <-].
    exists new_status, (str_optional msg). by split_and!.
Qed.

(** X17: the ways for [update_order] to fail.  For an id without NUL
    character, a caller whose id is a 32-bit integer, a patch that the
    store takes (no null, a user id of 32 bits, a total that fits its
    column, no NUL character) and an order whose stored items have their
    three keys, the only failures are 404 for an id that is not on file,
    403 for a caller who is neither the owner nor an admin (in both cases
    nothing was sent or written), and 400 when stock cannot be reserved
    for a cancelled order with items that is given another, non-empty
    status.  In particular cancelling such an order never fails: a
    release pass over well-formed items always reports success, so the
    answer [Failed to restore inventory] does not occur, and no httpx
    error escapes. *)
Theorem X17_update_order_errors :
  ∀ order_id patch user w e w',
    text_ok order_id →
    int32 (cu_id user) →
    storable patch →
    (∀ existing,
       lookup_order order_id w = Some existing →
       ∃ lines, json_list (items existing) = stored_item <$> lines) →
    main.update_order order_id patch user w = (Raise e, w') →
    (lookup_order order_id w = None
     ∧ e = HTTPException 404 "Order not found" ∧ w' = w)
    ∨ (∃ existing,
         lookup_order order_id w = Some existing
         ∧ ¬ authorized user (user_id existing)
         ∧ e = HTTPException 403 "Not authorized to update this order" ∧ w' = w)
    ∨ (∃ existing new_status msg,
         lookup_order order_id w = Some existing
         ∧ authorized user (user_id existing)
         ∧ status existing = "cancelled" ∧ json_list (items existing) ≠ []
         ∧ ou_status patch = Value new_status
         ∧ new_status ≠ "" ∧ new_status ≠ "cancelled"
         ∧ e = HTTPException 400 ("Failed to deduct inventory: " +:+ msg)).
Proof.
  intros order_id patch user w e w' _ Hc [Htakes _] Hwf Hrun.
  destruct (lookup_order order_id w) as [existing|] eqn:Hfound.
  2: { unfold main.update_order in Hrun. rewrite bind_eq, get_order_eq, Hfound in Hrun.
       injection Hrun as <- <-. by left. }
  destruct (bool_decide (cu_role user ≠ "admin")
            && bool_decide (user_id existing ≠ cu_id user)) eqn:Hauth.
  { unfold main.update_order in Hrun.
    rewrite bind_eq, get_order_eq, Hfound, Hauth in Hrun.
    injection Hrun as <- <-. right. left. exists existing. split_and!; try done.
    intros Hyes%authorized_check. congruence. }
  apply authorized_check in Hauth.
  destruct (Hwf existing eq_refl) as (lines & Hitems).
  destruct (update_inventory_step_frame patch existing user w)
    as ([[]|e1] & w1 & Hstep & (Ho1 & _)).
  - destruct (update_order_after_step order_id patch user existing w w1
                Hfound Hauth Hstep Ho1)
      as [(_ & _ & Heq)|[(Hno & _)|(_ & Hno & _)]]; [|done..].
    rewrite Heq in Hrun. discriminate.
  - rewrite (update_order_step_raises _ _ _ _ _ _ _ Hfound Hauth Hstep) in Hrun.
    injection Hrun as <- <-.
    destruct (update_inventory_step_errors _ _ _ _ _ _ _ Hitems Hstep)
      as (new_status & msg & Hold & Hne & Hst & Hset & Hactive & ->).
    right. right. exists existing, new_status, msg. split_and!; try done.
    rewrite Hitems. by destruct lines.
Qed.

(** The update of an id that is not on file. *)
Lemma X17_update_order_errors_witness :
  (lookup_order "O1" examples.shop = None
   ∧ HTTPException 404 "Order not found" = HTTPException 404 "Order not found"
   ∧ examples.shop = examples.shop)
  ∨ (∃ existing,
       lookup_order "O1" examples.shop = Some existing
       ∧ ¬ authorized examples.alice (user_id existing)
       ∧ HTTPException 404 "Order not found"
         = HTTPException 403 "Not authorized to update this order"
       ∧ examples.shop = examples.shop)
  ∨ (∃ existing new_status msg,
       lookup_order "O1" examples.shop = Some existing
       ∧ authorized examples.alice (user_id existing)
       ∧ status existing = "cancelled" ∧ json_list (items existing) ≠ []
       ∧ ou_status (examples.patch_status "pending") = Value new_status
       ∧ new_status ≠ "" ∧ new_status ≠ "cancelled"
       ∧ HTTPException 404 "Order not found"
         = HTTPException 400 ("Failed to deduct inventory: " +:+ msg)).
Proof.
  apply (X17_update_order_errors "O1" (examples.patch_status "pending") examples.alice
           examples.shop).
  - unfold text_ok. compute_done.
  - unfold int32. cbn. lia.
  - apply storable_patch_status. unfold text_ok. compute_done.
  - intros existing [=].
  - reflexivity.
Defined.

(** Why [create_order] fails, when it does. *)
Lemma create_order_errors order user w e w' :
  main.create_order order user w = (Raise e, w') →
  ∃ code detail,
    e = HTTPException code detail ∧ code ∈ [400; 403; 500; 503]
    ∧ (code = 503 → str_contains "Service communication error" detail = true)
    ∧ (code = 500 →
       ¬ (int32 (oc_user_id order) ∧ fits_total (oc_total order) ∧ int32 (cu_id user))).
Proof.
  unfold main.create_order. rewrite bind_eq, get_order_eq.
  destruct (lookup_order (oc_id order) w) as [o|] eqn:Hfresh.
  { rewrite bool_decide_eq_true_2 by eauto. intros [= <- <-].
    do 2 eexists. split; [done|]. split_and!; [set_solver|done..]. }
  rewrite bool_decide_eq_false_2 by by intros [? [=]].
  destruct (_ && _).
  { intros [= <- <-]. do 2 eexists. split; [done|]. split_and!; [set_solver|done..]. }
  destruct (validate_order_data_spec order (Some (cu_token user)) w)
    as (is_valid & m & w0 & Hvalid & _).
  rewrite (bind_ret _ _ _ _ _ Hvalid).
  destruct is_valid; cbn [negb].
  2: { destruct (str_contains _ _) eqn:Hc; intros [= <- <-];
       do 2 eexists; (split; [done|]); (split_and!; [set_solver|done..]). }
  rewrite bind_eq.
  assert (∀ w1,
            try_except
              (db_order ← crud.create_order order;
               main.log_order_event (oc_id order) "created"
                 ("Order created with status '" +:+ oc_status order +:+ "'")
                 None (Some (oc_status order)) (Some (cu_id user));;
               mret db_order)
              (λ e, raise (HTTPException 500 ("Failed to create order: " +:+ exn_str e)))
              w1 = (Raise e, w') →
            ∃ code detail,
              e = HTTPException code detail ∧ code ∈ [400; 403; 500; 503]
              ∧ (code = 503 → str_contains "Service communication error" detail = true)
              ∧ (code = 500 →
                 ¬ (int32 (oc_user_id order) ∧ fits_total (oc_total order)
                    ∧ int32 (cu_id user)))) as Hstore.
  { intros w1.
    destruct (create_store_step order user w1)
      as [(_ & _ & _ & Hstep)|[(Hno & detail & Hstep)|(_ & _ & Hno & detail & Hstep)]];
      cbn zeta in Hstep; rewrite Hstep; [done| |]; intros [= <- <-];
      do 2 eexists; (split; [done|]); (split_and!; [set_solver|done|]); intros _; tauto. }
  destruct (nonempty (oc_items order) && bool_decide (oc_status order ≠ "cancelled")).
  - destruct (process_total (oc_items order) true (Some (cu_token user)) w0)
      as ([[success msg] skus] & w1 & Hproc & _).
    rewrite (bind_ret _ _ _ _ _ Hproc).
    destruct success; cbn [negb].
    + apply Hstore.
    + intros [= <- <-]. do 2 eexists. split; [done|]. split_and!; [set_solver|done..].
  - apply Hstore.
Qed.

(** X18: the statuses of the failures, for ids without NUL character.
    [create_order] fails only with 400, 403, 500 or 503: with 503 only
    for a message of the validation step that mentions a service
    communication error, and, when neither the status nor a SKU has a
    NUL character, with 500 only when the store refuses the row or its
    event, because a user id is not a 32-bit integer or the total does
    not fit its column.  [delete_order], [get_order] and
    [get_order_timeline] fail only with 403 or 404, leaving the world as
    it was.  No httpx error escapes these endpoints. *)
Theorem X18_endpoint_failure_statuses :
  (∀ order user w e w',
     text_ok (oc_id order) →
     main.create_order order user w = (Raise e, w') →
     ∃ code detail,
       e = HTTPException code detail ∧ code ∈ [400; 403; 500; 503]
       ∧ (code = 503 → str_contains "Service communication error" detail = true)
       ∧ (code = 500 →
          text_ok (oc_status order) →
          (∀ line, line ∈ oc_items order → text_ok (sku line)) →
          ¬ int32 (oc_user_id order) ∨ ¬ fits_total (oc_total order)
          ∨ ¬ int32 (cu_id user)))
  ∧ (∀ order_id user w e w',
       text_ok order_id →
       main.delete_order order_id user w = (Raise e, w') →
       w' = w ∧ ∃ code detail, e = HTTPException code detail ∧ code ∈ [403; 404])
  ∧ (∀ order_id user w e w',
       text_ok order_id →
       main.get_order order_id user w = (Raise e, w') →
       w' = w ∧ ∃ code detail, e = HTTPException code detail ∧ code ∈ [403; 404])
  ∧ (∀ order_id user w e w',
       text_ok order_id →
       main.get_order_timeline order_id user w = (Raise e, w') →
       w' = w ∧ ∃ code detail, e = HTTPException code detail ∧ code ∈ [403; 404]).
Proof.
  split_and!.
  - intros order user w e w' _
      (code & detail & -> & Hcode & Hcomm & Hstore)%create_order_errors.
    exists code, detail. split_and!; try done.
    intros H500 _ _. specialize (Hstore H500).
    destruct (int32_dec (oc_user_id order)); [|tauto].
    destruct (fits_total_dec (oc_total order)); [|tauto].
    destruct (int32_dec (cu_id user)); tauto.
  - intros order_id user w e w' _. unfold main.delete_order.
    rewrite bind_eq, get_order_eq.
    destruct (lookup_order order_id w) as [existing|] eqn:Hfound.
    2: { intros [= <- <-]. split; [done|]. do 2 eexists. split; [done|set_solver]. }
    destruct (_ && _).
    { intros [= <- <-]. split; [done|]. do 2 eexists. split; [done|set_solver]. }
    unfold crud.delete_order, try_except.
    rewrite !bind_eq, get_order_eq, Hfound. cbn. discriminate.
  - intros order_id user w e w' _. unfold main.get_order.
    rewrite bind_eq, get_order_eq.
    destruct (lookup_order order_id w) as [existing|].
    2: { intros [= <- <-]. split; [done|]. do 2 eexists. split; [done|set_solver]. }
    destruct (_ && _); [|discriminate].
    intros [= <- <-]. split; [done|]. do 2 eexists. split; [done|set_solver].
  - intros order_id user w e w' _. unfold main.get_order_timeline.
    rewrite bind_eq, get_order_eq.
    destruct (lookup_order order_id w) as [existing|].
    2: { intros [= <- <-]. split; [done|]. do 2 eexists. split; [done|set_solver]. }
    destruct (_ && _); [|discriminate].
    intros [= <- <-]. split; [done|]. do 2 eexists. split; [done|set_solver].
Qed.
